(** * pupilanalysis.drosom.plotting.basics: comparison and difference maps

    A shallow embedding of [plot_3d_vectormap], [plot_3d_differencemap],
    [compare_3d_vectormaps], [compare_3d_vectormaps_compact] and
    [compare_3d_vectormaps_manyviews] of
    [src/pupilanalysis/drosom/plotting/basics.py]; after them, in modules
    of their own, [src/directories.py] and [plot_1d_magnitude].

    The Python code works on objects it is handed (analysers, Matplotlib
    axes, lists, dicts), mutates their attributes and calls drawing
    primitives.  The embedding keeps a store of those objects and threads it
    through a monad of state and exceptions that also collects, in order,
    every call of a collaborator (extraction, error computation,
    drawing). *)

From Stdlib Require Import ZArith Floats Ascii String DecimalString.
From stdpp Require Import gmap strings list fin_maps functions.

Open Scope Z_scope.

Set Warnings "-register-all,-inexact-float".

(** ** Python values *)

(** Identities of the objects of the store. *)
Definition aid := nat.
Definition axid := nat.
Bind Scope nat_scope with aid axid.

(** A list object: the one built once for the default
    [arrow_rotations = [0]] of [plot_3d_vectormap], the one built once for
    the default [column_titles] of [compare_3d_vectormaps_manyviews], or a
    list of the store. *)
Inductive listref :=
| vectormap_default_rotations
| manyviews_default_titles
| list_at (l : nat).

#[global] Instance listref_eq_dec : EqDecision listref.
Proof. solve_decision. Defined.

(** A dict object: the one built once for the default [{}] of the parameter
    [param] ([kwargs1], [kwargs2], [kwargsD]) of [compare_3d_vectormaps], or
    a dict of the store. *)
Inductive dictref :=
| compare_default (param : string)
| dict_at (l : nat).

(** The values the functions exchange.  A list or a dict is an object of
    the store, named by a reference; a tuple is a value. *)
Inductive pyval :=
| PNone
| PBool (b : bool)
| PInt (z : Z)
| PFloat (f : float)
| PStr (s : string)
| PTuple (vs : list pyval)
| PList (r : listref)
| PDict (r : dictref)
| PAx (a : axid).

(** A dict with string keys, in insertion order (keyword dictionaries). *)
Definition pydict := list (string * pyval).

Fixpoint dict_get (k : string) (d : pydict) : option pyval :=
  match d with
  | [] => None
  | (k', v) :: d' => if String.eqb k k' then Some v else dict_get k d'
  end.

Definition dict_has (k : string) (d : pydict) : bool :=
  match dict_get k d with Some _ => true | None => false end.

(** [d[k] = v]: replaces the value of an existing key in place, else adds
    the key at the end. *)
Fixpoint dict_set (k : string) (v : pyval) (d : pydict) : pydict :=
  match d with
  | [] => [(k, v)]
  | (k', v') :: d' =>
      if String.eqb k k' then (k, v) :: d' else (k', v') :: dict_set k v d'
  end.

(** [d.copy()]: a new dict with the same keys and the same values. *)
Definition dict_copy (d : pydict) : pydict := d.

Definition dict_keys (d : pydict) : list string := d.*1.

(** [d.get(k, None)] *)
Definition dict_get_default (k : string) (d : pydict) : pyval :=
  default PNone (dict_get k d).

(** Removes a key (used to split a keyword dictionary into the named
    parameters and the rest). *)
Definition dict_remove (k : string) (d : pydict) : pydict :=
  filter (λ kv, negb (String.eqb k kv.1)) d.

(** [v is None] *)
Definition is_None (v : pyval) : bool :=
  match v with PNone => true | _ => false end.

(** [v == s] for a string literal [s] *)
Definition eq_str (v : pyval) (s : string) : bool :=
  match v with PStr t => String.eqb t s | _ => false end.

(** A Python int as a float. *)
Definition float_of_Z (z : Z) : float :=
  if Z.ltb z 0 then (- PrimFloat.of_uint63 (Uint63.of_Z (- z)))%float
  else PrimFloat.of_uint63 (Uint63.of_Z z).

(** [v == z] for an integer literal [z]; Python compares numbers by value,
    a bool being the integer 0 or 1. *)
Definition eq_int (v : pyval) (z : Z) : bool :=
  match v with
  | PInt z' => Z.eqb z' z
  | PBool b => Z.eqb (Z.b2z b) z
  | PFloat f => PrimFloat.eqb f (float_of_Z z)
  | _ => false
  end.

(** ** Objects of the store *)

(** 3D coordinates, and a vector field: points and the vectors sampled at
    them, paired by index. *)
Definition vec3 := (float * float * float)%type.
Definition vectorfield := (list vec3 * list vec3)%type.

(** One of the analysers an averager holds in [manalysers]. *)
Record partanalyser := {
  part_class : string;            (* [__class__.__name__] *)
  receptive_fields : pyval
}.

(** An analyser object: the attributes the plotting functions touch. *)
Record analyser := {
  class_name : string;                         (* [__class__.__name__] *)
  manalysers : option (list partanalyser);     (* [None]: no such attribute *)
  eyes : list string;
  vector_rotation : pyval;
  pitch_rot : pyval;
  roll_rot : pyval;
  yaw_rot : pyval;
  constant_points : option pyval               (* [None]: no such attribute *)
}.

Definition set_vector_rotation (v : pyval) (m : analyser) : analyser :=
  {| class_name := class_name m; manalysers := manalysers m; eyes := eyes m;
     vector_rotation := v; pitch_rot := pitch_rot m; roll_rot := roll_rot m;
     yaw_rot := yaw_rot m; constant_points := constant_points m |}.

Definition set_pitch_rot (v : pyval) (m : analyser) : analyser :=
  {| class_name := class_name m; manalysers := manalysers m; eyes := eyes m;
     vector_rotation := vector_rotation m; pitch_rot := v; roll_rot := roll_rot m;
     yaw_rot := yaw_rot m; constant_points := constant_points m |}.

Definition set_roll_rot (v : pyval) (m : analyser) : analyser :=
  {| class_name := class_name m; manalysers := manalysers m; eyes := eyes m;
     vector_rotation := vector_rotation m; pitch_rot := pitch_rot m; roll_rot := v;
     yaw_rot := yaw_rot m; constant_points := constant_points m |}.

Definition set_yaw_rot (v : pyval) (m : analyser) : analyser :=
  {| class_name := class_name m; manalysers := manalysers m; eyes := eyes m;
     vector_rotation := vector_rotation m; pitch_rot := pitch_rot m; roll_rot := roll_rot m;
     yaw_rot := v; constant_points := constant_points m |}.

Definition set_constant_points (v : pyval) (m : analyser) : analyser :=
  {| class_name := class_name m; manalysers := manalysers m; eyes := eyes m;
     vector_rotation := vector_rotation m; pitch_rot := pitch_rot m; roll_rot := roll_rot m;
     yaw_rot := yaw_rot m; constant_points := Some v |}.

(** The attributes the plotting functions stash on a Matplotlib axes.  An
    attribute that was never set, or holds None, is [None] here, except for
    the three panel attributes, where [Some PNone] is an attribute that
    holds None. *)
Record axes_obj := {
  differencemap_colorbar : option axid;         (* [[cax, colorbar]]: the cax *)
  pupil_compare_errors : option (list float);
  pupil_compare_rotations : option (list pyval);
  pupil_compare_reverse_errors : option (list float);
  extra_illustrate_ax : option axid;
  illustrate_ax : option pyval;
  error_ax : option pyval;
  colorbar_ax : option pyval;
  cbox : bool                                   (* has a [cbox] attribute *)
}.

Definition new_axes_obj : axes_obj :=
  {| differencemap_colorbar := None; pupil_compare_errors := None;
     pupil_compare_rotations := None; pupil_compare_reverse_errors := None;
     extra_illustrate_ax := None; illustrate_ax := None; error_ax := None;
     colorbar_ax := None; cbox := false |}.

Definition set_differencemap_colorbar (v : option axid) (x : axes_obj) : axes_obj :=
  {| differencemap_colorbar := v; pupil_compare_errors := pupil_compare_errors x;
     pupil_compare_rotations := pupil_compare_rotations x;
     pupil_compare_reverse_errors := pupil_compare_reverse_errors x;
     extra_illustrate_ax := extra_illustrate_ax x; illustrate_ax := illustrate_ax x;
     error_ax := error_ax x; colorbar_ax := colorbar_ax x; cbox := cbox x |}.

Definition set_pupil_compare_errors (v : option (list float)) (x : axes_obj) : axes_obj :=
  {| differencemap_colorbar := differencemap_colorbar x; pupil_compare_errors := v;
     pupil_compare_rotations := pupil_compare_rotations x;
     pupil_compare_reverse_errors := pupil_compare_reverse_errors x;
     extra_illustrate_ax := extra_illustrate_ax x; illustrate_ax := illustrate_ax x;
     error_ax := error_ax x; colorbar_ax := colorbar_ax x; cbox := cbox x |}.

Definition set_pupil_compare_rotations (v : option (list pyval)) (x : axes_obj) : axes_obj :=
  {| differencemap_colorbar := differencemap_colorbar x;
     pupil_compare_errors := pupil_compare_errors x;
     pupil_compare_rotations := v;
     pupil_compare_reverse_errors := pupil_compare_reverse_errors x;
     extra_illustrate_ax := extra_illustrate_ax x; illustrate_ax := illustrate_ax x;
     error_ax := error_ax x; colorbar_ax := colorbar_ax x; cbox := cbox x |}.

Definition set_pupil_compare_reverse_errors (v : option (list float)) (x : axes_obj) : axes_obj :=
  {| differencemap_colorbar := differencemap_colorbar x;
     pupil_compare_errors := pupil_compare_errors x;
     pupil_compare_rotations := pupil_compare_rotations x;
     pupil_compare_reverse_errors := v;
     extra_illustrate_ax := extra_illustrate_ax x; illustrate_ax := illustrate_ax x;
     error_ax := error_ax x; colorbar_ax := colorbar_ax x; cbox := cbox x |}.

Definition set_extra_illustrate_ax (v : option axid) (x : axes_obj) : axes_obj :=
  {| differencemap_colorbar := differencemap_colorbar x;
     pupil_compare_errors := pupil_compare_errors x;
     pupil_compare_rotations := pupil_compare_rotations x;
     pupil_compare_reverse_errors := pupil_compare_reverse_errors x;
     extra_illustrate_ax := v; illustrate_ax := illustrate_ax x;
     error_ax := error_ax x; colorbar_ax := colorbar_ax x; cbox := cbox x |}.

Definition set_illustrate_ax (v : option pyval) (x : axes_obj) : axes_obj :=
  {| differencemap_colorbar := differencemap_colorbar x;
     pupil_compare_errors := pupil_compare_errors x;
     pupil_compare_rotations := pupil_compare_rotations x;
     pupil_compare_reverse_errors := pupil_compare_reverse_errors x;
     extra_illustrate_ax := extra_illustrate_ax x; illustrate_ax := v;
     error_ax := error_ax x; colorbar_ax := colorbar_ax x; cbox := cbox x |}.

Definition set_error_ax (v : option pyval) (x : axes_obj) : axes_obj :=
  {| differencemap_colorbar := differencemap_colorbar x;
     pupil_compare_errors := pupil_compare_errors x;
     pupil_compare_rotations := pupil_compare_rotations x;
     pupil_compare_reverse_errors := pupil_compare_reverse_errors x;
     extra_illustrate_ax := extra_illustrate_ax x; illustrate_ax := illustrate_ax x;
     error_ax := v; colorbar_ax := colorbar_ax x; cbox := cbox x |}.

Definition set_colorbar_ax (v : option pyval) (x : axes_obj) : axes_obj :=
  {| differencemap_colorbar := differencemap_colorbar x;
     pupil_compare_errors := pupil_compare_errors x;
     pupil_compare_rotations := pupil_compare_rotations x;
     pupil_compare_reverse_errors := pupil_compare_reverse_errors x;
     extra_illustrate_ax := extra_illustrate_ax x; illustrate_ax := illustrate_ax x;
     error_ax := error_ax x; colorbar_ax := v; cbox := cbox x |}.

Definition set_cbox (v : bool) (x : axes_obj) : axes_obj :=
  {| differencemap_colorbar := differencemap_colorbar x;
     pupil_compare_errors := pupil_compare_errors x;
     pupil_compare_rotations := pupil_compare_rotations x;
     pupil_compare_reverse_errors := pupil_compare_reverse_errors x;
     extra_illustrate_ax := extra_illustrate_ax x; illustrate_ax := illustrate_ax x;
     error_ax := error_ax x; colorbar_ax := colorbar_ax x; cbox := v |}.

(** ** Calls of the collaborators *)

(** [np.linspace(start, stop, num)], kept as the call it is: the azimuth
    samples handed to [surface_plot]. *)
Record linspace := np_linspace { start : float; stop : float; num : nat }.

(** [math.pi] *)
Definition math_pi : float := 0x1.921fb54442d18p+1%float.

(** What a run does to the outside, in order: the calls of the functions of
    this module ([Call], with the parameters as bound: a mark of where a
    call starts), of the analysers' [get_3d_vectors] (with the analyser's
    attributes at that moment), of [field_error] and of the drawing
    primitives. *)
Inductive event :=
| Call (f : string) (analysers : list aid) (params : pydict) (kwargs : pydict)
| get_3d_vectors_call (a : aid) (self : analyser) (eye : string)
    (correct_level repeats_separately strict vertical_hardborder : pyval)
| field_error_call (pointsA vectorsA pointsB vectorsB : list vec3) (colinear : pyval)
| add_rhabdomeres_call (ax : axid) (point vector : vec3) (mirror_lr : bool)
    (camerapos : pyval)
| add_line_call (ax : axid) (point vector : vec3) (camerapos : pyval) (color : string)
| vector_plot_call (ax : axid) (f : vectorfield) (color : string) (params : pydict)
| surface_plot_call (ax : axid) (points : list vec3) (errors : list float)
    (phi_points : linspace)
| colorbar_call (ax : axid) (cax : axid)
| Draw (f : string) (ax : axid) (args : list pyval).

(** ** The store *)

Record world := {
  analysers : aid → analyser;
  axes : gmap axid axes_obj;
  lists : gmap nat (list pyval);
  dicts : gmap nat pydict;
  default_arrow_rotations : list pyval;   (* of [plot_3d_vectormap] *)
  default_column_titles : list pyval;     (* of [compare_3d_vectormaps_manyviews] *)
  default_dicts : gmap string pydict      (* of [compare_3d_vectormaps] *)
}.

Definition with_analysers (f : aid → analyser) (w : world) : world :=
  {| analysers := f; axes := axes w; lists := lists w; dicts := dicts w;
     default_arrow_rotations := default_arrow_rotations w;
     default_column_titles := default_column_titles w;
     default_dicts := default_dicts w |}.

Definition with_axes (f : gmap axid axes_obj) (w : world) : world :=
  {| analysers := analysers w; axes := f; lists := lists w; dicts := dicts w;
     default_arrow_rotations := default_arrow_rotations w;
     default_column_titles := default_column_titles w;
     default_dicts := default_dicts w |}.

Definition with_lists (f : gmap nat (list pyval)) (w : world) : world :=
  {| analysers := analysers w; axes := axes w; lists := f; dicts := dicts w;
     default_arrow_rotations := default_arrow_rotations w;
     default_column_titles := default_column_titles w;
     default_dicts := default_dicts w |}.

Definition with_dicts (f : gmap nat pydict) (w : world) : world :=
  {| analysers := analysers w; axes := axes w; lists := lists w; dicts := f;
     default_arrow_rotations := default_arrow_rotations w;
     default_column_titles := default_column_titles w;
     default_dicts := default_dicts w |}.

Definition with_default_arrow_rotations (l : list pyval) (w : world) : world :=
  {| analysers := analysers w; axes := axes w; lists := lists w; dicts := dicts w;
     default_arrow_rotations := l;
     default_column_titles := default_column_titles w;
     default_dicts := default_dicts w |}.

Definition with_default_column_titles (l : list pyval) (w : world) : world :=
  {| analysers := analysers w; axes := axes w; lists := lists w; dicts := dicts w;
     default_arrow_rotations := default_arrow_rotations w;
     default_column_titles := l;
     default_dicts := default_dicts w |}.

Definition with_default_dicts (d : gmap string pydict) (w : world) : world :=
  {| analysers := analysers w; axes := axes w; lists := lists w; dicts := dicts w;
     default_arrow_rotations := default_arrow_rotations w;
     default_column_titles := default_column_titles w;
     default_dicts := d |}.

(** An axes nothing was stashed on yet reads as [new_axes_obj]; a default
    dict nothing was stored in yet is empty, as it is built. *)
Definition ax_obj (w : world) (a : axid) : axes_obj :=
  default new_axes_obj (axes w !! a).

Definition list_obj (w : world) (r : listref) : list pyval :=
  match r with
  | vectormap_default_rotations => default_arrow_rotations w
  | manyviews_default_titles => default_column_titles w
  | list_at l => default [] (lists w !! l)
  end.

Definition dict_obj (w : world) (r : dictref) : pydict :=
  match r with
  | compare_default param => default [] (default_dicts w !! param)
  | dict_at l => default [] (dicts w !! l)
  end.

(** ** The monad: state and exceptions *)

Inductive exn :=
| TypeError | ValueError | IndexError | KeyError | AttributeError | NameError
| CollaboratorError (who : string).   (* raised inside a collaborator *)

Inductive outcome (A : Type) :=
| Return (a : A)
| Raise (e : exn).
Arguments Return {A} a.
Arguments Raise {A} e.

(** What a computation did: the store it leaves, the events it emitted, in
    order, and either the value returned or the exception raised.  An
    exception keeps the store as it is at the raise: nothing is rolled
    back. *)
Record run (A : Type) := Run {
  final : world;
  emitted : list event;
  result : outcome A
}.
Arguments Run {A} final emitted result.
Arguments final {A} r.
Arguments emitted {A} r.
Arguments result {A} r.

(** A Python computation, from the store it starts in. *)
Definition M (A : Type) : Type := world → run A.

Definition ret {A} (a : A) : M A := λ w, Run w [] (Return a).
Definition bind {A B} (m : M A) (k : A → M B) : M B := λ w,
  match m w with
  | Run w' evs (Return a) =>
      let r := k a w' in Run (final r) (evs ++ emitted r) (result r)
  | Run w' evs (Raise e) => Run w' evs (Raise e)
  end.

Notation "'let*' x := m 'in' k" := (bind m (λ x, k))
  (at level 10, x pattern, m at level 100, k at level 200).
Notation "m ;; k" := (bind m (λ _, k))
  (at level 100, k at level 200, right associativity).

Definition raise {A} (e : exn) : M A := λ w, Run w [] (Raise e).
Definition read {A} (f : world → A) : M A := λ w, Run w [] (Return (f w)).
Definition modify (f : world → world) : M unit := λ w, Run (f w) [] (Return tt).
Definition emit (e : event) : M unit := λ w, Run w [e] (Return tt).

(** [for x in l: body x] *)
Fixpoint for_each {A} (l : list A) (body : A → M unit) : M unit :=
  match l with
  | [] => ret tt
  | x :: l' => body x ;; for_each l' body
  end.

(** A loop that updates a local variable: [for x in l: s = body s x]. *)
Fixpoint fold_each {A S} (l : list A) (s : S) (body : S → A → M S) : M S :=
  match l with
  | [] => ret s
  | x :: l' => let* s' := body s x in fold_each l' s' body
  end.

(** [enumerate(l)] *)
Definition enumerate {A} (l : list A) : list (nat * A) := imap pair l.

(** Attribute reads and writes. *)
Definition analyser_of (a : aid) : M analyser := read (λ w, analysers w a).
Definition update_analyser (a : aid) (f : analyser → analyser) : M unit :=
  modify (λ w, with_analysers (<[a := f (analysers w a)]> (analysers w)) w).
Definition axes_of (a : axid) : M axes_obj := read (λ w, ax_obj w a).
Definition update_axes (a : axid) (f : axes_obj → axes_obj) : M unit :=
  modify (λ w, with_axes (<[a := f (ax_obj w a)]> (axes w)) w).

(** A new axes ([fig.add_subplot], [fig.add_axes]). *)
Definition new_axes : M axid := λ w,
  let a := fresh (dom (axes w)) in
  Run (with_axes (<[a := new_axes_obj]> (axes w)) w) [] (Return a).

(** A new axes with the attributes of the axes [a] (a copy of it). *)
Definition copy_axes (a : axid) : M axid := λ w,
  let a' := fresh (dom (axes w)) in
  Run (with_axes (<[a' := ax_obj w a]> (axes w)) w) [] (Return a').

Definition set_list (r : listref) (l : list pyval) (w : world) : world :=
  match r with
  | vectormap_default_rotations => with_default_arrow_rotations l w
  | manyviews_default_titles => with_default_column_titles l w
  | list_at n => with_lists (<[n := l]> (lists w)) w
  end.

Definition read_list (r : listref) : M (list pyval) := read (λ w, list_obj w r).
Definition write_list (r : listref) (l : list pyval) : M unit := modify (set_list r l).
(** A new list object, [[v, ...]]. *)
Definition new_list (l : list pyval) : M listref := λ w,
  let n := fresh (dom (lists w)) in
  Run (with_lists (<[n := l]> (lists w)) w) [] (Return (list_at n)).

Definition set_dict (r : dictref) (d : pydict) (w : world) : world :=
  match r with
  | compare_default param => with_default_dicts (<[param := d]> (default_dicts w)) w
  | dict_at n => with_dicts (<[n := d]> (dicts w)) w
  end.

Definition read_dict (r : dictref) : M pydict := read (λ w, dict_obj w r).
Definition write_dict (r : dictref) (d : pydict) : M unit := modify (set_dict r d).
(** A new dict object, [{k: v, ...}]. *)
Definition new_dict (d : pydict) : M dictref := λ w,
  let n := fresh (dom (dicts w)) in
  Run (with_dicts (<[n := d]> (dicts w)) w) [] (Return (dict_at n)).

(** ** Operations on values *)

(** [a and b], where [b] is only evaluated when [a] holds. *)
Definition and_then (a : bool) (b : M bool) : M bool :=
  if a then b else ret false.

(** [a and b] for a first operand that is itself computed. *)
Definition and_then' (a : M bool) (b : M bool) : M bool :=
  let* x := a in and_then x b.

(** The characters of a string, each as a string. *)
Fixpoint chars (s : string) : list pyval :=
  match s with
  | EmptyString => []
  | String c s' => PStr (String c EmptyString) :: chars s'
  end.

(** [bool(v)] *)
Definition truthy (v : pyval) : M bool :=
  match v with
  | PNone => ret false
  | PBool b => ret b
  | PInt z => ret (negb (Z.eqb z 0))
  | PFloat f => ret (negb (PrimFloat.eqb f 0%float))
  | PStr s => ret (negb (String.eqb s ""))
  | PTuple vs => ret (negb (Nat.eqb (length vs) 0))
  | PList r => let* l := read_list r in ret (negb (Nat.eqb (length l) 0))
  | PDict r => let* d := read_dict r in ret (negb (Nat.eqb (length d) 0))
  | PAx _ => ret true
  end.

(** [len(v)] *)
Definition len (v : pyval) : M nat :=
  match v with
  | PStr s => ret (String.length s)
  | PTuple vs => ret (length vs)
  | PList r => let* l := read_list r in ret (length l)
  | PDict r => let* d := read_dict r in ret (length d)
  | _ => raise TypeError
  end.

(** [for x in v]: the elements iterated over. *)
Definition iter (v : pyval) : M (list pyval) :=
  match v with
  | PStr s => ret (chars s)
  | PTuple vs => ret vs
  | PList r => read_list r
  | PDict r => let* d := read_dict r in ret (PStr <$> dict_keys d)
  | _ => raise TypeError
  end.

(** [v[i]] for an index [i >= 0] *)
Definition getitem (v : pyval) (i : nat) : M pyval :=
  match v with
  | PStr _ | PTuple _ | PList _ =>
      let* l := iter v in
      match l !! i with Some x => ret x | None => raise IndexError end
  | PDict _ => raise KeyError
  | _ => raise TypeError
  end.

(** [v.append(x)] *)
Definition append (v : pyval) (x : pyval) : M unit :=
  match v with
  | PList r => let* l := read_list r in write_list r (l ++ [x])
  | _ => raise AttributeError
  end.

(** [a, b = v] *)
Definition unpack2 (v : pyval) : M (pyval * pyval) :=
  let* l := iter v in
  match l with
  | [a; b] => ret (a, b)
  | _ => raise ValueError
  end.

(** The axes a value is, for a call of one of its methods or of a drawing
    primitive on it. *)
Definition as_axes (v : pyval) : M axid :=
  match v with
  | PAx a => ret a
  | _ => raise AttributeError
  end.

(** A number as a float (exact for the integers of a double's mantissa). *)
Definition as_number (v : pyval) : option float :=
  match v with
  | PInt z => Some (float_of_Z z)
  | PBool b => Some (float_of_Z (Z.b2z b))
  | PFloat f => Some f
  | _ => None
  end.

(** [a < b]: numbers compare by value; any other pair met here raises. *)
Definition lt (a b : pyval) : M bool :=
  match a, b with
  | PInt x, PInt y => ret (Z.ltb x y)
  | _, _ =>
      match as_number a, as_number b with
      | Some x, Some y => ret (PrimFloat.ltb x y)
      | _, _ => raise TypeError
      end
  end.

(** ** Calls with keyword arguments *)

(** [f( **d1, **d2, ...)]: the keyword arguments of the call; a keyword given
    twice is a TypeError ([None]). *)
Fixpoint join_kwargs (ds : list pydict) : option pydict :=
  match ds with
  | [] => Some []
  | d :: ds' =>
      match join_kwargs ds' with
      | Some rest =>
          if forallb (λ k, negb (dict_has k rest)) (dict_keys d)
          then Some (d ++ rest) else None
      | None => None
      end
  end.

(** Binding the keyword arguments [given] of a call to the parameters of the
    function: [params] holds the named parameters with their defaults,
    [positional] the names already bound by position, [varkw] says whether
    the function has a catch-all [**kwargs].  Returns the parameters as
    bound and the catch-all; a keyword for a parameter bound by position, or
    an unknown keyword without catch-all, is a TypeError ([None]). *)
Fixpoint bind_params (positional : list string) (params rest : pydict)
    (varkw : bool) (given : pydict) : option (pydict * pydict) :=
  match given with
  | [] => Some (params, rest)
  | (k, v) :: given' =>
      if existsb (String.eqb k) positional then None
      else if dict_has k params
      then bind_params positional (dict_set k v params) rest varkw given'
      else if varkw
      then bind_params positional params (dict_set k v rest) varkw given'
      else None
  end.

(** The value of a parameter. *)
Definition arg (params : pydict) (name : string) : pyval :=
  dict_get_default name params.

(** ** Module constants *)

Definition EYE_COLORS : list (string * string) :=
  [("right", "blue"); ("left", "red")].
Definition REPEAT_COLORS : list string := ["green"; "orange"; "pink"].

Definition DEFAULT_ELEV : Z := 10.
Definition DEFAULT_AZIM : Z := 70.

(** The value of the local variable [colors]: the dict [EYE_COLORS], or a
    list of colours indexed by the rotation. *)
Inductive colors_value :=
| colors_dict (d : list (string * string))
| colors_list (l : list string).

(** ** The plotting functions *)

Section Plotting.

(** The collaborators, which are not part of this module.

    [get_3d_vectors a self eye correct_level repeats_separately strict
    vertical_hardborder] is the method of the analyser [a], whose attributes
    are [self] at the call; it reads the transform state ([vector_rotation],
    [pitch_rot], ...) and leaves the attributes as they are.  [None] is a
    call that raises.  [field_error] and [np_mean] are the functions of
    [pupilanalysis.drosom.optic_flow] and NumPy. *)
Variable get_3d_vectors :
  aid → analyser → string → pyval → pyval → pyval → pyval → option vectorfield.
Variable field_error :
  list vec3 → list vec3 → list vec3 → list vec3 → pyval → option (list float).
Variable np_mean : list float → float.

Definition call_get_3d_vectors (a : aid) (eye : string)
    (correct_level repeats_separately strict vertical_hardborder : pyval)
    : M vectorfield :=
  let* self := analyser_of a in
  emit (get_3d_vectors_call a self eye correct_level repeats_separately strict
          vertical_hardborder);;
  match get_3d_vectors a self eye correct_level repeats_separately strict
          vertical_hardborder with
  | Some f => ret f
  | None => raise (CollaboratorError "get_3d_vectors")
  end.

Definition call_field_error (pointsA vectorsA pointsB vectorsB : list vec3)
    (colinear : pyval) : M (list float) :=
  emit (field_error_call pointsA vectorsA pointsB vectorsB colinear);;
  match field_error pointsA vectorsA pointsB vectorsB colinear with
  | Some e => ret e
  | None => raise (CollaboratorError "field_error")
  end.

(** A drawing call on [ax]: a method of the axes, or a primitive of
    [.common] that is handed the axes. *)
Definition draw (f : string) (ax : pyval) (args : list pyval) : M unit :=
  let* a := as_axes ax in emit (Draw f a args).

(** *** [_set_analyser_attributes] (lines 176-188) *)

(** The object handed as [analyser]: an analyser, or (at the one call site)
    a dict literal. *)
Inductive attribute_owner :=
| owner_analyser (a : aid)
| owner_dict (d : pydict).

Definition dict_methods : list string :=
  ["clear"; "copy"; "fromkeys"; "get"; "items"; "keys"; "pop"; "popitem";
   "setdefault"; "update"; "values"].

Definition hasattr (o : attribute_owner) (name : string) : M bool :=
  match o with
  | owner_analyser a =>
      let* self := analyser_of a in
      ret (existsb (String.eqb name)
              (["eyes"; "vector_rotation"; "pitch_rot"; "roll_rot"; "yaw_rot";
                "get_3d_vectors"]
               ++ (if manalysers self is Some _ then ["manalysers"] else [])
               ++ (if constant_points self is Some _ then ["constant_points"] else [])))
  | owner_dict _ => ret (existsb (String.eqb name) dict_methods)
  end.

(** [setattr(o, name, value)], for the attributes that hold a plain value. *)
Definition setattr (o : attribute_owner) (name : string) (value : pyval) : M unit :=
  match o with
  | owner_analyser a =>
      if String.eqb name "vector_rotation" then update_analyser a (set_vector_rotation value)
      else if String.eqb name "pitch_rot" then update_analyser a (set_pitch_rot value)
      else if String.eqb name "roll_rot" then update_analyser a (set_roll_rot value)
      else if String.eqb name "yaw_rot" then update_analyser a (set_yaw_rot value)
      else if String.eqb name "constant_points" then update_analyser a (set_constant_points value)
      else raise AttributeError
  | owner_dict _ => raise AttributeError
  end.

(** The loop is [for key, value in kwargs]: iterating a dict yields its
    keys, and each key, a string, is unpacked into the two names, which
    takes a string of two characters.  The error branch names [anlayser],
    which is not defined: a NameError. *)
Definition _set_analyser_attributes (analyser : attribute_owner)
    (skip_none raise_errors : bool) (kwargs : pydict) : M unit :=
  for_each (dict_keys kwargs) (λ item,
    match item with
    | String key (String value EmptyString) =>
        let key := String key EmptyString in
        let value := PStr (String value EmptyString) in
        if negb (is_None value) || negb skip_none then
          let* has := hasattr analyser key in
          if has then setattr analyser key value
          else if raise_errors then raise NameError
          else ret tt
        else ret tt
    | _ => raise ValueError
    end).

(** *** [plot_3d_vectormap] (lines 191-331) *)

Definition plot_3d_vectormap_params : pydict :=
  [("arrow_rotations", PList vectormap_default_rotations);
   ("guidance", PBool false); ("draw_sphere", PBool false);
   ("hide_behind", PBool true); ("rhabdomeres", PBool true);
   ("elev", PNone); ("azim", PNone); ("color", PNone);
   ("repeats_separately", PBool false); ("vertical_hardborder", PBool true);
   ("i_frame", PInt 0);
   ("pitch_rot", PNone); ("roll_rot", PNone); ("yaw_rot", PNone);
   ("animation", PNone); ("animation_type", PNone); ("animation_variable", PNone);
   ("ax", PNone)].

(** Lines 216-229: the kind the analyser is drawn as, the colours and the
    frame index. *)
Definition vectormap_kind (self : analyser) (arrow_rotations animation_type i_frame : pyval)
    : M (string * colors_value * pyval) :=
  let* is_o := and_then (String.eqb (class_name self) "OAnalyser")
           (let* n := len arrow_rotations in
            and_then (Nat.eqb n 1)
              (let* r0 := getitem arrow_rotations 0 in ret (eq_int r0 0))) in
  if is_o then ret ("OAnalyser", colors_dict EYE_COLORS, i_frame)
  else if String.eqb (class_name self) "MAverager" then
    match manalysers self with
    | None => raise AttributeError
    | Some parts =>
        if forallb (λ part, String.eqb (part_class part) "OAnalyser") parts
        then ret ("OAnalyser", colors_dict EYE_COLORS, i_frame)
        else ret ("MAnalyser", colors_dict EYE_COLORS, i_frame)
    end
  else if String.eqb (class_name self) "FAnalyser" then
    ret ("MAnalyser", colors_list (replicate 5 "darkviolet"),
          if negb (eq_str animation_type "rotate_arrows") then PInt 0 else i_frame)
  else ret ("MAnalyser", colors_dict EYE_COLORS, i_frame).

(** Lines 286-289: [colors[eye]] or [colors[i_rotation]]. *)
Definition pick_color (colors : colors_value) (eye : string) (i_rotation : nat)
    : M string :=
  match colors with
  | colors_dict d =>
      match list_find (λ kv, kv.1 = eye) d with
      | Some (_, (_, c)) => ret c
      | None => raise KeyError
      end
  | colors_list l =>
      match l !! i_rotation with
      | Some c => ret c
      | None => raise IndexError
      end
  end.

(** [vectors[eye] = vectors_3d] *)
Fixpoint set_vectors (eye : string) (f : vectorfield)
    (vectors : list (string * vectorfield)) : list (string * vectorfield) :=
  match vectors with
  | [] => [(eye, f)]
  | (e, g) :: vectors' =>
      if String.eqb eye e then (eye, f) :: vectors'
      else (e, g) :: set_vectors eye f vectors'
  end.

Definition plot_3d_vectormap (manalyser : aid) (given : pydict)
    : M (axid * list (string * vectorfield)) :=
  match bind_params ["manalyser"] plot_3d_vectormap_params [] true given with
  | None => raise TypeError
  | Some (p, kwargs) =>
    emit (Call "plot_3d_vectormap" [manalyser] p kwargs);;
    let arrow_rotations := arg p "arrow_rotations" in
    let animation_type := arg p "animation_type" in
    let repeats_separately := arg p "repeats_separately" in
    let vertical_hardborder := arg p "vertical_hardborder" in
    let* self := analyser_of manalyser in
    let* (manalyser_type, colors, i_frame) :=
      vectormap_kind self arrow_rotations animation_type (arg p "i_frame") in
    (* line 231: the dict is the first argument, no keyword is given *)
    _set_analyser_attributes
      (owner_dict [("pitch_rot", arg p "pitch_rot"); ("roll_rot", arg p "roll_rot");
                   ("yaw_rot", arg p "yaw_rot")]) true false [];;
    let is_o := String.eqb manalyser_type "OAnalyser" in
    let colors := if is_o then colors_list REPEAT_COLORS else colors in
    let i_frame := if is_o then PInt 0 else i_frame in
    (if is_o then
       (* lines 241-242 *)
       let* r0 := getitem arrow_rotations 0 in
       let* single_zero :=
         and_then (eq_int r0 0)
           (let* n := len arrow_rotations in ret (Nat.eqb n 1)) in
       if single_zero then append arrow_rotations (PInt 29) else ret tt
     else ret tt);;
    let* ax :=
      (if is_None (arg p "ax") then let* a := new_axes in ret (PAx a)
       else ret (arg p "ax")) in
    let* self := analyser_of manalyser in
    let original_rotation := vector_rotation self in
    let* (elev, azim) :=
      (if eq_str animation_type "rotate_plot"
       then unpack2 (arg p "animation_variable")
       else ret (arg p "elev", arg p "azim")) in
    let* hide_behind := truthy (arg p "hide_behind") in
    let camerapos :=
      if hide_behind && negb (is_None azim) && negb (is_None elev)
      then PTuple [elev; azim] else PBool false in
    (* lines 262-279 *)
    let* with_rhabdomeres := and_then is_o (truthy (arg p "rhabdomeres")) in
    (if with_rhabdomeres then
       update_analyser manalyser (set_vector_rotation (PInt 0));;
       let* self := analyser_of manalyser in
       for_each (eyes self) (λ eye,
         let* vectors_3d :=
           call_get_3d_vectors manalyser eye (PBool true) repeats_separately
             (PBool true) vertical_hardborder in
         let mirror_lr := String.eqb eye "left" in
         for_each (zip vectors_3d.1 vectors_3d.2) (λ pv,
           let* a := as_axes ax in
           emit (add_rhabdomeres_call a pv.1 pv.2 mirror_lr camerapos)))
     else ret tt);;
    (* lines 283-312 *)
    let* rotations := iter arrow_rotations in
    let* vectors :=
      fold_each (enumerate rotations) [] (λ vectors '(i_rotation, rotation),
        let* self := analyser_of manalyser in
        fold_each (eyes self) vectors (λ vectors eye,
          let* colr := pick_color colors eye i_rotation in
          (if negb (is_None rotation) || negb (eq_int rotation 0)
           then update_analyser manalyser (set_vector_rotation rotation)
           else ret tt);;
          let* vectors_3d :=
            call_get_3d_vectors manalyser eye (PBool true) repeats_separately
              (PBool true) vertical_hardborder in
          let* with_rhabdomeres := and_then is_o (truthy (arg p "rhabdomeres")) in
          (if with_rhabdomeres then
             for_each (zip vectors_3d.1 vectors_3d.2) (λ pv,
               match REPEAT_COLORS !! i_rotation with
               | Some c =>
                   let* a := as_axes ax in
                   emit (add_line_call a pv.1 pv.2 camerapos c)
               | None => raise IndexError
               end)
           else
             match join_kwargs
                     [[("color", PStr colr); ("guidance", arg p "guidance");
                       ("draw_sphere", arg p "draw_sphere");
                       ("camerapos", camerapos); ("i_pulsframe", i_frame)];
                      kwargs] with
             | Some params =>
                 let* a := as_axes ax in
                 emit (vector_plot_call a vectors_3d colr params)
             | None => raise TypeError
             end);;
          ret (set_vectors eye vectors_3d vectors))) in
    update_analyser manalyser (set_vector_rotation original_rotation);;
    draw "set_xlim3d" ax [PInt (-1); PInt 1];;
    draw "set_ylim3d" ax [PInt (-1); PInt 1];;
    draw "set_zlim3d" ax [PInt (-1); PInt 1];;
    draw "set_box_aspect" ax [PInt 1; PInt 1; PInt 1];;
    draw "set_xlabel" ax [PStr "x"];;
    draw "set_ylabel" ax [PStr "y"];;
    draw "set_zlabel" ax [PStr "z"];;
    (if is_None azim && is_None elev
     then draw "view_init" ax [PInt DEFAULT_ELEV; PInt DEFAULT_AZIM]
     else draw "view_init" ax [elev; azim]);;
    let* a := as_axes ax in
    ret (a, vectors)
  end.

(** *** [plot_3d_differencemap] (lines 334-469) *)

(** The defaults [colorbar_text_positions] and [arrow_rotations = [0]] are
    lists built once; the function only indexes them and hands them to no
    one, so they are kept as the tuples of their elements. *)
Definition plot_3d_differencemap_params : pydict :=
  [("ax", PNone); ("elev", PInt DEFAULT_ELEV); ("azim", PInt DEFAULT_AZIM);
   ("colinear", PBool true); ("colorbar", PBool true);
   ("colorbar_text", PBool true); ("colorbar_ax", PNone);
   ("reverse_errors", PBool false);
   ("colorbar_text_positions",
    PTuple [PTuple [PFloat 1.1; PFloat 0.95; PStr "left"; PStr "top"];
          PTuple [PFloat 1.1; PFloat 0.5; PStr "left"; PStr "center"];
          PTuple [PFloat 1.1; PFloat 0.05; PStr "left"; PStr "bottom"]]);
   ("i_frame", PInt 0); ("arrow_rotations", PTuple [PInt 0]);
   ("pitch_rot", PNone); ("yaw_rot", PNone); ("roll_rot", PNone)].

(** [1 - errors] on an array *)
Definition one_minus (errors : list float) : list float :=
  (λ e, 1 - e)%float <$> errors.

(** Lines 405-408: the azimuth samples of the surfaces drawn for an eye. *)
Definition all_phi_points (eye : string) : list linspace :=
  if String.eqb eye "left"
  then [np_linspace (math_pi / 2) (3 * math_pi / 2) 50]
  else [np_linspace 0 (math_pi / 2) 25;
        np_linspace (3 * math_pi / 2) (2 * math_pi) 25].

(** Lines 384-411: the body of the loop over the eyes; [all_errors] is the
    list the per-eye error arrays are appended to. *)
Definition differencemap_eye (manalyser1 manalyser2 : aid) (ax : pyval)
    (colinear reverse_errors : pyval) (all_errors : list (list float))
    (eye : string) : M (list (list float)) :=
  let* fields :=
    fold_each [manalyser1; manalyser2] [] (λ fields manalyser,
      let* vectors_3d :=
        call_get_3d_vectors manalyser eye (PBool true) (PBool false)
          (PBool true) (PBool true) in
      ret (fields ++ [vectors_3d])) in
  match fields with
  | [(points0, vectors0); (points1, vectors1)] =>
      let* errors := call_field_error points0 vectors0 points1 vectors1 colinear in
      let* reverse := truthy reverse_errors in
      let errors := if reverse then one_minus errors else errors in
      for_each (all_phi_points eye) (λ phi_points,
        let* a := as_axes ax in
        emit (surface_plot_call a points0 errors phi_points));;
      ret (all_errors ++ [errors])
  | _ => raise IndexError
  end.

(** [np.concatenate(arrays)]: needs at least one array. *)
Definition np_concatenate (arrays : list (list float)) : M (list float) :=
  match arrays with
  | [] => raise ValueError
  | _ => ret (concat arrays)
  end.

(** One of the annotations of the colorbar:
    [cax.text(positions[i][0], positions[i][1], label, ha=positions[i][2],
    va=positions[i][3], transform=cax.transAxes)]. *)
Definition colorbar_text (cax : pyval) (positions : pyval) (i : nat)
    (label : string) : M unit :=
  let* row := getitem positions i in let* x := getitem row 0 in
  let* row := getitem positions i in let* y := getitem row 1 in
  let* row := getitem positions i in let* ha := getitem row 2 in
  let* row := getitem positions i in let* va := getitem row 3 in
  draw "text" cax [x; y; PStr label; ha; va].

(** Lines 418-459: the colorbar, attached when asked for and when the axes
    does not carry the marker [differencemap_colorbar] yet. *)
Definition differencemap_colorbar_block (ax : pyval) (p : pydict) : M unit :=
  let* wanted :=
    and_then' (truthy (arg p "colorbar"))
      (let* a := as_axes ax in
       let* o := axes_of a in
       ret (if differencemap_colorbar o is None then true else false)) in
  if wanted then
    let* cax :=
      (if is_None (arg p "colorbar_ax") then
         draw "get_position" ax [];;
         let* c := new_axes in ret (PAx c)
       else ret (arg p "colorbar_ax")) in
    let* a := as_axes ax in
    let* c := as_axes cax in
    emit (colorbar_call a c);;
    update_axes a (set_differencemap_colorbar (Some c));;
    let* with_text := truthy (arg p "colorbar_text") in
    if with_text then
      let* o := axes_of a in
      let cax := match differencemap_colorbar o with
                 | Some c => PAx c
                 | None => PNone
                 end in
      let* colinear := truthy (arg p "colinear") in
      (if colinear then
         colorbar_text cax (arg p "colorbar_text_positions") 0 "Collinear";;
         colorbar_text cax (arg p "colorbar_text_positions") 2 "Perpendicular"
       else
         colorbar_text cax (arg p "colorbar_text_positions") 0 "Matching";;
         colorbar_text cax (arg p "colorbar_text_positions") 1 "Perpendicular";;
         colorbar_text cax (arg p "colorbar_text_positions") 2 "Opposing");;
      draw "set_axis_off" cax []
    else ret tt
  else ret tt.

Definition plot_3d_differencemap (manalyser1 manalyser2 : aid) (given : pydict)
    : M (axid * list float) :=
  match bind_params ["manalyser1"; "manalyser2"] plot_3d_differencemap_params []
          false given with
  | None => raise TypeError
  | Some (p, _) =>
    emit (Call "plot_3d_differencemap" [manalyser1; manalyser2] p []);;
    let arrow_rotations := arg p "arrow_rotations" in
    let* ax :=
      (if is_None (arg p "ax") then
         let* a := new_axes in
         draw "set_xlabel" (PAx a) [PStr "x"];;
         draw "set_ylabel" (PAx a) [PStr "y"];;
         draw "set_zlabel" (PAx a) [PStr "z"];;
         ret (PAx a)
       else ret (arg p "ax")) in
    (* lines 371-373 *)
    let* override := truthy arrow_rotations in
    let* original_rotation :=
      (if override then
         let* self := analyser_of manalyser2 in
         let* r0 := getitem arrow_rotations 0 in
         update_analyser manalyser2 (set_vector_rotation r0);;
         ret (Some (vector_rotation self))
       else ret None) in
    (* lines 375-380 *)
    (if negb (is_None (arg p "pitch_rot"))
     then update_analyser manalyser2 (set_pitch_rot (arg p "pitch_rot")) else ret tt);;
    (if negb (is_None (arg p "yaw_rot"))
     then update_analyser manalyser2 (set_yaw_rot (arg p "yaw_rot")) else ret tt);;
    (if negb (is_None (arg p "roll_rot"))
     then update_analyser manalyser2 (set_roll_rot (arg p "roll_rot")) else ret tt);;
    let* self1 := analyser_of manalyser1 in
    let* all_errors :=
      fold_each (eyes self1) []
        (differencemap_eye manalyser1 manalyser2 ax (arg p "colinear")
           (arg p "reverse_errors")) in
    let* errors := np_concatenate all_errors in
    draw "view_init" ax [arg p "elev"; arg p "azim"];;
    differencemap_colorbar_block ax p;;
    (* lines 461-462 *)
    let* override := truthy arrow_rotations in
    (if override then
       match original_rotation with
       | Some r => update_analyser manalyser2 (set_vector_rotation r)
       | None => raise NameError
       end
     else ret tt);;
    draw "set_xlim3d" ax [PInt (-1); PInt 1];;
    draw "set_ylim3d" ax [PInt (-1); PInt 1];;
    draw "set_zlim3d" ax [PInt (-1); PInt 1];;
    draw "set_box_aspect" ax [PInt 1; PInt 1; PInt 1];;
    let* a := as_axes ax in
    ret (a, errors)
  end.

(** *** [compare_3d_vectormaps] (lines 472-782) *)

Definition compare_3d_vectormaps_params : pydict :=
  [("axes", PNone); ("illustrate", PBool true); ("total_error", PBool true);
   ("compact", PBool false);
   ("animation", PNone); ("animation_type", PNone); ("animation_variable", PNone);
   ("optimal_ranges", PNone); ("pulsation_length", PInt 1); ("biphasic", PBool false);
   ("kwargs1", PDict (compare_default "kwargs1"));
   ("kwargs2", PDict (compare_default "kwargs2"));
   ("kwargsD", PDict (compare_default "kwargsD"))].

(** [d[k] = v] on a value that is to be a dict *)
Definition setitem (d : pyval) (k : string) (v : pyval) : M unit :=
  match d with
  | PDict r => let* old := read_dict r in write_dict r (dict_set k v old)
  | _ => raise TypeError
  end.

(** The items of a value used as [**d] (a TypeError when it is no dict) or
    copied with [d.copy()] (an AttributeError then). *)
Definition mapping (d : pyval) (otherwise : exn) : M pydict :=
  match d with
  | PDict r => read_dict r
  | _ => raise otherwise
  end.

(** [manalyser.manalysers[0]] *)
Definition first_part (a : aid) : M partanalyser :=
  let* self := analyser_of a in
  match manalysers self with
  | None => raise AttributeError
  | Some [] => raise IndexError
  | Some (part :: _) => ret part
  end.

(** A value used in arithmetic or as an angle. *)
Definition number (v : pyval) : M float :=
  match as_number v with
  | Some f => ret f
  | None => raise TypeError
  end.

(** [lo < v < hi] *)
Definition between (lo v hi : pyval) : M bool :=
  and_then' (lt lo v) (lt v hi).

(** [np.min(v)] and [np.max(v)] of a sequence of numbers or of a number. *)
Definition np_min_max (v : pyval) : M (float * float) :=
  let* elements :=
    match v with
    | PTuple _ | PList _ => iter v
    | _ => ret [v]
    end in
  let* numbers :=
    fold_each elements [] (λ acc x, let* f := number x in ret (acc ++ [f])) in
  match numbers with
  | [] => raise ValueError
  | f :: fs =>
      ret (foldr (λ x m, if PrimFloat.ltb x m then x else m) f fs,
           foldr (λ x m, if PrimFloat.ltb m x then x else m) f fs)
  end.

(** Lines 589-593 and 670-679: is the animation variable inside one of the
    optimal ranges.  With [mark], the panel is flagged as well. *)
Definition in_optimal_ranges (optimal_ranges animation_variable : pyval)
    (mark : option pyval) : M bool :=
  let* given := truthy optimal_ranges in
  if given then
    let* ranges := iter optimal_ranges in
    fold_each ranges false (λ optimal optimal_range,
      let* lo := getitem optimal_range 0 in
      let* inside :=
        and_then' (lt lo animation_variable)
          (let* hi := getitem optimal_range 1 in lt animation_variable hi) in
      if inside then
        match mark with
        | Some ax =>
            draw "add_patch" ax [];;
            let* label := getitem optimal_range 2 in
            draw "text" ax [label];;
            ret true
        | None => ret true
        end
      else ret optimal)
  else ret false.

(** Lines 586-710: the illustration panel.  The images, their geometry and
    the styling are left out; the values the drawing depends on are checked
    where the code computes with them. *)
Definition compare_illustration (manalyser1 manalyser2 : aid) (axes : pyval)
    (iax : nat) (p : pydict) : M bool :=
  let animation_type := arg p "animation_type" in
  let animation_variable := arg p "animation_variable" in
  let optimal_ranges := arg p "optimal_ranges" in
  let* optimal := in_optimal_ranges optimal_ranges animation_variable None in
  let* ax := getitem axes iax in
  (if eq_str animation_type "rotate_arrows" then
     number animation_variable;;
     let* range0 := getitem optimal_ranges 0 in
     let* bounds := iter range0 in
     for_each (take 2 bounds) (λ b, number b;; ret tt);;
     let* part1 := first_part manalyser1 in
     (if String.eqb (part_class part1) "MAnalyser"
      then number (arg p "pulsation_length");; ret tt else ret tt);;
     draw "imshow" ax [];;
     let* part1 := first_part manalyser1 in
     (if String.eqb (part_class part1) "FAnalyser"
      then draw "axline" ax [] else ret tt);;
     draw "axline" ax [];;
     for_each (seq 1 7) (λ i, draw "text" ax [PStr "R"; PInt (Z.of_nat i)])
   else if eq_str animation_type "pitch_rot" then
     number animation_variable;;
     draw "imshow" ax [animation_variable];;
     draw "plot_2d_opticflow" ax [PStr "side"]
   else if eq_str animation_type "yaw_rot" then
     number animation_variable;;
     draw "imshow" ax [animation_variable];;
     draw "plot_2d_opticflow" ax [PStr "side"]
   else if eq_str animation_type "roll_rot" then
     number animation_variable;;
     draw "imshow" ax [animation_variable];;
     draw "plot_2d_opticflow" ax [PStr "outofplane"]
   else ret tt);;
  let* marked := in_optimal_ranges optimal_ranges animation_variable (Some ax) in
  let optimal := optimal || marked in
  let* part1 := first_part manalyser1 in
  let* flow_vs_rhabdomeres :=
    and_then (String.eqb (part_class part1) "FAnalyser")
      (let* part2 := first_part manalyser2 in
       ret (String.eqb (part_class part2) "OAnalyser")) in
  (if flow_vs_rhabdomeres then
     let* ax0 := getitem axes 0 in
     let* a0 := as_axes ax0 in
     let* o := axes_of a0 in
     let* extra :=
       match extra_illustrate_ax o with
       | None =>
           let* tmp_ax := new_axes in
           draw "set_axis_off" (PAx tmp_ax) [];;
           draw "get_position" (PAx tmp_ax) [];;
           let* extra := new_axes in
           update_axes a0 (set_extra_illustrate_ax (Some extra));;
           draw "set_frame_on" (PAx extra) [PBool false];;
           draw "set_axis_off" (PAx extra) [];;
           ret extra
       | Some extra =>
           draw "clear" (PAx extra) [];;
           draw "set_axis_off" (PAx extra) [];;
           draw "set_frame_on" (PAx extra) [PBool false];;
           ret extra
       end in
     let* self1 := analyser_of manalyser1 in
     number (pitch_rot self1);;
     draw "imshow" (PAx extra) [pitch_rot self1];;
     draw "add_patch" (PAx extra) [];;
     number (arg p "pulsation_length");;
     for_each (seq 1 9) (λ i, draw "arrow" (PAx extra) [PInt (Z.of_nat i)])
   else ret tt);;
  ret optimal.

(** Lines 713-779: the total-error panel.  [errors] and [reverse_errors]
    are the fields the difference maps returned. *)
Definition compare_total_error (axes : pyval) (iax : nat) (p : pydict)
    (optimal : bool) (errors : list float) (reverse_errors : option (list float))
    : M unit :=
  let animation := arg p "animation" in
  let animation_variable := arg p "animation_variable" in
  let* ax := getitem axes iax in
  let* a := as_axes ax in
  let* o := axes_of a in
  (if pupil_compare_errors o is None then
     update_axes a (set_pupil_compare_errors (Some []));;
     update_axes a (set_pupil_compare_rotations (Some []))
   else ret tt);;
  (* lines 723-724 *)
  let* o := axes_of a in
  let recorded := default [] (pupil_compare_errors o) in
  update_axes a (set_pupil_compare_errors (Some (recorded ++ [np_mean errors])));;
  let* o := axes_of a in
  match pupil_compare_rotations o with
  | None => raise AttributeError
  | Some rotations =>
      update_axes a (set_pupil_compare_rotations (Some (rotations ++ [animation_variable])))
  end;;
  (* lines 726-728: x and y of a line must be as long *)
  let* o := axes_of a in
  let rotations := default [] (pupil_compare_rotations o) in
  let recorded := default [] (pupil_compare_errors o) in
  (if Nat.eqb (length rotations) (length recorded)
   then draw "plot" ax [PTuple rotations; PTuple (PFloat <$> one_minus recorded);
                        PStr "Fast phase"]
   else raise ValueError);;
  draw "scatter" ax [List.last rotations PNone;
                     List.last (PFloat <$> one_minus recorded) PNone];;
  draw "set_xlabel" ax [PStr "Degrees"];;
  draw "set_ylabel" ax [PStr "Mean error"];;
  (* lines 741-744 *)
  (if negb (is_None animation) then
     let* (lo, hi) := np_min_max animation in
     draw "set_xlim" ax [PFloat lo; PFloat hi];;
     draw "set_ylim" ax [PInt 0; PInt 1];;
     draw "set_yticks" ax [PInt 0; PFloat 0.5; PInt 1]
   else ret tt);;
  (* lines 746-760 *)
  (if negb (is_None animation_variable) then
     match animation_variable with
     | PStr _ => raise ValueError
     | _ => number animation_variable;; ret tt
     end;;
     draw "text" ax [PBool optimal; arg p "animation_type"; animation_variable]
   else ret tt);;
  (* lines 762-767: [np.min(None) < -100] is a TypeError *)
  (if is_None animation then raise TypeError
   else
     let* (lo, hi) := np_min_max animation in
     if PrimFloat.ltb lo (-100)%float && PrimFloat.ltb 100%float hi
     then draw "set_xticks" ax [PInt (-90); PInt 0; PInt 90]
     else draw "set_xticks" ax [PInt (-45); PInt 0; PInt 45]);;
  (* lines 769-779 *)
  let* biphasic := truthy (arg p "biphasic") in
  if biphasic then
    let* o := axes_of a in
    (if pupil_compare_reverse_errors o is None
     then update_axes a (set_pupil_compare_reverse_errors (Some []))
     else ret tt);;
    let* o := axes_of a in
    let reversed := default [] (pupil_compare_reverse_errors o) in
    match reverse_errors with
    | None => raise NameError
    | Some reverse_errors =>
        update_axes a (set_pupil_compare_reverse_errors
                         (Some (reversed ++ [np_mean reverse_errors])))
    end;;
    let* o := axes_of a in
    let rotations := default [] (pupil_compare_rotations o) in
    let reversed := default [] (pupil_compare_reverse_errors o) in
    (if Nat.eqb (length rotations) (length reversed)
     then draw "plot" ax [PTuple rotations; PTuple (PFloat <$> one_minus reversed);
                          PStr "Slower phase"]
     else raise ValueError);;
    draw "scatter" ax [List.last rotations PNone;
                       List.last (PFloat <$> one_minus reversed) PNone];;
    draw "legend" ax []
  else ret tt.

(** Lines 510-527: the axes created when none are given. *)
Definition compare_new_axes (p : pydict) : M pyval :=
  let* compact := truthy (arg p "compact") in
  let* total_error := truthy (arg p "total_error") in
  let* illustrate := truthy (arg p "illustrate") in
  let N_plots :=
    (3 - (if compact then 1 else 0) + (if total_error then 1 else 0)
     + (if illustrate then 1 else 0))%nat in
  let* axes :=
    fold_each (seq 0 N_plots) [] (λ axes _,
      let* a := new_axes in ret (axes ++ [PAx a])) in
  let* r := new_list axes in
  ret (PList r).

(** Lines 552-560: an averager of flow analysers is given a pitch of 10
    degrees, unless the pitch is what is animated. *)
Definition compare_flow_pitch (manalyser1 manalyser2 : aid) (animation_type : pyval)
    (kwargs1 kwargs2 : pydict) : M (pydict * pydict) :=
  fold_each [manalyser1; manalyser2] (kwargs1, kwargs2) (λ '(kwargs1, kwargs2) manalyser,
    let* part := first_part manalyser in
    if String.eqb (part_class part) "FAnalyser"
       && negb (eq_str animation_type "pitch_rot") then
      let kwargs1 :=
        if Nat.eqb manalyser manalyser1
        then dict_set "pitch_rot" (PInt 10) kwargs1 else kwargs1 in
      let kwargs2 :=
        if Nat.eqb manalyser manalyser2
        then dict_set "pitch_rot" (PInt 10) kwargs2 else kwargs2 in
      update_analyser manalyser (set_pitch_rot (PInt 10));;
      ret (kwargs1, kwargs2)
    else ret (kwargs1, kwargs2)).

(** A call [f(..., **d1, **d2)] of one of the two renderers from the
    orchestrator: the keywords are put together first. *)
Definition call_with {A} (f : pydict → M A) (ds : list pydict) : M A :=
  match join_kwargs ds with
  | Some given => f given
  | None => raise TypeError
  end.

Definition compare_3d_vectormaps (manalyser1 manalyser2 : aid) (given : pydict)
    : M pyval :=
  match bind_params ["manalyser1"; "manalyser2"] compare_3d_vectormaps_params []
          true given with
  | None => raise TypeError
  | Some (p, kwargs) =>
    emit (Call "compare_3d_vectormaps" [manalyser1; manalyser2] p kwargs);;
    let kwargs1 := arg p "kwargs1" in
    let kwargs2 := arg p "kwargs2" in
    let kwargsD := arg p "kwargsD" in
    let animation_type := arg p "animation_type" in
    let animation_variable := arg p "animation_variable" in
    let* axes :=
      (if is_None (arg p "axes") then compare_new_axes p else ret (arg p "axes")) in
    (* lines 531-532 *)
    let kwargs1 := dict_copy kwargs in
    let kwargs2 := dict_copy kwargs in
    (* lines 534-550 *)
    let* (kwargs1, kwargs2) :=
      (if eq_str animation_type "rotate_arrows" then
         let* rotations := new_list [animation_variable] in
         let kwargs2 := dict_set "arrow_rotations" (PList rotations) kwargs2 in
         (* the new list of lists is kept as the tuple of its rows *)
         setitem kwargsD "colorbar_text_positions"
           (PTuple [PTuple [PFloat 0.5; PFloat 1.03; PStr "center"; PStr "bottom"];
                  PTuple [PFloat 1.1; PFloat 0.5; PStr "left"; PStr "center"];
                  PTuple [PFloat 0.5; PFloat (-0.03); PStr "center"; PStr "top"]]);;
         let* self1 := analyser_of manalyser1 in
         (if String.eqb (class_name self1) "FAnalyser"
          then update_analyser manalyser1 (set_constant_points (PBool true))
          else ret tt);;
         ret (kwargs1, kwargs2)
       else if eq_str animation_type "pitch_rot" || eq_str animation_type "roll_rot"
               || eq_str animation_type "yaw_rot" then
         let kwargs2 :=
           match animation_type with
           | PStr name => dict_set name animation_variable kwargs2
           | _ => kwargs2
           end in
         setitem kwargsD "colinear" (PBool false);;
         ret (kwargs1, kwargs2)
       else if eq_str animation_type "rotate_plot" then
         let* elev := getitem animation_variable 0 in
         let kwargs1 := dict_set "elev" elev kwargs1 in
         let* azim := getitem animation_variable 1 in
         let kwargs1 := dict_set "azim" azim kwargs1 in
         let* elev := getitem animation_variable 0 in
         let kwargs2 := dict_set "elev" elev kwargs2 in
         let* azim := getitem animation_variable 1 in
         let kwargs2 := dict_set "azim" azim kwargs2 in
         ret (kwargs1, kwargs2)
       else ret (kwargs1, kwargs2)) in
    let* (kwargs1, kwargs2) :=
      compare_flow_pitch manalyser1 manalyser2 animation_type kwargs1 kwargs2 in
    (* lines 562-563 *)
    let* self2 := analyser_of manalyser2 in
    let* no_arrows :=
      and_then (String.eqb (class_name self2) "MAverage")
        (let* part := first_part manalyser2 in
         ret (String.eqb (part_class part) "OAnalyser")) in
    let kwargs2 := if no_arrows then dict_set "arrows" (PBool false) kwargs2 else kwargs2 in
    (* lines 565-570 *)
    let iax := 0%nat in
    let* ax := getitem axes iax in
    call_with (plot_3d_vectormap manalyser1)
      [[("animation_type", animation_type); ("ax", ax)]; kwargs1];;
    let* compact := truthy (arg p "compact") in
    let iax := if negb compact then S iax else iax in
    let* ax := getitem axes iax in
    call_with (plot_3d_vectormap manalyser2)
      [[("animation_type", animation_type); ("ax", ax)]; kwargs2];;
    (* lines 573-579 *)
    let* biphasic := truthy (arg p "biphasic") in
    let* (iax, reverse_errors) :=
      (if biphasic then
         let iax := S iax in
         let* kwargsDr := mapping kwargsD AttributeError in
         let kwargsDr := dict_set "colorbar" (PBool false) kwargsDr in
         let* ax := getitem axes iax in
         let* (_, reverse_errors) :=
           call_with (plot_3d_differencemap manalyser1 manalyser2)
             [[("ax", ax); ("reverse_errors", PBool true)]; kwargsDr; kwargs2] in
         ret (iax, Some reverse_errors)
       else ret (iax, None)) in
    (* lines 582-584 *)
    let iax := S iax in
    let* ax := getitem axes iax in
    let* kwargsD_items := mapping kwargsD TypeError in
    let* (_, errors) :=
      call_with (plot_3d_differencemap manalyser1 manalyser2)
        [[("ax", ax)]; kwargsD_items; kwargs2] in
    (* lines 586-710 *)
    let* illustrate := truthy (arg p "illustrate") in
    let* (iax, optimal) :=
      (if illustrate then
         let* optimal := compare_illustration manalyser1 manalyser2 axes (S iax) p in
         ret (S iax, optimal)
       else ret (iax, false)) in
    (* lines 713-779 *)
    let* total_error := truthy (arg p "total_error") in
    (if total_error
     then compare_total_error axes (S iax) p optimal errors reverse_errors
     else ret tt);;
    let* r := new_list [axes] in
    ret (PList r)
  end.

(** *** [compare_3d_vectormaps_compact] (lines 786-791) *)

(** The positional arguments [*args] are the two analysers. *)
Definition compare_3d_vectormaps_compact (manalyser1 manalyser2 : aid)
    (kwargs : pydict) : M pyval :=
  call_with (compare_3d_vectormaps manalyser1 manalyser2)
    [[("compact", PBool true); ("total_error", PBool false);
      ("illustrate", PBool false)]; kwargs].

(** *** [compare_3d_vectormaps_manyviews] (lines 795-940) *)

(** The line break of a Python string. *)
Definition nl : string := String "010"%char EmptyString.

(** The default [row_titles] is a list built once that is only read. *)
Definition manyviews_params : pydict :=
  [("axes", PNone);
   ("column_titles", PList manyviews_default_titles);
   ("row_titles", PTuple [PStr ("Dorsal" +:+ nl +:+ "view"); PStr ("Anterior" +:+ nl +:+ "view");
                          PStr ("Ventral" +:+ nl +:+ "view")])].

(** The list the default [column_titles] is built as. *)
Definition initial_column_titles : list pyval :=
  [PStr "Microsaccades"; PStr "Rhabdomere orientation"; PStr "Difference";
   PStr "Mean microsaccade"].

Definition views : list (Z * Z) := [(50, 90); (0, 90); (-50, 90)].

(** [l.insert(i, x)] *)
Definition list_insert (v : pyval) (i : nat) (x : pyval) : M unit :=
  match v with
  | PList r => let* l := read_list r in write_list r (take i l ++ x :: drop i l)
  | _ => raise AttributeError
  end.

(** [l[i] = x] for an index [i >= 0] *)
Definition setitem_at (v : pyval) (i : nat) (x : pyval) : M unit :=
  match v with
  | PList r =>
      let* l := read_list r in
      if decide (i < length l)%nat then write_list r (<[i := x]> l)
      else raise IndexError
  | _ => raise TypeError
  end.

(** [l[-1] = x] *)
Definition setitem_last (v : pyval) (x : pyval) : M unit :=
  let* n := len v in
  match n with
  | O => match v with PList _ => raise IndexError | _ => raise TypeError end
  | S i => setitem_at v i x
  end.

(** [l[-1]] *)
Definition getitem_last (v : pyval) : M pyval :=
  let* n := len v in
  match n with
  | O => raise IndexError
  | S i => getitem v i
  end.

(** The string of a title. *)
Definition as_str (v : pyval) (otherwise : exn) : M string :=
  match v with
  | PStr s => ret s
  | _ => raise otherwise
  end.

(** Does a string hold a line break. *)
Fixpoint has_newline (s : string) : bool :=
  match s with
  | EmptyString => false
  | String c s' => Ascii.eqb c "010"%char || has_newline s'
  end.

(** [copy.deepcopy(v)], with the objects copied so far in [memo]: a list is
    copied with its elements, which are plain values in every call of the
    repository (a list held in a list would stay shared here); a dict and an
    axes are copied as they are. *)
Definition deepcopy_value (memo : list (listref * listref)) (v : pyval)
    : M (list (listref * listref) * pyval) :=
  match v with
  | PList r =>
      match list_find (λ m, m.1 = r) memo with
      | Some (_, (_, r')) => ret (memo, PList r')
      | None =>
          let* l := read_list r in
          let* r' := new_list l in
          ret ((r, r') :: memo, PList r')
      end
  | PDict r =>
      let* d := read_dict r in
      let* r' := new_dict d in
      ret (memo, PDict r')
  | PAx a =>
      let* a' := copy_axes a in
      ret (memo, PAx a')
  | _ => ret (memo, v)
  end.

(** [copy.deepcopy(kwargs)] *)
Definition deepcopy (kwargs : pydict) : M pydict :=
  let* (_, copied) :=
    fold_each kwargs ([], []) (λ '(memo, copied) '(k, v),
      let* (memo, v') := deepcopy_value memo v in
      ret (memo, copied ++ [(k, v')])) in
  ret copied.

(** [l[::k]]: every k-th element, from the first. *)
Fixpoint stride {A} (k : nat) (fuel : nat) (l : list A) : list A :=
  match fuel, l with
  | S fuel', x :: _ => x :: stride k fuel' (drop k l)
  | _, _ => []
  end.

(** An attribute of [axes[0]] that holds one of the shared panels. *)
Definition panel_of (axes : pyval) (attribute : axes_obj → option pyval) : M pyval :=
  let* ax0 := getitem axes 0 in
  let* a0 := as_axes ax0 in
  let* o := axes_of a0 in
  match attribute o with
  | Some v => ret v
  | None => raise AttributeError
  end.

(** Lines 825-872: the grid of axes created when none are given. *)
Definition manyviews_new_axes (rows cols : nat) (kwargs : pydict) : M pyval :=
  let* axes :=
    fold_each (seq 0 (rows * (cols - 1))) [] (λ axes _,
      let* a := new_axes in ret (axes ++ [PAx a])) in
  let* r := new_list axes in
  let axes := PList r in
  let* ax0 := getitem axes 0 in
  let* a0 := as_axes ax0 in
  (* [getattr(kwargs, 'illustrate_ax', None)] on a dict is None *)
  let* illustrate := new_axes in
  update_axes a0 (set_illustrate_ax (Some (PAx illustrate)));;
  draw "get_position" (PAx illustrate) [];;
  draw "set_position" (PAx illustrate) [];;
  update_axes illustrate (set_cbox true);;
  (* [getattr(kwargs, 'total_error', None)] on a dict is None *)
  let* ax := new_axes in
  draw "get_position" (PAx ax) [];;
  draw "remove" (PAx ax) [];;
  let* ax := new_axes in
  update_axes a0 (set_error_ax (Some (PAx ax)));;
  let* tmp_ax := new_axes in
  draw "set_axis_off" (PAx tmp_ax) [];;
  draw "get_position" (PAx tmp_ax) [];;
  let* colorbar := new_axes in
  update_axes a0 (set_colorbar_ax (Some (PAx colorbar)));;
  ret axes.

(** Lines 880-894: the column titles that depend on the kind of analysers. *)
Definition manyviews_titles (args : list aid) (column_titles : pyval) (cols : nat)
    : M unit :=
  for_each [0%nat; 1%nat] (λ i_manalyser,
    match args !! i_manalyser with
    | None => raise IndexError
    | Some manalyser =>
        let* part := first_part manalyser in
        let* self := analyser_of manalyser in
        (if String.eqb (part_class part) "FAnalyser"
            || String.eqb (class_name self) "FAnalyser" then
           let* titles := iter column_titles in
           let* joined :=
             fold_each titles "" (λ joined t,
               let* s := as_str t TypeError in ret (joined +:+ s)) in
           if has_newline joined
           then setitem_at column_titles i_manalyser (PStr ("Optic flow" +:+ nl))
           else setitem_at column_titles i_manalyser (PStr "Optic flow")
         else ret tt);;
        let* part := first_part manalyser in
        if String.eqb (part_class part) "MAnalyser"
           && (match receptive_fields part with
               | PBool true => true
               | v => eq_int v 1
               end)
        then setitem_at column_titles i_manalyser
               (PStr ("Biphasic receptive field" +:+ nl +:+ "movement directions"))
        else ret tt
    end);;
  match args !! 0%nat with
  | None => raise IndexError
  | Some manalyser =>
      let* part := first_part manalyser in
      if String.eqb (part_class part) "FAnalyser"
      then setitem_at column_titles (cols - 1) (PStr "Mean optic flow axis")
      else ret tt
  end.

(** Lines 919-934: the keyword arguments of the call of
    [compare_3d_vectormaps] for the view [i]. *)
Definition view_call (axes : pyval) (biphasic : bool) (naxes : nat) (i : nat)
    (view : Z * Z) (kwargs : pydict) : M pydict :=
  let* viewargs := deepcopy kwargs in
  let viewargs := dict_set "elev" (PInt view.1) viewargs in
  let viewargs := dict_set "azim" (PInt view.2) viewargs in
  let* all_axes := iter axes in
  let* illustrate_panel := panel_of axes illustrate_ax in
  let* error_panel := panel_of axes error_ax in
  let* view_axes :=
    new_list (take naxes (drop (i * naxes) all_axes)
              ++ [illustrate_panel; error_panel]) in
  let* explicit :=
    (if Nat.eqb i 0 then
       let* colorbar_panel := panel_of axes colorbar_ax in
       let* kwargsD :=
         new_dict [("colorbar", PBool true); ("colorbar_ax", colorbar_panel)] in
       ret [("axes", PList view_axes); ("biphasic", PBool biphasic);
            ("kwargsD", PDict kwargsD);
            ("illustrate", PBool true); ("total_error", PBool true)]
     else
       let* kwargsD := new_dict [("colorbar", PBool false)] in
       ret [("axes", PList view_axes); ("biphasic", PBool biphasic);
            ("illustrate", PBool false); ("total_error", PBool false);
            ("kwargsD", PDict kwargsD)]) in
  match join_kwargs [explicit; viewargs] with
  | Some given => ret given
  | None => raise TypeError
  end.

Definition compare_3d_vectormaps_manyviews (args : list aid) (given : pydict)
    : M pyval :=
  match bind_params [] manyviews_params [] true given with
  | None => raise TypeError
  | Some (p, kwargs) =>
    emit (Call "compare_3d_vectormaps_manyviews" args p kwargs);;
    let column_titles := arg p "column_titles" in
    let row_titles := arg p "row_titles" in
    let rows := length views in
    let tilt :=
      let t := dict_get_default "animation_type" kwargs in
      eq_str t "pitch_rot" || eq_str t "yaw_rot" || eq_str t "roll_rot" in
    let biphasic := tilt in
    let cols := if tilt then 5%nat else 4%nat in
    (* lines 811-823 *)
    (if tilt then
       list_insert column_titles 3 (PStr "Difference2");;
       setitem_at column_titles 2 (PStr ("Difference" +:+ nl +:+ " with slower phase"));;
       setitem_at column_titles 3 (PStr ("Difference" +:+ nl +:+ " with fast phase"));;
       setitem_last column_titles (PStr "")
     else ret tt);;
    let* axes :=
      (if is_None (arg p "axes") then manyviews_new_axes rows cols kwargs
       else ret (arg p "axes")) in
    (* lines 877-878 *)
    let* ax0 := getitem axes 0 in
    (match ax0 with
     | PAx a0 =>
         let* o := axes_of a0 in
         match error_ax o with
         | Some PNone | None => ret tt
         | Some panel => draw "clear" panel []
         end
     | _ => ret tt
     end);;
    manyviews_titles args column_titles cols;;
    (* lines 896-901 *)
    let* ax0 := getitem axes 0 in
    (match ax0 with
     | PAx a0 =>
         let* o := axes_of a0 in
         match illustrate_ax o with
         | Some PNone | None => ret tt
         | Some panel =>
             draw "clear" panel [];;
             let* title := getitem_last column_titles in
             draw "set_title" panel [title];;
             draw "set_frame_on" panel [PBool false];;
             draw "set_axis_off" panel []
         end
     | _ => ret tt
     end);;
    (* lines 903-915 *)
    let* titles := iter column_titles in
    let* all_axes := iter axes in
    for_each (zip (removelast titles) (take (cols - 1) all_axes)) (λ '(title, ax),
      draw "set_title" ax [title]);;
    let* row_titles := iter row_titles in
    let* all_axes := iter axes in
    for_each (zip row_titles (stride (cols - 1) (length all_axes) all_axes))
      (λ '(title, ax),
        if biphasic then as_str title AttributeError;; draw "text2D" ax [title]
        else draw "text2D" ax [title]);;
    let* all_axes := iter axes in
    for_each all_axes (λ ax, draw "set_axis_off" ax []);;
    let naxes := (cols - 1)%nat in
    (* lines 919-934 *)
    for_each (enumerate views) (λ '(i, view),
      let* given := view_call axes biphasic naxes i view kwargs in
      match args with
      | [manalyser1; manalyser2] =>
          compare_3d_vectormaps manalyser1 manalyser2 given;; ret tt
      | _ => raise TypeError
      end);;
    let* all_axes := iter axes in
    for_each all_axes (λ ax, draw "dist" ax [PInt 6]);;
    let* illustrate_panel := panel_of axes illustrate_ax in
    let* a := as_axes illustrate_panel in
    let* o := axes_of a in
    (if cbox o then draw "set_position" illustrate_panel []
     else raise AttributeError);;
    let* r := new_list [axes] in
    ret (PList r)
  end.

End Plotting.


(** * [directories.py] *)

Module directories.

(** The exceptions of the module: the OSError raised for an unknown
    platform or by [os.makedirs], and the TypeError of [None + str]. *)
Inductive exn :=
| OSError (message : string)
| TypeError.

(** What the module sees of the machine: the paths that exist, and the
    lines printed so far. *)
Record machine := {
  files : gset string;
  stdout : list string
}.

(** The names the module binds.  [DROSO_DATADIRS] is bound on Linux only
    ([None]: no such name). *)
Record namespace := {
  ANALYSES_SAVEDIR : string;
  PROCESSING_TEMPDIR : string;
  PROCESSING_TEMPDIR_BIGFILES : string;
  DROSO_DATADIR : string;
  DROSO_DATADIRS : option (list string);
  ALLDIRS : list (string * string)
}.

Section Module.
(** [platform.system()], [os.getenv("HOME")] ([None] when unset),
    [os.path.dirname(os.path.realpath(__file__))], [os.path.join] and
    [os.makedirs] ([None]: it raises OSError). *)
Variables (platform_system : string) (HOME : option string) (CODE_ROOTDIR : string)
  (os_path_join : string → string → string)
  (os_makedirs : string → gset string → option (gset string)).

Definition print (line : string) (m : machine) : machine :=
  {| files := files m; stdout := stdout m ++ [line] |}.

(** Lines 40-43 *)
Definition all_dirs (analyses tempdir bigfiles data : string)
    : list (string * string) :=
  [("ANALYSES_SAVEDIR", analyses); ("PROCESSING_TEMPDIR", tempdir);
   ("PROCESSING_TEMPDIR_BIGFILES", bigfiles); ("DROSO_DATADIR", data)].

(** Lines 11-43: the names bound when the module is loaded. *)
Definition bindings : exn + namespace :=
  if String.eqb platform_system "Linux" then
    match HOME with
    | None => inl TypeError
    | Some home =>
        let analyses := home +:+ "/analyses/pupil" in
        let tempdir := home +:+ "/analyses/pupil/tmp" in
        let bigfiles := home +:+ "/pupil/tmp" in
        let data := home +:+ "/smallbrains-nas1/array1/pseudopupil_joni" in
        inr {| ANALYSES_SAVEDIR := analyses; PROCESSING_TEMPDIR := tempdir;
               PROCESSING_TEMPDIR_BIGFILES := bigfiles; DROSO_DATADIR := data;
               DROSO_DATADIRS :=
                 Some [home +:+ "/smallbrains-nas1/array1/pseudopupil_imaging"; data];
               ALLDIRS := all_dirs analyses tempdir bigfiles data |}
    end
  else if String.eqb platform_system "Windows" then
    let root_dir := CODE_ROOTDIR in
    let data := os_path_join root_dir "../DATA" in
    let analyses := os_path_join root_dir "../RESULTS" in
    let tempdir := os_path_join analyses "tmp" in
    let bigfiles := tempdir in
    inr {| ANALYSES_SAVEDIR := analyses; PROCESSING_TEMPDIR := tempdir;
           PROCESSING_TEMPDIR_BIGFILES := bigfiles; DROSO_DATADIR := data;
           DROSO_DATADIRS := None;
           ALLDIRS := all_dirs analyses tempdir bigfiles data |}
  else inl (OSError "Unkown platform (not Windows or Linux)").

(** Lines 47-53 *)
Definition printDirectories (ns : namespace) (m : machine) : machine :=
  foldl (λ m '(key, item), print (key +:+ " " +:+ item) m)
    (print "These are the directories" m) (ALLDIRS ns).

(** The message of line 66 *)
Definition announcement (key item : string) : string :=
  "Folder " +:+ item +:+ " for " +:+ key
  +:+ " did not exist. Attempting to create it.".

(** Lines 63-67: the loop of [directoriesExist] over the items that are
    left. *)
Fixpoint ensure (dirs : list (string * string)) (m : machine)
    : machine * option exn :=
  match dirs with
  | [] => (m, None)
  | (key, item) :: dirs' =>
      if bool_decide (item ∈ files m) then ensure dirs' m
      else
        let m := print (announcement key item) m in
        match os_makedirs item (files m) with
        | Some fs => ensure dirs' {| files := fs; stdout := stdout m |}
        | None => (m, Some (OSError "makedirs"))
        end
  end.

(** Lines 56-67 *)
Definition directoriesExist (ns : namespace) (m : machine) : machine * option exn :=
  ensure (ALLDIRS ns) m.

(** Loading the module, as a script ([__name__ == "__main__"]) or by
    import: the bindings, lines 69-70 and line 72. *)
Definition load (main : bool) (m : machine) : machine * (exn + namespace) :=
  match bindings with
  | inl e => (m, inl e)
  | inr ns =>
      let m := if main then printDirectories ns m else m in
      match directoriesExist ns m with
      | (m', None) => (m', inr ns)
      | (m', Some e) => (m', inl e)
      end
  end.

End Module.

(** [os.makedirs] on a machine where every directory can be made: the path
    is there afterwards; a path that exists is an error. *)
Definition simple_makedirs (path : string) (fs : gset string) : option (gset string) :=
  if bool_decide (path ∈ fs) then None else Some ({[ path ]} ∪ fs).

(** [posixpath.join] for a relative second part. *)
Definition simple_join (a b : string) : string := a +:+ "/" +:+ b.

End directories.

(** * [plot_1d_magnitude] (basics.py, lines 38-172) *)

Module magnitude.

(** The exceptions of the function and of what it calls. *)
Inductive exn :=
| IndexError
| ValueError
| CollaboratorError (who : string).

(** The time axis: [arange N] is [np.arange(N)], the frame numbers, and
    [linspace_ms N] is [1000 * np.linspace(0, N/fs, N)] with [fs = 100],
    the times in milliseconds. *)
Inductive time_axis :=
| arange (N : nat)
| linspace_ms (N : nat).

Definition time_axis_length (x : time_axis) : nat :=
  match x with arange N | linspace_ms N => N end.

(** [ax.plot(X, Y)] takes an [X] and a [Y] of the same length (it raises
    ValueError otherwise). *)
Definition fits (X : option time_axis) (Y : list float) : bool :=
  match X with
  | Some x => Nat.eqb (time_axis_length x) (length Y)
  | None => true
  end.

(** The drawing calls, and the call of [manalyser.get_magnitude_traces]. *)
Inductive event :=
| subplots_call
| get_magnitude_traces_call (eye : option string)
| plot_call (X : option time_axis) (Y : list float) (label : option string)
    (color : option string) (dashed : bool)
| legend_call (ncol : nat)
| set_xlabel_call (text : string)
| set_ylabel_call (text : string)
| spine_set_visible_call (spine : string) (visible : bool).

(** A computation: the events, and the value or the exception. *)
Definition W (A : Type) : Type := list event * (exn + A).

Definition ret {A} (a : A) : W A := ([], inr a).
Definition raise {A} (e : exn) : W A := ([], inl e).
Definition emit (e : event) : W unit := ([e], inr tt).
Definition bind {A B} (m : W A) (k : A → W B) : W B :=
  match m with
  | (evs, inr a) => let r := k a in (evs ++ r.1, r.2)
  | (evs, inl e) => (evs, inl e)
  end.

(** [ax.plot(X, Y, label=..., color=...)], dashed with ['--']. *)
Definition plot (X : option time_axis) (Y : list float) (label : option string)
    (color : option string) (dashed : bool) : W unit :=
  if fits X Y then emit (plot_call X Y label color dashed) else raise ValueError.

Fixpoint fold_each {A S} (l : list A) (s : S) (body : S → A → W S) : W S :=
  match l with
  | [] => ret s
  | x :: l' => bind (body s x) (λ s', fold_each l' s' body)
  end.

(** [s.replace(old, new)] for a pattern [old] that is not empty: the
    occurrences are replaced from the left, without overlap. *)
Fixpoint replace_from (fuel : nat) (old new s : string) : string :=
  match fuel with
  | O => s
  | S fuel' =>
      if String.prefix old s
      then new +:+ replace_from fuel' old new
                     (String.substring (String.length old)
                        (String.length s - String.length old) s)
      else match s with
           | EmptyString => EmptyString
           | String c s' => String c (replace_from fuel' old new s')
           end
  end.
Definition replace (old new s : string) : string :=
  replace_from (S (String.length s)) old new s.

(** ['+'.join(l)] *)
Fixpoint join_plus (l : list string) : string :=
  match l with
  | [] => EmptyString
  | [s] => s
  | s :: l' => s +:+ "+" +:+ join_plus l'
  end.

(** [str(n)] of a count. *)
Definition str_of_nat (n : nat) : string :=
  NilEmpty.string_of_uint (Nat.to_uint n).

Definition EYE_COLORS : list (string * string) :=
  [("right", "blue"); ("left", "red")].

(** [EYE_COLORS.get(eye, 'green')] *)
Definition eye_color (eye : option string) : string :=
  match eye with
  | Some e =>
      match list_find (λ kv, kv.1 = e) EYE_COLORS with
      | Some (_, (_, color)) => color
      | None => "green"
      end
  | None => "green"
  end.

(** The keyword arguments.  [label] is a string or None, [i_repeat] an
    int or None; [ax] says whether an axes is given. *)
Record options := {
  image_folder : option string;
  i_repeat : option Z;
  mean_repeats : bool;
  mean_imagefolders : bool;
  mean_eyes : bool;
  color_eyes : bool;
  gray_repeats : bool;
  show_mean : bool;
  show_std : bool;
  show_label : bool;
  milliseconds : bool;
  microns : bool;
  label : option string;
  ax : bool
}.

(** The locals the loops update. *)
Record locals := {
  X : option time_axis;
  yscaler : option float;
  N_repeats : nat;
  traces : list (list float)
}.

Section Function.
(** [manalyser.eyes], and [manalyser.get_magnitude_traces(eye,
    image_folder=..., mean_repeats=..., mean_imagefolders=...)]: the
    items of the dict it returns, the traces of the repeats by image
    folder ([None]: it raises); [np.mean(traces, axis=0)] and
    [np.std(traces, axis=0)] ([None]: they raise). *)
Variables (eyes : list string)
  (get_magnitude_traces : option string → option string → bool → bool
                          → option (list (string * list (list float))))
  (np_mean np_std : list (list float) → option (list float)).

(** Lines 74-91 *)
Definition get_x_yscaler (o : options) (mag_rep_i : list float)
    : time_axis * float :=
  let N := length mag_rep_i in
  (if milliseconds o then linspace_ms N else arange N,
   if microns o then 0.816%float else 1%float).

(** Lines 126-133 *)
Definition label_of (o : options) (eye : option string) (angle : string)
    (_i_repeat : nat) : string :=
  match label o with
  | Some pattern =>
      if negb (String.eqb pattern "") then
        let eyename := match eye with None => join_plus eyes | Some e => e end in
        replace "IREPEAT" (str_of_nat _i_repeat)
          (replace "ANGLE" angle (replace "EYE" eyename pattern))
      else ""
  | None => ""
  end.

(** Lines 118-144: one repeat. *)
Definition plot_repeat (o : options) (eye : option string) (angle : string)
    (s : locals) (item : nat * list float) : W locals :=
  let '(_i_repeat, mag_rep_i) := item in
  let s := {| X := X s; yscaler := yscaler s; N_repeats := S (N_repeats s);
              traces := traces s |} in
  if match i_repeat o with
     | Some i => negb (Z.eqb (Z.of_nat _i_repeat) i)
     | None => false
     end
  then ret s
  else
    let _label := label_of o eye angle _i_repeat in
    let Y := (λ y, default 1 (yscaler s) * y)%float <$> mag_rep_i in
    bind (plot (X s) Y (Some _label)
            (if color_eyes o then Some (eye_color eye)
             else if gray_repeats o then Some "gray" else None) false)
      (λ _, ret {| X := X s; yscaler := yscaler s; N_repeats := N_repeats s;
                   traces := traces s ++ [Y] |}).

(** Lines 112-144: one image folder. *)
Definition plot_angle (o : options) (eye : option string) (s : locals)
    (item : string * list (list float)) : W locals :=
  let '(angle, repeat_mags) := item in
  bind
    (match X s, yscaler s with
     | Some _, Some _ => ret s
     | _, _ =>
         match repeat_mags with
         | [] => raise IndexError
         | first :: _ =>
             let '(x, y) := get_x_yscaler o first in
             ret {| X := Some x; yscaler := Some y; N_repeats := N_repeats s;
                    traces := traces s |}
         end
     end)
    (λ s, fold_each (imap pair repeat_mags) s (plot_repeat o eye angle)).

(** Lines 108-144: one eye. *)
Definition plot_eye (o : options) (s : locals) (eye : option string) : W locals :=
  bind (emit (get_magnitude_traces_call eye)) (λ _,
  match get_magnitude_traces eye (image_folder o) (mean_repeats o)
          (mean_imagefolders o) with
  | None => raise (CollaboratorError "get_magnitude_traces")
  | Some magtraces => fold_each magtraces s (plot_angle o eye)
  end).

Definition plot_1d_magnitude (o : options)
    : W (list (list float) * nat) :=
  bind (if ax o then ret tt else emit subplots_call) (λ _,
  let eyes_ := if mean_eyes o then [None] else Some <$> eyes in
  bind (fold_each eyes_ {| X := None; yscaler := None; N_repeats := 0; traces := [] |}
          (plot_eye o)) (λ s,
  (* line 146 *)
  match np_mean (traces s) with
  | None => raise (CollaboratorError "np.mean")
  | Some meantrace =>
      bind (if show_mean o
            then plot (X s) meantrace (Some "mean-of-all") (Some "black") false
            else ret tt) (λ _,
      bind (if show_std o then
              match np_std (traces s) with
              | None => raise (CollaboratorError "np.std")
              | Some std =>
                  bind (plot (X s) (zip_with (λ m d, m + d)%float meantrace std)
                          (Some "std-of-mean-of-all") (Some "black") true)
                    (λ _,
                  match np_std (traces s) with
                  | None => raise (CollaboratorError "np.std")
                  | Some std =>
                      plot (X s) (zip_with (λ m d, m - d)%float meantrace std)
                        None (Some "black") true
                  end)
              end
            else ret tt) (λ _,
      bind (if match label o with
               | Some pattern => negb (String.eqb pattern "")
               | None => false
               end && show_label o
            then emit (legend_call (length (traces s) / 10 + 1))
            else ret tt) (λ _,
      bind (emit (set_xlabel_call (if milliseconds o then "Time (ms)" else "Frame")))
        (λ _,
      bind (emit (set_ylabel_call
                    (if microns o then "Displacement magnitude (µm)"
                     else "Displacement magnitude (pixels)"))) (λ _,
      bind (emit (spine_set_visible_call "right" false)) (λ _,
      bind (emit (spine_set_visible_call "top" false)) (λ _,
      ret (traces s, N_repeats s))))))))
  end)).

End Function.
End magnitude.
(** * Properties *)

(** ** Relations between the store before and after a run *)

(** A computation keeps a relation between the store before and after,
    whether it returns or raises. *)
Definition stable {A} (R : relation world) (m : M A) : Prop :=
  ∀ w, R w (final (m w)).

(** A computation only emits events that pass the test [q]. *)
Definition emits {A} (q : event → bool) (m : M A) : Prop :=
  ∀ w, forallb q (emitted (m w)) = true.

(** The writes a relation on stores does not see: any write of a component
    of the store, or the writes of one kind. *)
Class AnalysersBlind (R : relation world) :=
  analysers_blind : ∀ w f, R w (with_analysers f w).
Class AnalysersBlindTo {V} (R : relation world) (set : V → analyser → analyser) :=
  analysers_blind_to :
    ∀ w a v, R w (with_analysers (<[a := set v (analysers w a)]> (analysers w)) w).
Class AxesBlind (R : relation world) :=
  axes_blind : ∀ w f, R w (with_axes f w).
Class AxesBlindTo {V} (R : relation world) (set : V → axes_obj → axes_obj) :=
  axes_blind_to :
    ∀ w a v, R w (with_axes (<[a := set v (ax_obj w a)]> (axes w)) w).
Class AxesAlloc (R : relation world) :=
  axes_alloc :
    ∀ w, R w (with_axes (<[fresh (dom (axes w)) := new_axes_obj]> (axes w)) w).
Class AxesCopy (R : relation world) :=
  axes_copy :
    ∀ w a, R w (with_axes (<[fresh (dom (axes w)) := ax_obj w a]> (axes w)) w).
Class ListsBlind (R : relation world) :=
  lists_blind : ∀ w r l, R w (set_list r l w).
Class ListsAppend (R : relation world) :=
  lists_append : ∀ w r x, R w (set_list r (list_obj w r ++ [x]) w).
Class ListsAlloc (R : relation world) :=
  lists_alloc : ∀ w l, R w (with_lists (<[fresh (dom (lists w)) := l]> (lists w)) w).
Class DictsBlind (R : relation world) :=
  dicts_blind : ∀ w r d, R w (set_dict r d w).
Class DictsAlloc (R : relation world) :=
  dicts_alloc : ∀ w d, R w (with_dicts (<[fresh (dom (dicts w)) := d]> (dicts w)) w).

(** The attributes of the analysers are kept. *)
Definition same_analysers : relation world :=
  λ w w', analysers w' = analysers w.

(** The lists and dicts are kept. *)
Definition same_objects : relation world :=
  λ w w', lists w' = lists w ∧ dicts w' = dicts w
          ∧ default_arrow_rotations w' = default_arrow_rotations w
          ∧ default_column_titles w' = default_column_titles w
          ∧ default_dicts w' = default_dicts w.

(** The tilts of the analysers are kept. *)
Definition same_tilt : relation world :=
  λ w w', ∀ a, pitch_rot (analysers w' a) = pitch_rot (analysers w a)
               ∧ roll_rot (analysers w' a) = roll_rot (analysers w a)
               ∧ yaw_rot (analysers w' a) = yaw_rot (analysers w a).

(** ** Observations on the events of a run *)

(** The extractions among the events, each with the function that issued it
    (the last one called), the analyser, the eye and the analyser's
    attributes at the extraction. *)
Fixpoint extractions (caller : string) (t : list event)
    : list (string * aid * string * analyser) :=
  match t with
  | [] => []
  | Call f _ _ _ :: t' => extractions f t'
  | get_3d_vectors_call a self eye _ _ _ _ :: t' =>
      (caller, a, eye, self) :: extractions caller t'
  | _ :: t' => extractions caller t'
  end.

(** The attributes of the analyser [a] at the extractions that
    [plot_3d_vectormap] made on it. *)
Definition vectormap_extractions (a : aid) (t : list event) : list analyser :=
  omap (λ '(caller, a', _, self),
          if String.eqb caller "plot_3d_vectormap" && Nat.eqb a' a
          then Some self else None)
       (extractions "" t).

(** The parameters, as bound, of a call of the function [f]. *)
Definition call_of (f : string) (e : event) : list (pydict * pydict) :=
  match e with
  | Call g _ params kwargs => if String.eqb g f then [(params, kwargs)] else []
  | _ => []
  end.

(** The colorbar attached to the axes [ax] by an event. *)
Definition colorbar_of (ax : axid) (e : event) : list axid :=
  match e with
  | colorbar_call a cax => if Nat.eqb a ax then [cax] else []
  | _ => []
  end.

(** The surface drawn by an event: the errors and the azimuth samples. *)
Definition surface_of (e : event) : list (list float * linspace) :=
  match e with
  | surface_plot_call _ _ errors phi_points => [(errors, phi_points)]
  | _ => []
  end.

(** What a list of events shows through one of these views. *)
Definition project {X} (view : event → list X) (t : list event) : list X :=
  t ≫= view.

(** An event that shows nothing through a view. *)
Definition hidden {X} (view : event → list X) (e : event) : bool :=
  match view e with [] => true | _ => false end.

(** The running error series of an axes: the animation variables and the
    mean errors recorded on it. *)
Definition series_of (w : world) (ax : axid) : list pyval * list float :=
  (default [] (pupil_compare_rotations (ax_obj w ax)),
   default [] (pupil_compare_errors (ax_obj w ax))).

(** ** A small population for the examples *)

(** An averager of analysers of the class [part], with both eyes, a
    rotation of 10 degrees and no tilt. *)
Definition averager (part : string) : analyser :=
  {| class_name := "MAverager";
     manalysers := Some [{| part_class := part; receptive_fields := PBool false |}];
     eyes := ["left"; "right"];
     vector_rotation := PInt 10;
     pitch_rot := PNone; roll_rot := PNone; yaw_rot := PNone;
     constant_points := None |}.

(** A store with the averager of measurements 1 and the averager of
    rhabdomere orientations 2 (and every other identity), no axes yet, and
    the default objects as the module builds them. *)
Definition example_world : world :=
  {| analysers := λ a, if Nat.eqb a 1 then averager "MAnalyser" else averager "OAnalyser";
     axes := ∅; lists := ∅; dicts := ∅;
     default_arrow_rotations := [PInt 0];
     default_column_titles := initial_column_titles;
     default_dicts := ∅ |}.

(** Collaborators for the examples: every eye has the same two points, the
    error is a quarter everywhere, and the mean is the sum over the
    number. *)
Definition two_points : vectorfield :=
  ([(1, 0, 0); (0, 1, 0)]%float, [(0, 0, 1); (0, 0, 1)]%float).

Definition example_get_3d_vectors
    : aid → analyser → string → pyval → pyval → pyval → pyval → option vectorfield :=
  λ _ _ _ _ _ _ _, Some two_points.

(** An extraction that raises. *)
Definition failing_get_3d_vectors
    : aid → analyser → string → pyval → pyval → pyval → pyval → option vectorfield :=
  λ _ _ _ _ _ _ _, None.

Definition example_field_error
    : list vec3 → list vec3 → list vec3 → list vec3 → pyval → option (list float) :=
  λ pointsA _ _ _ _, Some ((λ _, 0.25%float) <$> pointsA).

Definition example_np_mean (l : list float) : float :=
  (foldr PrimFloat.add 0 l / float_of_Z (Z.of_nat (length l)))%float.

(** The five axes of a comparison with illustration and total error. *)
Definition five_axes : pyval := PTuple [PAx 0; PAx 1; PAx 2; PAx 3; PAx 4].


(** Two bindings of the parameters of a function with the same values,
    but for the parameters [names]. *)
Definition agree_off (names : list string) (p1 p2 : pydict) : Prop :=
  p1.*1 = p2.*1 ∧ ∀ k, k ∉ names → dict_get k p1 = dict_get k p2.


(** Two runs that end in the same store, both with the same exception or
    both with a value, the two values related by [R].  The events are not
    compared. *)
Definition run_rel {A B} (R : A → B → Prop) (r1 : run A) (r2 : run B) : Prop :=
  final r1 = final r2
  ∧ match result r1, result r2 with
    | Return a, Return b => R a b
    | Raise x, Raise y => x = y
    | _, _ => False
    end.


(** Whether [_set_analyser_attributes] stops at a keyword: its name is not
    two characters long, or [raise_errors] is set. *)
Definition stops_at (raise_errors : bool) (key : string) : bool :=
  negb (Nat.eqb (String.length key) 2) || raise_errors.

(** The [eyes] of the analysers are kept. *)
Definition same_eyes : relation world :=
  λ w w', ∀ a, eyes (analysers w' a) = eyes (analysers w a).

(** The surfaces [plot_3d_differencemap] draws for the eyes [eyes_] with the
    error fields [fields], eye by eye: one for each azimuth range of the
    eye, all with the field of the eye. *)
Definition eye_surfaces (eyes_ : list string) (fields : list (list float))
    : list (list float * linspace) :=
  concat (zip_with (λ eye field, (λ phi_points, (field, phi_points))
                                   <$> all_phi_points eye) eyes_ fields).

(** ** What [plot_1d_magnitude] returns *)

(** The eyes the function asks the traces of. *)
Definition eyes_asked (o : magnitude.options) (eyes : list string)
    : list (option string) :=
  if magnitude.mean_eyes o then [None] else Some <$> eyes.

(** The answers of [get_magnitude_traces] for the eyes, in order. *)
Definition answers
    (get_magnitude_traces : option string → option string → bool → bool
                            → option (list (string * list (list float))))
    (o : magnitude.options) (eyes_ : list (option string))
    : option (list (list (string * list (list float)))) :=
  mapM (λ eye, get_magnitude_traces eye (magnitude.image_folder o)
                 (magnitude.mean_repeats o) (magnitude.mean_imagefolders o)) eyes_.

(** Is the repeat [i] of an image folder plotted. *)
Definition repeat_shown (o : magnitude.options) (i : nat) : bool :=
  match magnitude.i_repeat o with
  | Some z => Z.eqb (Z.of_nat i) z
  | None => true
  end.

(** The repeats of an image folder that are plotted, from the index [k]
    of the first one on. *)
Fixpoint repeats_shown (o : magnitude.options) (k : nat)
    (repeat_mags : list (list float)) : list (list float) :=
  match repeat_mags with
  | [] => []
  | mag :: rest =>
      (if repeat_shown o k then [mag] else []) ++ repeats_shown o (S k) rest
  end.

(** A trace in pixels, or in microns with the pixel size 0.816. *)
Definition scaled (o : magnitude.options) (mag : list float) : list float :=
  (λ y, (if magnitude.microns o then 0.816 else 1) * y)%float <$> mag.

(** The traces plotted for the image folders [folders], and the number of
    all their repeats. *)
Definition traces_shown (o : magnitude.options)
    (folders : list (string * list (list float))) : list (list float) :=
  folders ≫= λ folder, scaled o <$> repeats_shown o 0 folder.2.
Definition repeats_counted (folders : list (string * list (list float))) : nat :=
  sum_list_with (λ folder, length folder.2) folders.

(** The time axis: that of the first repeat of the first image folder. *)
Definition first_axis (o : magnitude.options)
    (folders : list (string * list (list float))) : option magnitude.time_axis :=
  match folders with
  | (_, first :: _) :: _ => Some (magnitude.get_x_yscaler o first).1
  | _ => None
  end.

(** A trace as long as the time axis, which is set. *)
Definition trace_fits (X : option magnitude.time_axis) (Y : list float) : Prop :=
  ∃ x, X = Some x ∧ magnitude.time_axis_length x = length Y.

(** The scale and the time axis are set together, once. *)
Definition scale_set (o : magnitude.options) (s : magnitude.locals) : Prop :=
  magnitude.yscaler s = Some (if magnitude.microns o then 0.816 else 1)%float
  ∧ is_Some (magnitude.X s).
Definition scale_unset_or_set (o : magnitude.options) (s : magnitude.locals) : Prop :=
  (magnitude.X s = None ∧ magnitude.yscaler s = None) ∨ scale_set o s.

(** An option with another value for [i_repeat]. *)
Definition with_i_repeat (i : option Z) (o : magnitude.options) : magnitude.options :=
  {| magnitude.image_folder := magnitude.image_folder o;
     magnitude.i_repeat := i;
     magnitude.mean_repeats := magnitude.mean_repeats o;
     magnitude.mean_imagefolders := magnitude.mean_imagefolders o;
     magnitude.mean_eyes := magnitude.mean_eyes o;
     magnitude.color_eyes := magnitude.color_eyes o;
     magnitude.gray_repeats := magnitude.gray_repeats o;
     magnitude.show_mean := magnitude.show_mean o;
     magnitude.show_std := magnitude.show_std o;
     magnitude.show_label := magnitude.show_label o;
     magnitude.milliseconds := magnitude.milliseconds o;
     magnitude.microns := magnitude.microns o;
     magnitude.label := magnitude.label o;
     magnitude.ax := magnitude.ax o |}.

(** An analyser with two eyes and two image folders, of two repeats and of
    one, all of three frames. *)
Definition example_magnitude_traces (eye image_folder : option string)
    (mean_repeats mean_imagefolders : bool)
    : option (list (string * list (list float))) :=
  Some [("pos(0, 0)", [[1; 2; 3]%float; [3; 4; 5]%float]);
        ("pos(10, 0)", [[5; 6; 7]%float])].

Definition example_mean (traces : list (list float)) : option (list float) :=
  Some (default [] (head traces)).

Definition example_options : magnitude.options :=
  {| magnitude.image_folder := None; magnitude.i_repeat := None;
     magnitude.mean_repeats := false; magnitude.mean_imagefolders := false;
     magnitude.mean_eyes := false; magnitude.color_eyes := false;
     magnitude.gray_repeats := false; magnitude.show_mean := false;
     magnitude.show_std := false; magnitude.show_label := true;
     magnitude.milliseconds := false; magnitude.microns := false;
     magnitude.label := Some "EYE-ANGLE-IREPEAT"; magnitude.ax := false |}.

(** ** The colorbar of an axes *)

(** The marker [differencemap_colorbar] of the axes [a] is kept. *)
Definition same_colorbar (a : axid) : relation world :=
  λ w w', differencemap_colorbar (ax_obj w' a) = differencemap_colorbar (ax_obj w a).

(** The axes [a] carries the marker, with the colorbar axes [c]. *)
Definition marked (a c : axid) (w : world) : Prop :=
  differencemap_colorbar (ax_obj w a) = Some c.

(** A computation that keeps a property of the store and emits only events
    that pass the test [q], when the property holds before, whether it
    returns or raises. *)
Definition invariant {A} (P : world → Prop) (q : event → bool) (m : M A) : Prop :=
  ∀ w, P w → P (final (m w)) ∧ forallb q (emitted (m w)) = true.

(** ** The dict passed as [kwargsD] *)

(** The dicts are kept. *)
Definition same_dicts : relation world :=
  λ w w', ∀ r, dict_obj w' r = dict_obj w r.

(** ** The running error series *)

(** The three attributes of the running error series are kept, on every
    axes. *)
Definition same_series : relation world :=
  λ w w', ∀ a,
    pupil_compare_errors (ax_obj w' a) = pupil_compare_errors (ax_obj w a)
    ∧ pupil_compare_rotations (ax_obj w' a) = pupil_compare_rotations (ax_obj w a)
    ∧ pupil_compare_reverse_errors (ax_obj w' a)
      = pupil_compare_reverse_errors (ax_obj w a).

(** The series an axes has when a point is added (lines 719-721): the one
    it carries, or an empty one when it has no [pupil_compare_errors]. *)
Definition series_start (o : axes_obj) : list float * list pyval :=
  if pupil_compare_errors o is Some errors
  then (errors, default [] (pupil_compare_rotations o))
  else ([], []).

(** The axes [a] gained the point [(variable, mean)], and the series of
    the other axes are kept. *)
Definition point_added (a : axid) (mean : float) (variable : pyval)
    : relation world :=
  λ w w',
    pupil_compare_errors (ax_obj w' a) = Some ((series_start (ax_obj w a)).1 ++ [mean])
    ∧ pupil_compare_rotations (ax_obj w' a)
      = Some ((series_start (ax_obj w a)).2 ++ [variable])
    ∧ ∀ a', a' ≠ a →
        pupil_compare_errors (ax_obj w' a') = pupil_compare_errors (ax_obj w a')
        ∧ pupil_compare_rotations (ax_obj w' a') = pupil_compare_rotations (ax_obj w a')
        ∧ pupil_compare_reverse_errors (ax_obj w' a')
          = pupil_compare_reverse_errors (ax_obj w a').

(** The two series of [a] are as long. *)
Definition series_aligned (a : axid) (w : world) : Prop :=
  length (default [] (pupil_compare_rotations (ax_obj w a)))
  = length (default [] (pupil_compare_errors (ax_obj w a))).

(** What the end of the total-error panel keeps, on the axes [a]: the
    errors and the rotations of every axes, and the slower series of the
    other axes. *)
Definition series_tail (a : axid) : relation world :=
  λ w w',
    (∀ a', pupil_compare_errors (ax_obj w' a') = pupil_compare_errors (ax_obj w a')
           ∧ pupil_compare_rotations (ax_obj w' a')
             = pupil_compare_rotations (ax_obj w a'))
    ∧ ∀ a', a' ≠ a →
        pupil_compare_reverse_errors (ax_obj w' a')
        = pupil_compare_reverse_errors (ax_obj w a').

(** ** The calls of [compare_3d_vectormaps] *)

(** What a call of [compare_3d_vectormaps] shows: the parameters as bound
    and the keywords left for the plotting functions. *)
Definition comparison_of (e : event) : list (pydict * pydict) :=
  match e with
  | Call f _ p kwargs =>
      if String.eqb f "compare_3d_vectormaps" then [(p, kwargs)] else []
  | _ => []
  end.

(** Of such a call: the camera ([elev], [azim]) handed on, and
    [illustrate] and [total_error]. *)
Definition view_of (c : pydict * pydict) : pyval * pyval * pyval * pyval :=
  (dict_get_default "elev" c.2, dict_get_default "azim" c.2,
   arg c.1 "illustrate", arg c.1 "total_error").
(** ** Reasoning about runs *)

Section Stable.
Context (R : relation world) `{!PreOrder R}.

Lemma stable_ret {A} (a : A) : stable R (ret a).
Proof. intros w. reflexivity. Qed.

Lemma stable_raise {A} (e : exn) : stable R (@raise A e).
Proof. intros w. reflexivity. Qed.

Lemma stable_read {A} (f : world → A) : stable R (read f).
Proof. intros w. reflexivity. Qed.

Lemma stable_emit e : stable R (emit e).
Proof. intros w. reflexivity. Qed.

Lemma stable_bind {A B} (m : M A) (k : A → M B) :
  stable R m → (∀ a, stable R (k a)) → stable R (bind m k).
Proof.
  intros Hm Hk w. unfold bind. specialize (Hm w).
  destruct (m w) as [w1 e1 [a|e]]; simpl in *; [|done].
  etrans; [exact Hm|apply Hk].
Qed.

Lemma stable_for_each {A} (l : list A) (body : A → M unit) :
  (∀ x, stable R (body x)) → stable R (for_each l body).
Proof.
  intros Hb. induction l as [|x l IH]; simpl.
  - apply stable_ret.
  - apply stable_bind; auto.
Qed.

Lemma stable_fold_each {A S} (l : list A) (s : S) (body : S → A → M S) :
  (∀ s x, stable R (body s x)) → stable R (fold_each l s body).
Proof.
  intros Hb. revert s. induction l as [|x l IH]; intros s; simpl.
  - apply stable_ret.
  - apply stable_bind; auto.
Qed.

Lemma and_then_stable a b : stable R b → stable R (and_then a b).
Proof. intros. destruct a; [done|apply stable_ret]. Qed.

Lemma and_then'_stable a b : stable R a → stable R b → stable R (and_then' a b).
Proof.
  intros. apply stable_bind; [done|]. intros. by apply and_then_stable.
Qed.

Lemma call_with_stable {A} (f : pydict → M A) ds :
  (∀ d, stable R (f d)) → stable R (call_with f ds).
Proof.
  intros. unfold call_with. destruct (join_kwargs ds); [done|apply stable_raise].
Qed.

(** Reads *)
Lemma analyser_of_stable a : stable R (analyser_of a).
Proof. apply stable_read. Qed.
Lemma axes_of_stable a : stable R (axes_of a).
Proof. apply stable_read. Qed.
Lemma read_list_stable r : stable R (read_list r).
Proof. apply stable_read. Qed.
Lemma read_dict_stable r : stable R (read_dict r).
Proof. apply stable_read. Qed.

(** Writes *)
Lemma update_analyser_stable {V} (set : V → analyser → analyser)
    `{!AnalysersBlindTo R set} a v :
  stable R (update_analyser a (set v)).
Proof. intros w. apply analysers_blind_to. Qed.
Lemma update_axes_stable {V} (set : V → axes_obj → axes_obj)
    `{!AxesBlindTo R set} a v :
  stable R (update_axes a (set v)).
Proof. intros w. apply axes_blind_to. Qed.
Lemma new_axes_stable `{!AxesAlloc R} : stable R new_axes.
Proof. intros w. apply axes_alloc. Qed.
Lemma copy_axes_stable `{!AxesCopy R} a : stable R (copy_axes a).
Proof. intros w. apply axes_copy. Qed.
Lemma write_list_stable `{!ListsBlind R} r l : stable R (write_list r l).
Proof. intros w. apply lists_blind. Qed.
Lemma new_list_stable `{!ListsAlloc R} l : stable R (new_list l).
Proof. intros w. apply lists_alloc. Qed.
Lemma write_dict_stable `{!DictsBlind R} r d : stable R (write_dict r d).
Proof. intros w. apply dicts_blind. Qed.
Lemma new_dict_stable `{!DictsAlloc R} d : stable R (new_dict d).
Proof. intros w. apply dicts_alloc. Qed.

(** A relation that sees no write of a component sees none of a kind. *)
#[global] Instance analysers_blind_any {V} (set : V → analyser → analyser) :
  AnalysersBlind R → AnalysersBlindTo R set.
Proof. intros H w a v. apply H. Qed.
#[global] Instance axes_blind_any {V} (set : V → axes_obj → axes_obj) :
  AxesBlind R → AxesBlindTo R set.
Proof. intros H w a v. apply H. Qed.
#[global] Instance axes_blind_alloc : AxesBlind R → AxesAlloc R.
Proof. intros H w. apply H. Qed.
#[global] Instance axes_blind_copy : AxesBlind R → AxesCopy R.
Proof. intros H w a. apply H. Qed.
#[global] Instance lists_blind_append : ListsBlind R → ListsAppend R.
Proof. intros H w r x. apply H. Qed.
#[global] Instance lists_blind_alloc : ListsBlind R → ListsAlloc R.
Proof. intros H w l. apply (H w (list_at _) l). Qed.
#[global] Instance dicts_blind_alloc : DictsBlind R → DictsAlloc R.
Proof. intros H w d. apply (H w (dict_at _) d). Qed.
End Stable.

Create HintDb stable discriminated.
#[global] Hint Resolve stable_ret stable_raise stable_read stable_emit
  analyser_of_stable axes_of_stable read_list_stable read_dict_stable
  update_analyser_stable update_axes_stable new_axes_stable copy_axes_stable
  write_list_stable new_list_stable write_dict_stable new_dict_stable : stable.
#[global] Hint Extern 1 (PreOrder _) => apply _ : stable.
#[global] Hint Extern 1 (AnalysersBlindTo _ _) => apply _ : stable.
#[global] Hint Extern 1 (AxesBlindTo _ _) => apply _ : stable.
#[global] Hint Extern 1 (AxesAlloc _) => apply _ : stable.
#[global] Hint Extern 1 (AxesCopy _) => apply _ : stable.
#[global] Hint Extern 1 (ListsBlind _) => apply _ : stable.
#[global] Hint Extern 1 (ListsAppend _) => apply _ : stable.
#[global] Hint Extern 1 (ListsAlloc _) => apply _ : stable.
#[global] Hint Extern 1 (DictsBlind _) => apply _ : stable.
#[global] Hint Extern 1 (DictsAlloc _) => apply _ : stable.

(** Taking a block apart: binds, loops and case distinctions, down to the
    blocks and the reads and writes already known to keep the relation. *)
Ltac stable_step :=
  first
    [ solve [auto 3 with stable]
    | apply stable_bind; [| |intros]
    | apply stable_for_each; [|intros]
    | apply stable_fold_each; [|intros]
    | apply and_then_stable; [|]
    | apply and_then'_stable; [| |]
    | apply call_with_stable; [|intros]
    | progress cbv beta
    | match goal with
      | |- PreOrder _ => apply _
      | |- stable _ (match ?x with _ => _ end) => destruct x
      | |- stable _ ((match ?x with _ => _ end) _) => destruct x
      end ].
Ltac stable_tac := repeat stable_step.

(** What a run that returns went through. *)
Lemma bind_Return {A B} (m : M A) (k : A → M B) w w' evs b :
  bind m k w = Run w' evs (Return b) →
  ∃ w1 e1 a e2, m w = Run w1 e1 (Return a) ∧ k a w1 = Run w' e2 (Return b)
                ∧ evs = e1 ++ e2.
Proof.
  unfold bind. destruct (m w) as [w1 e1 [a|e]]; [|discriminate].
  destruct (k a w1) as [w2 e2 o] eqn:Hk. simpl. intros [= <- <- ->].
  by exists w1, e1, a, e2.
Qed.

Lemma stable_run {A} (R : relation world) (m : M A) w w' evs o :
  stable R m → m w = Run w' evs o → R w w'.
Proof. intros Hm Hw. specialize (Hm w). by rewrite Hw in Hm. Qed.

Lemma emits_run {A} q (m : M A) w w' evs o :
  emits q m → m w = Run w' evs o → forallb q evs = true.
Proof. intros Hm Hw. specialize (Hm w). by rewrite Hw in Hm. Qed.

(** A view shows nothing of events that are hidden from it. *)
Lemma project_hidden {X} (view : event → list X) evs :
  forallb (hidden view) evs = true → project view evs = [].
Proof.
  induction evs as [|e evs IH]; [done|]. simpl. intros [He Hevs]%andb_true_iff.
  unfold project in *. simpl. rewrite IH by done. unfold hidden in He.
  by destruct (view e).
Qed.

Lemma project_app {X} (view : event → list X) e1 e2 :
  project view (e1 ++ e2) = project view e1 ++ project view e2.
Proof. unfold project. apply bind_app. Qed.

(** *** The blocks keep what their writes keep *)

Section Blocks.
Context (R : relation world) `{!PreOrder R}.
Variable get_3d_vectors :
  aid → analyser → string → pyval → pyval → pyval → pyval → option vectorfield.
Variable field_error :
  list vec3 → list vec3 → list vec3 → list vec3 → pyval → option (list float).
Variable np_mean : list float → float.

Lemma truthy_stable v : stable R (truthy v).
Proof. unfold truthy. stable_tac. Qed.

Lemma len_stable v : stable R (len v).
Proof. unfold len. stable_tac. Qed.

Lemma iter_stable v : stable R (iter v).
Proof. unfold iter. stable_tac. Qed.
Hint Resolve truthy_stable len_stable iter_stable : stable.

Lemma getitem_stable v i : stable R (getitem v i).
Proof. unfold getitem. stable_tac. Qed.
Hint Resolve getitem_stable : stable.

Lemma unpack2_stable v : stable R (unpack2 v).
Proof. unfold unpack2. stable_tac. Qed.

Lemma as_axes_stable v : stable R (as_axes v).
Proof. unfold as_axes. stable_tac. Qed.

Lemma number_stable v : stable R (number v).
Proof. unfold number. stable_tac. Qed.
Hint Resolve as_axes_stable number_stable : stable.

Lemma lt_stable a b : stable R (lt a b).
Proof. unfold lt. stable_tac. Qed.

Lemma mapping_stable d e : stable R (mapping d e).
Proof. unfold mapping. stable_tac. Qed.

Lemma first_part_stable a : stable R (first_part a).
Proof. unfold first_part. stable_tac. Qed.

Lemma np_min_max_stable v : stable R (np_min_max v).
Proof. unfold np_min_max. stable_tac. Qed.

Lemma as_str_stable v e : stable R (as_str v e).
Proof. unfold as_str. stable_tac. Qed.

Lemma getitem_last_stable v : stable R (getitem_last v).
Proof. unfold getitem_last. stable_tac. Qed.

Lemma panel_of_stable axes f : stable R (panel_of axes f).
Proof. unfold panel_of. stable_tac. Qed.

Lemma np_concatenate_stable l : stable R (np_concatenate l).
Proof. unfold np_concatenate. stable_tac. Qed.

Lemma pick_color_stable c e i : stable R (pick_color c e i).
Proof. unfold pick_color. stable_tac. Qed.
Hint Resolve unpack2_stable lt_stable mapping_stable first_part_stable
  np_min_max_stable as_str_stable getitem_last_stable panel_of_stable
  np_concatenate_stable pick_color_stable : stable.

Lemma vectormap_kind_stable self ar at_ i :
  stable R (vectormap_kind self ar at_ i).
Proof. unfold vectormap_kind. stable_tac. Qed.

Lemma _set_analyser_attributes_none o s r :
  stable R (_set_analyser_attributes o s r []).
Proof. unfold _set_analyser_attributes. simpl. stable_tac. Qed.

Lemma draw_stable f ax args : stable R (draw f ax args).
Proof. unfold draw. stable_tac. Qed.
Hint Resolve vectormap_kind_stable _set_analyser_attributes_none draw_stable
  : stable.

Lemma colorbar_text_stable cax ps i label :
  stable R (colorbar_text cax ps i label).
Proof. unfold colorbar_text. stable_tac. Qed.

Lemma in_optimal_ranges_stable rs v mark : stable R (in_optimal_ranges rs v mark).
Proof. unfold in_optimal_ranges. stable_tac. Qed.

Lemma call_get_3d_vectors_stable a eye c r s v :
  stable R (call_get_3d_vectors get_3d_vectors a eye c r s v).
Proof. unfold call_get_3d_vectors. stable_tac. Qed.

Lemma call_field_error_stable pA vA pB vB c :
  stable R (call_field_error field_error pA vA pB vB c).
Proof. unfold call_field_error. stable_tac. Qed.
Hint Resolve colorbar_text_stable in_optimal_ranges_stable
  call_get_3d_vectors_stable call_field_error_stable : stable.

Lemma differencemap_eye_stable m1 m2 ax c r acc eye :
  stable R (differencemap_eye get_3d_vectors field_error m1 m2 ax c r acc eye).
Proof. unfold differencemap_eye. stable_tac. Qed.
Hint Resolve differencemap_eye_stable : stable.

(** Writes of lists and dicts *)
Lemma append_stable `{!ListsAppend R} v x : stable R (append v x).
Proof.
  destruct v; try solve [unfold append; auto with stable].
  intros w. apply lists_append.
Qed.

Lemma list_insert_stable `{!ListsBlind R} v i x : stable R (list_insert v i x).
Proof. unfold list_insert. stable_tac. Qed.

Lemma setitem_at_stable `{!ListsBlind R} v i x : stable R (setitem_at v i x).
Proof. unfold setitem_at. stable_tac. Qed.
Hint Resolve append_stable list_insert_stable setitem_at_stable : stable.

Lemma setitem_last_stable `{!ListsBlind R} v x : stable R (setitem_last v x).
Proof. unfold setitem_last. stable_tac. Qed.

Lemma setitem_stable `{!DictsBlind R} d k v : stable R (setitem d k v).
Proof. unfold setitem. stable_tac. Qed.
Hint Resolve setitem_last_stable setitem_stable : stable.

(** The renderers and the orchestrators *)
Lemma differencemap_colorbar_block_stable
    `{!AxesAlloc R, !AxesBlindTo R set_differencemap_colorbar} ax p :
  stable R (differencemap_colorbar_block ax p).
Proof. unfold differencemap_colorbar_block. stable_tac. Qed.
Hint Resolve differencemap_colorbar_block_stable : stable.

Lemma plot_3d_vectormap_stable
    `{!AnalysersBlindTo R set_vector_rotation, !ListsAppend R, !AxesAlloc R}
    manalyser given :
  stable R (plot_3d_vectormap get_3d_vectors manalyser given).
Proof. unfold plot_3d_vectormap. stable_tac. Qed.

Lemma plot_3d_differencemap_stable
    `{!AnalysersBlindTo R set_vector_rotation, !AnalysersBlindTo R set_pitch_rot,
      !AnalysersBlindTo R set_yaw_rot, !AnalysersBlindTo R set_roll_rot,
      !AxesAlloc R, !AxesBlindTo R set_differencemap_colorbar}
    m1 m2 given :
  stable R (plot_3d_differencemap get_3d_vectors field_error m1 m2 given).
Proof. unfold plot_3d_differencemap. stable_tac. Qed.
Hint Resolve plot_3d_vectormap_stable plot_3d_differencemap_stable : stable.

Lemma compare_illustration_stable
    `{!AxesAlloc R, !AxesBlindTo R set_extra_illustrate_ax} m1 m2 axes iax p :
  stable R (compare_illustration m1 m2 axes iax p).
Proof. unfold compare_illustration. stable_tac. Qed.

Lemma compare_new_axes_stable `{!AxesAlloc R, !ListsAlloc R} p :
  stable R (compare_new_axes p).
Proof. unfold compare_new_axes. stable_tac. Qed.

Lemma compare_flow_pitch_stable `{!AnalysersBlindTo R set_pitch_rot}
    m1 m2 at_ k1 k2 :
  stable R (compare_flow_pitch m1 m2 at_ k1 k2).
Proof. unfold compare_flow_pitch. stable_tac. Qed.
Hint Resolve compare_illustration_stable compare_new_axes_stable
  compare_flow_pitch_stable : stable.

Lemma compare_total_error_stable
    `{!AxesBlindTo R set_pupil_compare_errors,
      !AxesBlindTo R set_pupil_compare_rotations,
      !AxesBlindTo R set_pupil_compare_reverse_errors}
    axes iax p optimal errors reverse_errors :
  stable R (compare_total_error np_mean axes iax p optimal errors reverse_errors).
Proof. unfold compare_total_error. stable_tac. Qed.
Hint Resolve compare_total_error_stable : stable.

Lemma compare_3d_vectormaps_stable
    `{!AnalysersBlindTo R set_vector_rotation, !AnalysersBlindTo R set_pitch_rot,
      !AnalysersBlindTo R set_yaw_rot, !AnalysersBlindTo R set_roll_rot,
      !AnalysersBlindTo R set_constant_points,
      !ListsAppend R, !ListsAlloc R, !DictsBlind R,
      !AxesAlloc R, !AxesBlindTo R set_differencemap_colorbar,
      !AxesBlindTo R set_extra_illustrate_ax,
      !AxesBlindTo R set_pupil_compare_errors,
      !AxesBlindTo R set_pupil_compare_rotations,
      !AxesBlindTo R set_pupil_compare_reverse_errors}
    m1 m2 given :
  stable R (compare_3d_vectormaps get_3d_vectors field_error np_mean m1 m2 given).
Proof. unfold compare_3d_vectormaps. stable_tac. Qed.

Lemma deepcopy_stable `{!ListsAlloc R, !DictsAlloc R, !AxesCopy R} kwargs :
  stable R (deepcopy kwargs).
Proof. unfold deepcopy, deepcopy_value. stable_tac. Qed.
Hint Resolve compare_3d_vectormaps_stable deepcopy_stable : stable.

Lemma view_call_stable `{!ListsAlloc R, !DictsAlloc R, !AxesCopy R}
    axes biphasic naxes i view kwargs :
  stable R (view_call axes biphasic naxes i view kwargs).
Proof. unfold view_call. stable_tac. Qed.

Lemma manyviews_new_axes_stable
    `{!ListsAlloc R, !AxesAlloc R, !AxesBlindTo R set_illustrate_ax,
      !AxesBlindTo R set_error_ax, !AxesBlindTo R set_colorbar_ax,
      !AxesBlindTo R set_cbox} rows cols kwargs :
  stable R (manyviews_new_axes rows cols kwargs).
Proof. unfold manyviews_new_axes. stable_tac. Qed.

Lemma manyviews_titles_stable `{!ListsBlind R} args column_titles cols :
  stable R (manyviews_titles args column_titles cols).
Proof. unfold manyviews_titles. stable_tac. Qed.
Hint Resolve view_call_stable manyviews_new_axes_stable manyviews_titles_stable
  : stable.
End Blocks.

#[global] Hint Resolve truthy_stable len_stable
  iter_stable getitem_stable unpack2_stable as_axes_stable number_stable lt_stable
  mapping_stable first_part_stable np_min_max_stable as_str_stable
  getitem_last_stable panel_of_stable np_concatenate_stable pick_color_stable
  vectormap_kind_stable _set_analyser_attributes_none
  append_stable list_insert_stable setitem_at_stable setitem_last_stable
  setitem_stable
  draw_stable colorbar_text_stable in_optimal_ranges_stable
  call_get_3d_vectors_stable call_field_error_stable differencemap_eye_stable
  differencemap_colorbar_block_stable plot_3d_vectormap_stable
  plot_3d_differencemap_stable compare_illustration_stable
  compare_new_axes_stable compare_flow_pitch_stable
  compare_total_error_stable compare_3d_vectormaps_stable deepcopy_stable
  view_call_stable manyviews_new_axes_stable manyviews_titles_stable : stable.

(** *** The events the blocks emit *)

Section Emits.
Variable q : event → bool.

Lemma emits_ret {A} (a : A) : emits q (ret a).
Proof. done. Qed.
Lemma emits_raise {A} (e : exn) : emits q (@raise A e).
Proof. done. Qed.
Lemma emits_read {A} (f : world → A) : emits q (read f).
Proof. done. Qed.
Lemma emits_modify f : emits q (modify f).
Proof. done. Qed.
Lemma emits_emit e : q e = true → emits q (emit e).
Proof. intros He w. simpl. by rewrite He. Qed.

Lemma emits_bind {A B} (m : M A) (k : A → M B) :
  emits q m → (∀ a, emits q (k a)) → emits q (bind m k).
Proof.
  intros Hm Hk w. unfold bind. specialize (Hm w).
  destruct (m w) as [w1 e1 [a|e]]; simpl in *; [|done].
  rewrite forallb_app, Hm. apply Hk.
Qed.

Lemma emits_for_each {A} (l : list A) (body : A → M unit) :
  (∀ x, emits q (body x)) → emits q (for_each l body).
Proof.
  intros Hb. induction l as [|x l IH]; simpl.
  - apply emits_ret.
  - apply emits_bind; auto.
Qed.

Lemma emits_fold_each {A S} (l : list A) (s : S) (body : S → A → M S) :
  (∀ s x, emits q (body s x)) → emits q (fold_each l s body).
Proof.
  intros Hb. revert s. induction l as [|x l IH]; intros s; simpl.
  - apply emits_ret.
  - apply emits_bind; auto.
Qed.

Lemma and_then_emits a b : emits q b → emits q (and_then a b).
Proof. intros. destruct a; [done|apply emits_ret]. Qed.

Lemma and_then'_emits a b : emits q a → emits q b → emits q (and_then' a b).
Proof.
  intros. apply emits_bind; [done|]. intros. by apply and_then_emits.
Qed.

Lemma call_with_emits {A} (f : pydict → M A) ds :
  (∀ d, emits q (f d)) → emits q (call_with f ds).
Proof.
  intros. unfold call_with. destruct (join_kwargs ds); [done|apply emits_raise].
Qed.

Lemma new_axes_emits : emits q new_axes.
Proof. done. Qed.
Lemma copy_axes_emits a : emits q (copy_axes a).
Proof. done. Qed.
Lemma new_list_emits l : emits q (new_list l).
Proof. done. Qed.
Lemma new_dict_emits d : emits q (new_dict d).
Proof. done. Qed.
End Emits.

Create HintDb emits discriminated.
#[global] Hint Resolve emits_ret emits_raise emits_read emits_modify emits_emit
  new_axes_emits copy_axes_emits new_list_emits new_dict_emits : emits.

Ltac emits_step :=
  first
    [ solve [unfold analyser_of, axes_of, read_list, read_dict, update_analyser,
               update_axes, write_list, write_dict; auto 3 with emits]
    | apply emits_bind; [|intros]
    | apply emits_for_each; intros
    | apply emits_fold_each; intros
    | apply and_then_emits
    | apply and_then'_emits
    | apply call_with_emits; intros
    | progress cbv beta
    | match goal with
      | |- emits _ (match ?x with _ => _ end) => destruct x
      | |- emits _ ((match ?x with _ => _ end) _) => destruct x
      end ].
Ltac emits_tac := repeat emits_step.

Section EmittingBlocks.
Variable q : event → bool.
Variable get_3d_vectors :
  aid → analyser → string → pyval → pyval → pyval → pyval → option vectorfield.
Variable field_error :
  list vec3 → list vec3 → list vec3 → list vec3 → pyval → option (list float).
Variable np_mean : list float → float.

Lemma truthy_emits v : emits q (truthy v).
Proof. unfold truthy. emits_tac. Qed.
Lemma len_emits v : emits q (len v).
Proof. unfold len. emits_tac. Qed.
Lemma iter_emits v : emits q (iter v).
Proof. unfold iter. emits_tac. Qed.
Hint Resolve truthy_emits len_emits iter_emits : emits.
Lemma getitem_emits v i : emits q (getitem v i).
Proof. unfold getitem. emits_tac. Qed.
Hint Resolve getitem_emits : emits.
Lemma unpack2_emits v : emits q (unpack2 v).
Proof. unfold unpack2. emits_tac. Qed.
Lemma as_axes_emits v : emits q (as_axes v).
Proof. unfold as_axes. emits_tac. Qed.
Lemma number_emits v : emits q (number v).
Proof. unfold number. emits_tac. Qed.
Hint Resolve as_axes_emits number_emits : emits.
Lemma lt_emits a b : emits q (lt a b).
Proof. unfold lt. emits_tac. Qed.
Lemma mapping_emits d e : emits q (mapping d e).
Proof. unfold mapping. emits_tac. Qed.
Lemma first_part_emits a : emits q (first_part a).
Proof. unfold first_part. emits_tac. Qed.
Lemma np_min_max_emits v : emits q (np_min_max v).
Proof. unfold np_min_max. emits_tac. Qed.
Lemma as_str_emits v e : emits q (as_str v e).
Proof. unfold as_str. emits_tac. Qed.
Lemma getitem_last_emits v : emits q (getitem_last v).
Proof. unfold getitem_last. emits_tac. Qed.
Lemma panel_of_emits axes f : emits q (panel_of axes f).
Proof. unfold panel_of. emits_tac. Qed.
Lemma np_concatenate_emits l : emits q (np_concatenate l).
Proof. unfold np_concatenate. emits_tac. Qed.
Lemma pick_color_emits c e i : emits q (pick_color c e i).
Proof. unfold pick_color. emits_tac. Qed.
Hint Resolve unpack2_emits lt_emits mapping_emits first_part_emits
  np_min_max_emits as_str_emits getitem_last_emits panel_of_emits
  np_concatenate_emits pick_color_emits : emits.
Lemma vectormap_kind_emits self ar at_ i : emits q (vectormap_kind self ar at_ i).
Proof. unfold vectormap_kind. emits_tac. Qed.
Lemma _set_analyser_attributes_emits o s r :
  emits q (_set_analyser_attributes o s r []).
Proof. unfold _set_analyser_attributes. simpl. emits_tac. Qed.
Lemma append_emits v x : emits q (append v x).
Proof. unfold append. emits_tac. Qed.
Lemma list_insert_emits v i x : emits q (list_insert v i x).
Proof. unfold list_insert. emits_tac. Qed.
Lemma setitem_at_emits v i x : emits q (setitem_at v i x).
Proof. unfold setitem_at. emits_tac. Qed.
Hint Resolve vectormap_kind_emits _set_analyser_attributes_emits append_emits
  list_insert_emits setitem_at_emits : emits.
Lemma setitem_last_emits v x : emits q (setitem_last v x).
Proof. unfold setitem_last. emits_tac. Qed.
Lemma setitem_emits d k v : emits q (setitem d k v).
Proof. unfold setitem. emits_tac. Qed.
Lemma compare_new_axes_emits p : emits q (compare_new_axes p).
Proof. unfold compare_new_axes. emits_tac. Qed.
Lemma compare_flow_pitch_emits m1 m2 at_ k1 k2 :
  emits q (compare_flow_pitch m1 m2 at_ k1 k2).
Proof. unfold compare_flow_pitch. emits_tac. Qed.
Lemma deepcopy_emits kwargs : emits q (deepcopy kwargs).
Proof. unfold deepcopy, deepcopy_value. emits_tac. Qed.
Lemma manyviews_titles_emits args column_titles cols :
  emits q (manyviews_titles args column_titles cols).
Proof. unfold manyviews_titles. emits_tac. Qed.
Hint Resolve setitem_last_emits setitem_emits compare_new_axes_emits
  compare_flow_pitch_emits deepcopy_emits manyviews_titles_emits : emits.
Lemma view_call_emits axes biphasic naxes i view kwargs :
  emits q (view_call axes biphasic naxes i view kwargs).
Proof. unfold view_call. emits_tac. Qed.
Hint Resolve view_call_emits : emits.

(** The events of each kind *)
Hypothesis q_draw : ∀ f a args, q (Draw f a args) = true.

Lemma draw_emits f ax args : emits q (draw f ax args).
Proof. unfold draw. emits_tac. Qed.
Hint Resolve draw_emits : emits.
Lemma colorbar_text_emits cax ps i label : emits q (colorbar_text cax ps i label).
Proof. unfold colorbar_text. emits_tac. Qed.
Lemma in_optimal_ranges_emits rs v mark : emits q (in_optimal_ranges rs v mark).
Proof. unfold in_optimal_ranges. emits_tac. Qed.
Lemma compare_illustration_emits m1 m2 axes iax p :
  emits q (compare_illustration m1 m2 axes iax p).
Proof. unfold compare_illustration. emits_tac. Qed.
Lemma compare_total_error_emits axes iax p optimal errors reverse_errors :
  emits q (compare_total_error np_mean axes iax p optimal errors reverse_errors).
Proof. unfold compare_total_error. emits_tac. Qed.
Lemma manyviews_new_axes_emits rows cols kwargs :
  emits q (manyviews_new_axes rows cols kwargs).
Proof. unfold manyviews_new_axes. emits_tac. Qed.
Hint Resolve colorbar_text_emits in_optimal_ranges_emits compare_illustration_emits
  compare_total_error_emits manyviews_new_axes_emits : emits.

Hypothesis q_extraction :
  ∀ a self eye c r s v, q (get_3d_vectors_call a self eye c r s v) = true.

Lemma call_get_3d_vectors_emits a eye c r s v :
  emits q (call_get_3d_vectors get_3d_vectors a eye c r s v).
Proof. unfold call_get_3d_vectors. emits_tac. Qed.
Hint Resolve call_get_3d_vectors_emits : emits.

Section Vectormap.
Hypothesis q_rhabdomeres :
  ∀ a p v m c, q (add_rhabdomeres_call a p v m c) = true.
Hypothesis q_line : ∀ a p v c col, q (add_line_call a p v c col) = true.
Hypothesis q_vector_plot : ∀ a f c p, q (vector_plot_call a f c p) = true.
Hypothesis q_vectormap : ∀ l p k, q (Call "plot_3d_vectormap" l p k) = true.

Lemma plot_3d_vectormap_emits manalyser given :
  emits q (plot_3d_vectormap get_3d_vectors manalyser given).
Proof. unfold plot_3d_vectormap. emits_tac. Qed.
End Vectormap.

Section Differencemap.
Hypothesis q_field : ∀ pA vA pB vB c, q (field_error_call pA vA pB vB c) = true.
Hypothesis q_surface : ∀ a p e phi, q (surface_plot_call a p e phi) = true.

Lemma call_field_error_emits pA vA pB vB c :
  emits q (call_field_error field_error pA vA pB vB c).
Proof. unfold call_field_error. emits_tac. Qed.
Hint Resolve call_field_error_emits : emits.

Lemma differencemap_eye_emits m1 m2 ax c r acc eye :
  emits q (differencemap_eye get_3d_vectors field_error m1 m2 ax c r acc eye).
Proof. unfold differencemap_eye. emits_tac. Qed.
End Differencemap.
End EmittingBlocks.

#[global] Hint Resolve truthy_emits len_emits iter_emits getitem_emits
  unpack2_emits as_axes_emits number_emits lt_emits mapping_emits first_part_emits
  np_min_max_emits as_str_emits getitem_last_emits panel_of_emits
  np_concatenate_emits pick_color_emits vectormap_kind_emits
  _set_analyser_attributes_emits append_emits list_insert_emits setitem_at_emits
  setitem_last_emits setitem_emits compare_new_axes_emits compare_flow_pitch_emits
  deepcopy_emits manyviews_titles_emits view_call_emits : emits.

(** *** The relations *)

#[global] Instance same_analysers_preorder : PreOrder same_analysers.
Proof.
  split; [done|]. intros w1 w2 w3 H12 H23. unfold same_analysers in *. congruence.
Qed.
#[global] Instance same_analysers_axes : AxesBlind same_analysers.
Proof. done. Qed.
#[global] Instance same_analysers_lists : ListsBlind same_analysers.
Proof. by intros w []. Qed.
#[global] Instance same_analysers_dicts : DictsBlind same_analysers.
Proof. by intros w []. Qed.

#[global] Instance same_objects_preorder : PreOrder same_objects.
Proof.
  split; [done|]. unfold same_objects.
  intros w1 w2 w3 (?&?&?&?&?) (?&?&?&?&?). repeat split; congruence.
Qed.
#[global] Instance same_objects_axes : AxesBlind same_objects.
Proof. done. Qed.
#[global] Instance same_objects_analysers : AnalysersBlind same_objects.
Proof. done. Qed.

#[global] Instance same_tilt_preorder : PreOrder same_tilt.
Proof.
  split; [done|]. unfold same_tilt. intros w1 w2 w3 H12 H23 a.
  destruct (H12 a) as (?&?&?), (H23 a) as (?&?&?). repeat split; congruence.
Qed.
#[global] Instance same_tilt_axes : AxesBlind same_tilt.
Proof. done. Qed.
#[global] Instance same_tilt_lists : ListsBlind same_tilt.
Proof. by intros w []. Qed.
#[global] Instance same_tilt_dicts : DictsBlind same_tilt.
Proof. by intros w []. Qed.
#[global] Instance same_tilt_rotation : AnalysersBlindTo same_tilt set_vector_rotation.
Proof.
  intros w a v a'. cbn [analysers with_analysers].
  destruct (decide (a = a')) as [->|]; [by rewrite fn_lookup_insert|].
  by rewrite fn_lookup_insert_ne.
Qed.

Lemma truthy_same_objects v w1 w2 w1' w2' e1 e2 b1 b2 :
  same_objects w1 w2 →
  truthy v w1 = Run w1' e1 (Return b1) → truthy v w2 = Run w2' e2 (Return b2) →
  b1 = b2.
Proof.
  intros (Hl & Hd & Ha & Ht & Hk).
  destruct v; simpl; try congruence;
    unfold bind, read_list, read_dict, read, list_obj, dict_obj, ret; simpl;
    match goal with r : _ |- _ => destruct r end;
    rewrite ?Hl, ?Ha, ?Ht, ?Hd, ?Hk; congruence.
Qed.

Lemma truthy_world v w w' evs b :
  truthy v w = Run w' evs (Return b) → w' = w ∧ evs = [].
Proof.
  destruct v; simpl; unfold bind, read_list, read_dict, read, ret; simpl;
    intros [= <- <- _]; done.
Qed.

(** *** Going through a run that returned *)

Ltac split_pairs H :=
  repeat match type of H with
         | (let '(_, _) := ?x in _) _ = _ => destruct x; cbv beta iota in H
         end.

(** The first computation of a bind: the store it left, the events it
    emitted and its value. *)
Tactic Notation "step" hyp(H) "as" ident(w1) ident(e1) ident(a) ident(H1) :=
  let e2 := fresh "rest" in
  let E := fresh "E" in
  apply bind_Return in H as (w1 & e1 & a & e2 & H1 & H & E);
  cbv beta in H; split_pairs H;
  match type of E with ?x = _ => first [subst x | rewrite E in *; clear E] end.

Ltac kept R H :=
  apply (stable_run R) in H; [|solve [stable_tac]].

(** A step that keeps the relation [R]. *)
Ltac inv_kept R H :=
  let w1 := fresh "w" in
  let e1 := fresh "evs" in
  let a := fresh "a" in
  let H1 := fresh "Hkept" in
  step H as w1 e1 a H1; kept R H1.

(** A step that keeps both relations. *)
Ltac inv_both R1 R2 H :=
  let w1 := fresh "w" in
  let e1 := fresh "evs" in
  let a := fresh "a" in
  let H1 := fresh "Hkept" in
  let H2 := fresh "Hkept" in
  step H as w1 e1 a H1;
  pose proof H1 as H2; kept R1 H1; kept R2 H2.

(** *** The transform state around a plotting call *)

Section Restore.
Variable get_3d_vectors :
  aid → analyser → string → pyval → pyval → pyval → pyval → option vectorfield.
Variable field_error :
  list vec3 → list vec3 → list vec3 → list vec3 → pyval → option (list float).

(** [plot_3d_vectormap] that returns leaves [vector_rotation] as it
    found it. *)
Lemma plot_3d_vectormap_restores manalyser given w w' evs r :
  plot_3d_vectormap get_3d_vectors manalyser given w = Run w' evs (Return r) →
  vector_rotation (analysers w' manalyser) = vector_rotation (analysers w manalyser).
Proof.
  unfold plot_3d_vectormap.
  destruct (bind_params _ _ _ _ _) as [[p kwargs]|]; [|discriminate].
  intros H.
  do 6 inv_kept same_analysers H.
  step H as wa ea self Hself. injection Hself as <- <- <-.
  do 3 inv_kept same_analysers H.
  step H as wb eb ub Hb. step H as wc ec uc Hc. step H as wd ed ud Hd.
  step H as we ee ue Hrestore. injection Hrestore as <- <- _.
  kept same_analysers H.
  unfold same_analysers in *. rewrite H. cbn [analysers with_analysers].
  rewrite fn_lookup_insert. cbn [vector_rotation set_vector_rotation]. congruence.
Qed.

(** A guarded write of one attribute of an analyser. *)
Lemma guarded_update (c : bool) a f w w' evs u :
  (if c then update_analyser a f else ret tt) w = Run w' evs (Return u) →
  same_objects w w'
  ∧ analysers w' a = if c then f (analysers w a) else analysers w a.
Proof.
  destruct c; intros [= <- <-]; split; try done.
  cbn [analysers with_analysers]. by rewrite fn_lookup_insert.
Qed.

(** [plot_3d_differencemap] that returns leaves [vector_rotation] of the
    second analyser as it found it, and each tilt at the override it was
    given, if any. *)
Lemma plot_3d_differencemap_transform m1 m2 given p rest w w' evs r :
  bind_params ["manalyser1"; "manalyser2"] plot_3d_differencemap_params []
    false given = Some (p, rest) →
  plot_3d_differencemap get_3d_vectors field_error m1 m2 given w
  = Run w' evs (Return r) →
  vector_rotation (analysers w' m2) = vector_rotation (analysers w m2)
  ∧ pitch_rot (analysers w' m2)
    = (if is_None (arg p "pitch_rot") then pitch_rot (analysers w m2)
       else arg p "pitch_rot")
  ∧ yaw_rot (analysers w' m2)
    = (if is_None (arg p "yaw_rot") then yaw_rot (analysers w m2)
       else arg p "yaw_rot")
  ∧ roll_rot (analysers w' m2)
    = (if is_None (arg p "roll_rot") then roll_rot (analysers w m2)
       else arg p "roll_rot").
Proof.
  unfold plot_3d_differencemap. intros ->. intros H.
  step H as wa ea ua Ha. kept same_analysers Ha.
  step H as wb eb ax Hb. kept same_analysers Hb.
  step H as wc ec override Htruthy.
  pose proof (truthy_world _ _ _ _ _ Htruthy) as [-> ->].
  step H as wd ed original Horiginal.
  step H as we ee ue Hpitch. apply guarded_update in Hpitch as [Ho1 Hpitch].
  step H as wf ef uf Hyaw. apply guarded_update in Hyaw as [Ho2 Hyaw].
  step H as wg eg ug Hroll. apply guarded_update in Hroll as [Ho3 Hroll].
  assert (∃ wh override', same_analysers wg wh ∧ same_objects wg wh
            ∧ truthy (arg p "arrow_rotations") wh = Run wh [] (Return override')
            ∧ ∃ wi ei ui,
                (if override'
                 then match original with
                      | Some r => update_analyser m2 (set_vector_rotation r)
                      | None => raise NameError
                      end
                 else ret tt) wh = Run wi ei (Return ui)
                ∧ same_analysers wi w')
    as (wh & override' & Hmid & Hobj & Htruthy' & wi & ei & ui & Hrestore & Hend).
  { do 5 inv_both same_analysers same_objects H.
    step H as wh eh override' Htruthy'.
    pose proof (truthy_world _ _ _ _ _ Htruthy') as [-> ->].
    step H as wi ei ui Hrestore. kept same_analysers H.
    do 2 eexists. split_and!; cycle 2.
    { exact Htruthy'. }
    { eauto. }
    - repeat (etrans; [eassumption|]). reflexivity.
    - repeat (etrans; [eassumption|]). reflexivity. }
  clear H.
  assert (Horig : same_objects wb wd
          ∧ analysers wd m2 = (if override
            then set_vector_rotation (vector_rotation (analysers wd m2)) (analysers w m2)
            else analysers w m2)
          ∧ original = if override then Some (vector_rotation (analysers w m2)) else None).
  { unfold same_analysers in *. destruct override.
    - step Horiginal as wx ex self Hself. injection Hself as <- <- <-.
      step Horiginal as wy ey r0 Hr0. pose proof Hr0 as Hr0'.
      kept same_analysers Hr0. kept same_objects Hr0'.
      step Horiginal as wz ez uz Hset. injection Hset as <- <-.
      injection Horiginal as <- _ <-. cbn [analysers with_analysers].
      rewrite fn_lookup_insert. unfold same_analysers in *.
      rewrite Hr0, Hb, Ha. by split_and!.
    - injection Horiginal as <- _ <-. by rewrite Hb, Ha. }
  destruct Horig as (Ho0 & Horig & ->).
  assert (override = override') as <-.
  { eapply truthy_same_objects; [|exact Htruthy|exact Htruthy'].
    repeat (etrans; [eassumption|]). reflexivity. }
  unfold same_analysers in *.
  assert (Hlast : analysers wi m2 = (if override
            then set_vector_rotation (vector_rotation (analysers w m2)) (analysers wh m2)
            else analysers wh m2)).
  { destruct override.
    - injection Hrestore as <- _. cbn [analysers with_analysers].
      by rewrite fn_lookup_insert.
    - by injection Hrestore as <- _. }
  rewrite Hend, Hlast, Hmid, Hroll, Hyaw, Hpitch, Horig.
  generalize (arg p "pitch_rot") (arg p "yaw_rot") (arg p "roll_rot").
  intros pitch yaw roll. clear.
  by destruct override, (is_None pitch), (is_None yaw), (is_None roll).
Qed.
End Restore.

(** *** Lists after a write *)

Lemma list_obj_set_list r l w : list_obj (set_list r l w) r = l.
Proof. destruct r; simpl; [done..|]. by rewrite lookup_insert_eq. Qed.

Lemma list_obj_same_objects r w w' : same_objects w w' → list_obj w' r = list_obj w r.
Proof. intros (Hl & _ & Ha & Ht & _). destruct r; simpl; congruence. Qed.

Lemma run_eta {A} (r : run A) : r = Run (final r) (emitted r) (result r).
Proof. by destruct r. Qed.

Lemma len_PList_run r w w' e n :
  len (PList r) w = Run w' e (Return n) →
  w' = w ∧ e = [] ∧ n = length (list_obj w r).
Proof. by intros [= <- <- <-]. Qed.

Lemma getitem_PList_run r i w w' e x :
  getitem (PList r) i w = Run w' e (Return x) →
  w' = w ∧ e = [] ∧ list_obj w r !! i = Some x.
Proof.
  unfold getitem, iter, bind, read_list, read. simpl.
  destruct (list_obj w r !! i); [|discriminate]. by intros [= <- <- <-].
Qed.

Section Append.
Variable get_3d_vectors :
  aid → analyser → string → pyval → pyval → pyval → pyval → option vectorfield.

(** Lines 216-229 on an analyser of the class OAnalyser with the one
    rotation 0, or on an averager of such analysers. *)
Lemma vectormap_kind_OAnalyser self arrow_rotations animation_type i_frame r w
    w' evs kind :
  arrow_rotations = PList r →
  list_obj w r = [PInt 0] →
  class_name self = "OAnalyser"
  ∨ (class_name self = "MAverager"
     ∧ ∃ parts, manalysers self = Some parts
                ∧ forallb (λ part, String.eqb (part_class part) "OAnalyser") parts
                  = true) →
  vectormap_kind self arrow_rotations animation_type i_frame w
  = Run w' evs (Return kind) →
  w' = w ∧ kind.1.1 = "OAnalyser".
Proof.
  intros -> Hl Hclass H. unfold vectormap_kind in H.
  step H as w1 e1 is_o Hiso.
  assert (w1 = w ∧ is_o = String.eqb (class_name self) "OAnalyser")
    as [-> ->].
  { destruct (String.eqb (class_name self) "OAnalyser"); simpl in Hiso.
    - step Hiso as w2 e2 n Hn. apply len_PList_run in Hn as (-> & -> & ->).
      rewrite Hl in Hiso. simpl in Hiso.
      step Hiso as w3 e3 r0 Hr0. apply getitem_PList_run in Hr0 as (-> & -> & Hr0).
      rewrite Hl in Hr0. injection Hr0 as <-. by injection Hiso as <- _ <-.
    - by injection Hiso as <- _ <-. }
  destruct Hclass as [Hc|(Hc & parts & Hm & Hparts)]; rewrite Hc in H; simpl in H.
  - by injection H as <- _ <-.
  - rewrite Hm, Hparts in H. by injection H as <- _ <-.
Qed.

Lemma plot_3d_vectormap_appends manalyser given p kwargs r w w' evs res :
  bind_params ["manalyser"] plot_3d_vectormap_params [] true given
  = Some (p, kwargs) →
  arg p "arrow_rotations" = PList r →
  list_obj w r = [PInt 0] →
  class_name (analysers w manalyser) = "OAnalyser"
  ∨ (class_name (analysers w manalyser) = "MAverager"
     ∧ ∃ parts, manalysers (analysers w manalyser) = Some parts
                ∧ forallb (λ part, String.eqb (part_class part) "OAnalyser") parts
                  = true) →
  plot_3d_vectormap get_3d_vectors manalyser given w = Run w' evs (Return res) →
  list_obj w' r = [PInt 0; PInt 29].
Proof.
  intros Hp Har Hl Hclass. unfold plot_3d_vectormap. rewrite Hp. intros H.
  step H as wa ea ua Ha. injection Ha as <- <-.
  step H as wb eb self Hself. injection Hself as <- <- <-.
  step H as wc ec kind Hkind.
  eapply vectormap_kind_OAnalyser in Hkind as [-> Hkind]; [|done..].
  simpl in Hkind. subst.
  step H as wd ed ud Hd. injection Hd as <- <-.
  step H as we ee ue Happend.
  rewrite Har in Happend. cbn [String.eqb Ascii.eqb Bool.eqb] in Happend.
  step Happend as w1 e1 r0 Hr0. apply getitem_PList_run in Hr0 as (-> & -> & Hr0).
  rewrite Hl in Hr0. injection Hr0 as <-.
  step Happend as w2 e2 single_zero Hsingle. simpl in Hsingle.
  step Hsingle as w3 e3 n Hn. apply len_PList_run in Hn as (-> & -> & ->).
  rewrite Hl in Hsingle. injection Hsingle as <- _ <-. simpl in Happend.
  injection Happend as <- _.
  kept same_objects H.
  by rewrite (list_obj_same_objects _ _ _ H), list_obj_set_list, Hl.
Qed.
End Append.

(** ** Parameters a function does not read *)

Lemma dict_get_keys k p1 p2 :
  p1.*1 = p2.*1 → is_Some (dict_get k p1) ↔ is_Some (dict_get k p2).
Proof.
  revert p2. induction p1 as [|[k1 v1] p1 IH]; intros [|[k2 v2] p2] H;
    try discriminate; [done|].
  simpl in H. injection H as -> H. simpl.
  destruct (String.eqb k k2); [by split; eauto|by apply IH].
Qed.

Lemma dict_has_keys k p1 p2 : p1.*1 = p2.*1 → dict_has k p1 = dict_has k p2.
Proof.
  intros H. apply (dict_get_keys k) in H. unfold dict_has.
  destruct (dict_get k p1), (dict_get k p2); try done.
  - destruct H as [H _]. by destruct H.
  - destruct H as [_ H]. by destruct H.
Qed.

Lemma dict_set_keys k v1 v2 p1 p2 :
  p1.*1 = p2.*1 → (dict_set k v1 p1).*1 = (dict_set k v2 p2).*1.
Proof.
  revert p2. induction p1 as [|[k1 w1] p1 IH]; intros [|[k2 w2] p2] H;
    try discriminate; [done|].
  simpl in H. injection H as -> H. simpl.
  destruct (String.eqb k k2); simpl; f_equal; [done|by apply IH].
Qed.

Lemma dict_get_set k' k v p :
  dict_get k' (dict_set k v p) = if String.eqb k' k then Some v else dict_get k' p.
Proof.
  induction p as [|[k1 v1] p IH]; simpl; [done|].
  destruct (String.eqb k k1) eqn:Hk; simpl.
  - apply String.eqb_eq in Hk as ->. by destruct (String.eqb k' k1).
  - destruct (String.eqb k' k1) eqn:Hk'; [|done].
    apply String.eqb_eq in Hk' as ->. by rewrite String.eqb_sym, Hk.
Qed.

Lemma agree_off_set names k v p1 p2 :
  agree_off names p1 p2 → agree_off names (dict_set k v p1) (dict_set k v p2).
Proof.
  intros [Hk Hv]. split; [by apply dict_set_keys|].
  intros k' Hk'. rewrite !dict_get_set. destruct (String.eqb k' k); auto.
Qed.

Lemma agree_off_arg names p1 p2 k :
  agree_off names p1 p2 → k ∉ names → arg p1 k = arg p2 k.
Proof. intros [_ H] Hk. unfold arg, dict_get_default. by rewrite H. Qed.

Lemma bind_params_agree names positional varkw given :
  ∀ p1 p2 rest, agree_off names p1 p2 →
  match bind_params positional p1 rest varkw given,
        bind_params positional p2 rest varkw given with
  | Some (q1, r1), Some (q2, r2) => agree_off names q1 q2 ∧ r1 = r2
  | None, None => True
  | _, _ => False
  end.
Proof.
  induction given as [|[k v] given IH]; intros p1 p2 rest H; simpl; [done|].
  destruct (existsb _ positional); [done|].
  rewrite (dict_has_keys k p1 p2) by apply H.
  destruct (dict_has k p2).
  - apply IH. by apply agree_off_set.
  - destruct varkw; [by apply IH|done].
Qed.

Lemma emit_bind_run {A} e (k : M A) w :
  (emit e;; k) w = Run (final (k w)) (e :: emitted (k w)) (result (k w)).
Proof. reflexivity. Qed.

Lemma compare_params_agree k1 k2 k1' k2' :
  agree_off ["kwargs1"; "kwargs2"]
    (dict_set "kwargs2" k2 (dict_set "kwargs1" k1 compare_3d_vectormaps_params))
    (dict_set "kwargs2" k2' (dict_set "kwargs1" k1' compare_3d_vectormaps_params)).
Proof.
  split; [reflexivity|]. intros k Hk. rewrite !dict_get_set.
  destruct (String.eqb_spec k "kwargs2") as [->|_]; [set_solver|].
  destruct (String.eqb_spec k "kwargs1") as [->|_]; [set_solver|]. done.
Qed.

Lemma compare_3d_vectormaps_agree get_3d_vectors field_error np_mean m1 m2
    k1 k2 k1' k2' given w :
  let r := compare_3d_vectormaps get_3d_vectors field_error np_mean m1 m2
             (("kwargs1", k1) :: ("kwargs2", k2) :: given) w in
  let r' := compare_3d_vectormaps get_3d_vectors field_error np_mean m1 m2
              (("kwargs1", k1') :: ("kwargs2", k2') :: given) w in
  final r = final r' ∧ result r = result r'
  ∧ (emitted r = [] ∧ emitted r' = []
     ∨ ∃ p p' kwargs rest,
         emitted r = Call "compare_3d_vectormaps" [m1; m2] p kwargs :: rest
         ∧ emitted r' = Call "compare_3d_vectormaps" [m1; m2] p' kwargs :: rest
         ∧ agree_off ["kwargs1"; "kwargs2"] p p').
Proof.
  intros r r'. subst r r'. unfold compare_3d_vectormaps.
  change (bind_params ?pos compare_3d_vectormaps_params [] true
            (("kwargs1", ?a) :: ("kwargs2", ?b) :: given))
    with (bind_params pos
            (dict_set "kwargs2" b (dict_set "kwargs1" a compare_3d_vectormaps_params))
            [] true given).
  pose proof (bind_params_agree _ ["manalyser1"; "manalyser2"] true given _ _ []
                (compare_params_agree k1 k2 k1' k2')) as Hagree.
  destruct (bind_params _ _ _ _ _) as [[p kwargs]|].
  - destruct (bind_params _ _ _ _ _) as [[p' kwargs']|]; [|done].
    destruct Hagree as [Hagree <-].
    assert (∀ k, existsb (String.eqb k) ["kwargs1"; "kwargs2"] = false
                 → arg p k = arg p' k) as Harg.
    { intros k Hk. eapply agree_off_arg; [done|]. intros Hin.
      apply not_true_iff_false in Hk. apply Hk, existsb_exists.
      exists k. split; [by apply list_elem_of_In|apply String.eqb_refl]. }
    rewrite !emit_bind_run. cbn [final emitted result].
    unfold compare_new_axes, compare_illustration, compare_total_error.
    repeat match goal with
    | |- context [arg p ?k] => rewrite (Harg k eq_refl)
    end.
    split_and!; [done..|]. right. by do 4 eexists.
  - destruct (bind_params _ _ _ _ _) as [[p' kwargs']|]; [done|].
    cbn [final emitted result raise]. split_and!; [done..|]. by left.
Qed.

(** ** Two runs side by side *)

Lemma run_rel_bind {A1 A2 B1 B2} (RA : A1 → A2 → Prop) (RB : B1 → B2 → Prop)
    (m1 : M A1) (m2 : M A2) k1 k2 w1 w2 :
  run_rel RA (m1 w1) (m2 w2) →
  (∀ a b w', RA a b → run_rel RB (k1 a w') (k2 b w')) →
  run_rel RB (bind m1 k1 w1) (bind m2 k2 w2).
Proof.
  unfold run_rel, bind. intros [Hw Hr] Hk.
  destruct (m1 w1) as [w1' e1 [a|x]], (m2 w2) as [w2' e2 [b|y]];
    simpl in *; try done.
  subst w2'. apply Hk, Hr.
Qed.

Lemma run_rel_refl {A} (m : M A) w : run_rel eq (m w) (m w).
Proof. split; [done|]. by destruct (result (m w)). Qed.

Lemma run_rel_bind_same {A B1 B2} (RB : B1 → B2 → Prop) (m : M A) k1 k2 w :
  (∀ a w', run_rel RB (k1 a w') (k2 a w')) →
  run_rel RB (bind m k1 w) (bind m k2 w).
Proof.
  intros Hk. eapply run_rel_bind; [apply run_rel_refl|]. intros a b w' <-. apply Hk.
Qed.

Lemma run_rel_emit e1 e2 w : run_rel eq (emit e1 w) (emit e2 w).
Proof. done. Qed.

Lemma run_rel_ret {A B} (R : A → B → Prop) a b w : R a b → run_rel R (ret a w) (ret b w).
Proof. done. Qed.

Lemma run_rel_raise {A B} (R : A → B → Prop) e w :
  run_rel R (raise e w) (raise e w).
Proof. done. Qed.

Lemma for_each_surfaces_rel ax (points : list vec3) errors1 errors2 l w :
  run_rel eq
    (for_each l (λ phi_points,
       let* a := as_axes ax in emit (surface_plot_call a points errors1 phi_points)) w)
    (for_each l (λ phi_points,
       let* a := as_axes ax in emit (surface_plot_call a points errors2 phi_points)) w).
Proof.
  revert w. induction l as [|phi l IH]; intros w; simpl; [done|].
  eapply run_rel_bind with (RA := eq).
  - apply run_rel_bind_same. intros. apply run_rel_emit.
  - intros _ _ w' _. apply IH.
Qed.

Section ReverseErrors.
Context (get_3d_vectors : aid → analyser → string → pyval → pyval → pyval → pyval
                          → option vectorfield)
  (field_error : list vec3 → list vec3 → list vec3 → list vec3 → pyval
                 → option (list float)).

Lemma differencemap_eye_rel m1 m2 ax colinear acc1 acc0 eye w :
  acc1 = one_minus <$> acc0 →
  run_rel (λ l1 l0, l1 = one_minus <$> l0)
    (differencemap_eye get_3d_vectors field_error m1 m2 ax colinear (PBool true)
       acc1 eye w)
    (differencemap_eye get_3d_vectors field_error m1 m2 ax colinear (PBool false)
       acc0 eye w).
Proof.
  intros ->. unfold differencemap_eye. apply run_rel_bind_same. intros fields w1.
  destruct fields as [|[p0 v0] [|[p1 v1] [|]]]; try apply run_rel_raise.
  apply run_rel_bind_same. intros errors w2.
  eapply (run_rel_bind (λ b1 b0, b1 = true ∧ b0 = false)); [done|].
  intros _ _ w3 [-> ->].
  eapply run_rel_bind; [apply for_each_surfaces_rel|]. intros _ _ w4 _.
  apply run_rel_ret. by rewrite fmap_app.
Qed.

Lemma differencemap_eyes_rel m1 m2 ax colinear eyes acc1 acc0 w :
  acc1 = one_minus <$> acc0 →
  run_rel (λ l1 l0, l1 = one_minus <$> l0)
    (fold_each eyes acc1
       (differencemap_eye get_3d_vectors field_error m1 m2 ax colinear (PBool true)) w)
    (fold_each eyes acc0
       (differencemap_eye get_3d_vectors field_error m1 m2 ax colinear (PBool false)) w).
Proof.
  revert acc1 acc0 w. induction eyes as [|eye eyes IH]; intros acc1 acc0 w H; simpl.
  - by apply run_rel_ret.
  - eapply run_rel_bind; [by apply differencemap_eye_rel|].
    intros l1 l0 w' Hl. by apply IH.
Qed.

Lemma np_concatenate_rel l1 l0 w :
  l1 = one_minus <$> l0 →
  run_rel (λ e1 e0, e1 = one_minus e0) (np_concatenate l1 w) (np_concatenate l0 w).
Proof.
  intros ->. destruct l0 as [|e l0]; [done|]. split; [done|]. simpl.
  unfold one_minus. rewrite fmap_app. f_equal.
  induction l0 as [|e' l0 IH]; [done|]. simpl. by rewrite fmap_app, IH.
Qed.
End ReverseErrors.

Lemma bind_params_app positional varkw given1 given2 :
  ∀ params rest,
  bind_params positional params rest varkw (given1 ++ given2)
  = match bind_params positional params rest varkw given1 with
    | Some (params', rest') => bind_params positional params' rest' varkw given2
    | None => None
    end.
Proof.
  induction given1 as [|[k v] given1 IH]; intros params rest; simpl; [done|].
  destruct (existsb _ positional); [done|].
  destruct (dict_has k params); [apply IH|]. destruct varkw; [apply IH|done].
Qed.

Lemma dict_set_has_keys k v p :
  dict_has k p = true → (dict_set k v p).*1 = p.*1.
Proof.
  unfold dict_has. induction p as [|[k1 v1] p IH]; simpl; [done|].
  destruct (String.eqb_spec k k1) as [->|_]; [done|].
  intros H. simpl. f_equal. by apply IH.
Qed.

Lemma bind_params_keys positional varkw given :
  ∀ params rest params' rest',
  bind_params positional params rest varkw given = Some (params', rest') →
  params'.*1 = params.*1.
Proof.
  induction given as [|[k v] given IH]; intros params rest params' rest' H;
    simpl in H; [by injection H as <- _|].
  destruct (existsb _ positional); [done|].
  destruct (dict_has k params) eqn:Hk.
  - apply IH in H. rewrite H. by apply dict_set_has_keys.
  - destruct varkw; [by apply IH in H|done].
Qed.

Lemma arg_set_ne k' k v p :
  String.eqb k' k = false → arg (dict_set k v p) k' = arg p k'.
Proof. intros H. unfold arg, dict_get_default. by rewrite dict_get_set, H. Qed.

Lemma arg_set_eq k v p : arg (dict_set k v p) k = v.
Proof. unfold arg, dict_get_default. by rewrite dict_get_set, String.eqb_refl. Qed.

(** Binding one more keyword, given last, for a named parameter. *)
Lemma bind_params_snoc positional params varkw given k v :
  existsb (String.eqb k) positional = false →
  dict_has k params = true →
  bind_params positional params [] varkw (given ++ [(k, v)])
  = match bind_params positional params [] varkw given with
    | Some (p, rest) => Some (dict_set k v p, rest)
    | None => None
    end.
Proof.
  intros Hpos Hk. rewrite bind_params_app.
  destruct (bind_params _ _ _ _ given) as [[p rest]|] eqn:Hp; [|done].
  simpl. rewrite Hpos.
  by rewrite (dict_has_keys k p params), Hk by by eapply bind_params_keys.
Qed.

Section ReverseErrors2.
Context (get_3d_vectors : aid → analyser → string → pyval → pyval → pyval → pyval
                          → option vectorfield)
  (field_error : list vec3 → list vec3 → list vec3 → list vec3 → pyval
                 → option (list float)).

Lemma differencemap_colorbar_block_reverse ax v p :
  differencemap_colorbar_block ax (dict_set "reverse_errors" v p)
  = differencemap_colorbar_block ax p.
Proof.
  unfold differencemap_colorbar_block.
  repeat match goal with
  | |- context [arg (dict_set ?k ?v p) ?k'] => rewrite (arg_set_ne k' k v p eq_refl)
  end.
  reflexivity.
Qed.

Lemma plot_3d_differencemap_reverse m1 m2 given w :
  run_rel (λ r1 r0, r1.1 = r0.1 ∧ r1.2 = one_minus r0.2)
    (plot_3d_differencemap get_3d_vectors field_error m1 m2
       (given ++ [("reverse_errors", PBool true)]) w)
    (plot_3d_differencemap get_3d_vectors field_error m1 m2
       (given ++ [("reverse_errors", PBool false)]) w).
Proof.
  unfold plot_3d_differencemap. rewrite !bind_params_snoc by done.
  destruct (bind_params _ _ _ _ given) as [[p rest]|]; [|by apply run_rel_raise].
  repeat match goal with
  | |- context [arg (dict_set ?k ?v p) ?k'] =>
      first [rewrite (arg_set_ne k' k v p eq_refl) | rewrite (arg_set_eq k v p)]
  end.
  eapply run_rel_bind; [apply run_rel_emit|]. intros _ _ w0 _.
  do 6 (apply run_rel_bind_same; intros ? ?).
  apply run_rel_bind_same; intros self1 w1.
  eapply run_rel_bind; [by apply differencemap_eyes_rel|]. intros l1 l0 w2 Hl.
  eapply run_rel_bind; [by apply np_concatenate_rel|]. intros e1 e0 w3 He.
  apply run_rel_bind_same; intros _ w4.
  rewrite !differencemap_colorbar_block_reverse.
  do 7 (apply run_rel_bind_same; intros ? ?).
  apply run_rel_bind_same; intros axid w5. by apply run_rel_ret.
Qed.
End ReverseErrors2.

(** ** [directories.py] *)

Section Directories.
Import directories.
Context (platform_system : string) (HOME : option string) (CODE_ROOTDIR : string)
  (os_path_join : string → string → string)
  (os_makedirs : string → gset string → option (gset string)).
(** What [os.makedirs] is relied on for: when it returns, the path exists,
    and nothing that existed is gone. *)
Hypothesis makedirs_creates :
  ∀ path fs fs', os_makedirs path fs = Some fs' → path ∈ fs' ∧ fs ⊆ fs'.

Lemma ensure_grows dirs : ∀ m m' e,
  ensure os_makedirs dirs m = (m', e) → files m ⊆ files m'.
Proof.
  induction dirs as [|[key item] dirs IH]; intros m m' e H; simpl in H.
  - by injection H as <- _.
  - case_bool_decide; [by eapply IH|].
    destruct (os_makedirs item _) as [fs|] eqn:Hfs.
    + apply IH in H. destruct (makedirs_creates _ _ _ Hfs) as [_ Hfs'].
      by etrans.
    + by injection H as <- _.
Qed.

Lemma ensure_exist dirs : ∀ m m',
  ensure os_makedirs dirs m = (m', None) →
  ∀ key item, (key, item) ∈ dirs → item ∈ files m'.
Proof.
  induction dirs as [|[key item] dirs IH]; intros m m' H key' item' Hin; simpl in H.
  - by apply elem_of_nil in Hin.
  - apply elem_of_cons in Hin as [[= -> ->]|Hin].
    + case_bool_decide as Hitem.
      * apply ensure_grows in H. by apply H.
      * destruct (os_makedirs item _) as [fs|] eqn:Hfs; [|done].
        apply ensure_grows in H. destruct (makedirs_creates _ _ _ Hfs) as [Hfs' _].
        by apply H.
    + case_bool_decide; [by eapply IH|].
      destruct (os_makedirs item _) as [fs|] eqn:Hfs; [|done]. by eapply IH.
Qed.

Lemma ensure_present dirs m :
  (∀ key item, (key, item) ∈ dirs → item ∈ files m) →
  ensure os_makedirs dirs m = (m, None).
Proof.
  induction dirs as [|[key item] dirs IH]; intros H; simpl; [done|].
  rewrite bool_decide_eq_true_2 by (eapply H; left). apply IH.
  intros key' item' Hin. eapply H. by right.
Qed.

Lemma ensure_announces dirs : ∀ m m' e,
  ensure os_makedirs dirs m = (m', e) →
  ∃ lines, stdout m' = stdout m ++ lines
    ∧ Forall (λ line, ∃ key item, (key, item) ∈ dirs ∧ (item ∉ files m)
                                  ∧ line = announcement key item) lines.
Proof.
  induction dirs as [|[key item] dirs IH]; intros m m' e H; simpl in H.
  - injection H as <- _. exists []. by rewrite app_nil_r.
  - case_bool_decide as Hitem.
    + apply IH in H as (lines & Hout & Hlines). exists lines. split; [done|].
      eapply Forall_impl; [|exact Hlines]. intros line (k & i & Hin & Hi & ->).
      exists k, i. split_and!; [by right|done..].
    + destruct (os_makedirs item _) as [fs|] eqn:Hfs.
      * destruct (makedirs_creates _ _ _ Hfs) as [_ Hfs'].
        apply IH in H as (lines & Hout & Hlines). simpl in *.
        exists (announcement key item :: lines). split.
        { by rewrite Hout, <- app_assoc. }
        constructor.
        { exists key, item. split_and!; [by left|done..]. }
        eapply Forall_impl; [|exact Hlines]. intros line (k & i & Hin & Hi & ->).
        exists k, i. split_and!; [by right| |done].
        intros Hi'. by apply Hi, Hfs'.
      * injection H as <- _. exists [announcement key item]. split; [done|].
        constructor; [|done]. exists key, item. split_and!; [by left|done..].
Qed.

Lemma bindings_all_dirs ns :
  bindings platform_system HOME CODE_ROOTDIR os_path_join = inr ns →
  ALLDIRS ns = all_dirs (ANALYSES_SAVEDIR ns) (PROCESSING_TEMPDIR ns)
                 (PROCESSING_TEMPDIR_BIGFILES ns) (DROSO_DATADIR ns).
Proof.
  unfold bindings. destruct (String.eqb platform_system "Linux").
  - destruct HOME; [|done]. by intros [= <-].
  - destruct (String.eqb platform_system "Windows"); [|done]. by intros [= <-].
Qed.

End Directories.

Lemma simple_makedirs_creates path fs fs' :
  directories.simple_makedirs path fs = Some fs' → path ∈ fs' ∧ fs ⊆ fs'.
Proof.
  unfold directories.simple_makedirs. case_bool_decide; [done|].
  intros [= <-]. split; [apply elem_of_union_l, elem_of_singleton_2; reflexivity|].
  apply union_subseteq_r.
Qed.

Lemma printDirectories_files ns m :
  directories.files (directories.printDirectories ns m) = directories.files m.
Proof.
  unfold directories.printDirectories.
  change (directories.files m)
    with (directories.files (directories.print "These are the directories" m)).
  generalize (directories.print "These are the directories" m).
  induction (directories.ALLDIRS ns) as [|[k i] l IH]; intros m0; simpl; [done|].
  by rewrite IH.
Qed.

(** ** Keywords and attributes *)

Lemma hasattr_one_char o c w :
  hasattr o (String c EmptyString) w = Run w [] (Return false).
Proof.
  destruct o as [a|d]; unfold hasattr.
  - unfold bind, analyser_of, read, ret. cbn [final emitted result].
    destruct (manalysers (analysers w a)), (constant_points (analysers w a));
      simpl; by repeat (destruct (Ascii.eqb c _); simpl).
  - simpl. by repeat (destruct (Ascii.eqb c _); simpl).
Qed.

Lemma _set_analyser_attributes_run analyser skip_none raise_errors kwargs w :
  _set_analyser_attributes analyser skip_none raise_errors kwargs w
  = Run w []
      match list_find (λ key, stops_at raise_errors key = true) (dict_keys kwargs) with
      | None => Return tt
      | Some (_, key) =>
          if Nat.eqb (String.length key) 2 then Raise NameError else Raise ValueError
      end.
Proof.
  unfold _set_analyser_attributes.
  induction (dict_keys kwargs) as [|key keys IH]; [done|].
  cbn [for_each list_find]. unfold bind at 1.
  destruct key as [|c1 [|c2 [|c3 key]]]; try (by rewrite decide_True).
  cbn [is_None negb orb] in *. unfold bind at 1. rewrite hasattr_one_char.
  destruct raise_errors.
  - by rewrite decide_True.
  - rewrite decide_False by done. cbn [ret final emitted result]. rewrite IH.
    by destruct (list_find _ keys) as [[i k]|].
Qed.

Lemma bind_params_unknown positional varkw k given :
  k ∈ given.*1 →
  ∀ params rest, dict_has k params = false →
  (varkw = false ∨ existsb (String.eqb k) positional = true) →
  bind_params positional params rest varkw given = None.
Proof.
  induction given as [|[k' v] given IH]; intros Hin params rest Hk Hno;
    [by apply elem_of_nil in Hin|].
  simpl. destruct (existsb (String.eqb k') positional) eqn:Hpos; [done|].
  rewrite fmap_cons in Hin. cbn [fst] in Hin.
  apply elem_of_cons in Hin as [->|Hin].
  -  rewrite Hk. destruct Hno as [->|Hno]; [done|]. congruence.
  - destruct (dict_has k' params) eqn:Hk'.
    + apply IH; [done| |done]. by rewrite (dict_has_keys k _ params)
        by by apply dict_set_has_keys.
    + destruct varkw; [|done]. by apply IH.
Qed.

Lemma plot_3d_vectormap_keeps_tilt get_3d_vectors manalyser given :
  stable same_tilt (plot_3d_vectormap get_3d_vectors manalyser given).
Proof. apply plot_3d_vectormap_stable; apply _. Qed.

Lemma plot_3d_differencemap_unknown get_3d_vectors field_error m1 m2 given
    k w :
  k ∈ dict_keys given →
  k ∉ dict_keys plot_3d_differencemap_params →
  plot_3d_differencemap get_3d_vectors field_error m1 m2 given w
  = Run w [] (Raise TypeError).
Proof.
  intros Hin Hk. unfold plot_3d_differencemap.
  rewrite (bind_params_unknown _ _ k); [done..| |by left].
  unfold dict_has. destruct (dict_get k _) eqn:Hget; [|done].
  exfalso. apply Hk. clear -Hget.
  induction plot_3d_differencemap_params as [|[k' v'] l IH]; [done|].
  simpl in *. destruct (String.eqb_spec k k') as [->|_]; [left|right; auto].
Qed.
Lemma dict_has_elem_of k d : dict_has k d = true ↔ k ∈ dict_keys d.
Proof.
  unfold dict_has, dict_keys. induction d as [|[k' v] d IH]; simpl.
  - split; [done|]. by intros ?%elem_of_nil.
  - rewrite elem_of_cons. destruct (String.eqb_spec k k') as [->|Hne].
    + split; [by left|done].
    + rewrite IH. split; [by right|]. by intros [?|?].
Qed.

Lemma join_kwargs_single d : join_kwargs [d] = Some (d ++ []).
Proof.
  simpl. replace (forallb _ (dict_keys d)) with true; [done|].
  symmetry. apply forallb_forall. done.
Qed.

Lemma compare_3d_vectormaps_compact_fixed get_3d_vectors field_error np_mean m1 m2
    kwargs k w :
  k ∈ ["compact"; "total_error"; "illustrate"] →
  k ∈ dict_keys kwargs →
  compare_3d_vectormaps_compact get_3d_vectors field_error np_mean m1 m2 kwargs w
  = Run w [] (Raise TypeError).
Proof.
  intros Hk Hin. unfold compare_3d_vectormaps_compact, call_with.
  change (join_kwargs [?d; kwargs])
    with (match join_kwargs [kwargs] with
          | Some rest =>
              if forallb (λ k, negb (dict_has k rest)) (dict_keys d)
              then Some (d ++ rest) else None
          | None => None
          end).
  rewrite join_kwargs_single, app_nil_r. apply dict_has_elem_of in Hin.
  replace (forallb _ _) with false; [done|].
  symmetry. apply not_true_iff_false. rewrite forallb_forall. intros Hall.
  apply list_elem_of_In, Hall in Hk. by rewrite Hin in Hk.
Qed.

Lemma dict_set_keys_mono k k' v d : k ∈ dict_keys d → k ∈ dict_keys (dict_set k' v d).
Proof.
  unfold dict_keys. induction d as [|[k1 v1] d IH]; simpl; [by intros ?%elem_of_nil|].
  rewrite elem_of_cons. intros [->|Hin].
  - destruct (String.eqb_spec k' k1) as [->|_]; simpl; apply list_elem_of_here.
  - destruct (String.eqb k' k1); simpl; apply list_elem_of_further; auto.
Qed.

Lemma dict_set_keys_new k v d : k ∈ dict_keys (dict_set k v d).
Proof.
  unfold dict_keys. induction d as [|[k1 v1] d IH]; simpl; [apply list_elem_of_here|].
  destruct (String.eqb k k1); simpl;
    [apply list_elem_of_here|by apply list_elem_of_further].
Qed.

Lemma bind_params_rest_keys positional k given :
  ∀ params rest p kwargs,
  bind_params positional params rest true given = Some (p, kwargs) →
  k ∈ dict_keys given ∨ k ∈ dict_keys rest →
  dict_has k params = false →
  k ∈ dict_keys kwargs.
Proof.
  induction given as [|[k' v] given IH]; intros params rest p kwargs H Hin Hk.
  - injection H as <- <-. destruct Hin as [Hin|Hin]; [by apply elem_of_nil in Hin|done].
  - simpl in H. destruct (existsb _ positional); [done|].
    unfold dict_keys in Hin. rewrite fmap_cons in Hin. cbn [fst] in Hin.
    rewrite elem_of_cons in Hin.
    destruct (dict_has k' params) eqn:Hk'.
    + eapply IH; [exact H| |].
      * destruct Hin as [[->|Hin]|Hin]; [congruence|by left|by right].
      * by rewrite (dict_has_keys k _ params) by by apply dict_set_has_keys.
    + eapply IH; [exact H| |done].
      destruct Hin as [[->|Hin]|Hin]; [|by left|].
      * right. apply dict_set_keys_new.
      * right. by apply dict_set_keys_mono.
Qed.

Lemma join_kwargs_keys k d ds given :
  join_kwargs ds = Some given → d ∈ ds → k ∈ dict_keys d → k ∈ dict_keys given.
Proof.
  revert given. induction ds as [|d' ds IH]; intros given H Hd Hk;
    [by apply elem_of_nil in Hd|].
  simpl in H. destruct (join_kwargs ds) as [rest|]; [|done].
  destruct (forallb _ _); [|done]. injection H as <-.
  unfold dict_keys. rewrite fmap_app, elem_of_app.
  apply elem_of_cons in Hd as [->|Hd]; [by left|right]. by eapply IH.
Qed.

Lemma call_with_differencemap_unknown get_3d_vectors field_error m1 m2 ds d k w w'
    evs r :
  d ∈ ds → k ∈ dict_keys d → k ∉ dict_keys plot_3d_differencemap_params →
  call_with (plot_3d_differencemap get_3d_vectors field_error m1 m2) ds w
  ≠ Run w' evs (Return r).
Proof.
  intros Hd Hk Hno. unfold call_with.
  destruct (join_kwargs ds) as [given|] eqn:Hjoin; [|done].
  by rewrite (plot_3d_differencemap_unknown _ _ _ _ given k)
    by eauto using join_kwargs_keys.
Qed.

Lemma dict_has_not_elem_of k d : k ∉ dict_keys d → dict_has k d = false.
Proof.
  intros H. apply not_true_iff_false. by rewrite dict_has_elem_of.
Qed.

Lemma compare_flow_pitch_keys m1 m2 animation_type k kwargs1 kwargs2 w w' evs
    kwargs1' kwargs2' :
  compare_flow_pitch m1 m2 animation_type kwargs1 kwargs2 w
  = Run w' evs (Return (kwargs1', kwargs2')) →
  k ∈ dict_keys kwargs2 → k ∈ dict_keys kwargs2'.
Proof.
  unfold compare_flow_pitch. cbn [fold_each]. intros H Hk.
  step H as wa ea k12 Ha. destruct k12 as [ka kb].
  assert (k ∈ dict_keys kb) as Hkb.
  { step Ha as wx ex part Hpart. destruct (_ && _).
    - step Ha as wy ey uy Hy. injection Ha as _ _ _ <-.
      destruct (Nat.eqb m1 m2); [by apply dict_set_keys_mono|done].
    - by injection Ha as _ _ _ <-. }
  step H as wb eb k12 Hb. destruct k12 as [kc kd]. injection H as _ _ _ <-.
  step Hb as wx ex part Hpart. destruct (_ && _).
  - step Hb as wy ey uy Hy. injection Hb as _ _ _ <-.
    destruct (Nat.eqb m2 m2); [by apply dict_set_keys_mono|done].
  - by injection Hb as _ _ _ <-.
Qed.

Lemma compare_unknown_keyword get_3d_vectors field_error np_mean m1 m2 given k w w'
    evs v :
  k ∈ dict_keys given →
  k ∉ dict_keys compare_3d_vectormaps_params →
  k ∉ dict_keys plot_3d_differencemap_params →
  compare_3d_vectormaps get_3d_vectors field_error np_mean m1 m2 given w
  ≠ Run w' evs (Return v).
Proof.
  intros Hin Hc Hd H. unfold compare_3d_vectormaps in H.
  destruct (bind_params _ _ _ _ _) as [[p kwargs]|] eqn:Hp; [|discriminate].
  assert (k ∈ dict_keys kwargs) as Hk.
  { eapply bind_params_rest_keys; [exact Hp|by left|by apply dict_has_not_elem_of]. }
  clear Hp Hin Hc.
  step H as wa ea ua Ha. clear Ha.
  step H as wb eb axes Hb. clear Hb.
  step H as wc ec k12 Hbranch.
  assert (k ∈ dict_keys p1) as Hk2.
  { unfold dict_copy in Hbranch. destruct (eq_str _ "rotate_arrows").
    - step Hbranch as wx ex rotations Hx. step Hbranch as wy ey uy Hy.
      step Hbranch as wz ez self1 Hz. step Hbranch as wu eu uu Hu.
      injection Hbranch as _ _ _ <-. by apply dict_set_keys_mono.
    - destruct (_ || _).
      + step Hbranch as wx ex ux Hx. injection Hbranch as _ _ _ <-.
        destruct (arg p "animation_type"); try done. by apply dict_set_keys_mono.
      + destruct (eq_str _ "rotate_plot").
        * step Hbranch as wx ex elev Hx. step Hbranch as wy ey azim Hy.
          step Hbranch as wz ez elev' Hz. step Hbranch as wu eu azim' Hu.
          injection Hbranch as _ _ _ <-. by do 2 apply dict_set_keys_mono.
        * by injection Hbranch as _ _ _ <-. }
  clear Hbranch Hk.
  step H as wd ed k12 Hflow.
  eapply compare_flow_pitch_keys in Hflow; [|exact Hk2]. clear Hk2.
  step H as we ee self2 He. clear He.
  step H as wf ef no_arrows Hf. clear Hf.
  match type of H with
  | context [if no_arrows then ?a else ?b] =>
      assert (k ∈ dict_keys (if no_arrows then a else b)) as Hk;
        [destruct no_arrows; [by apply dict_set_keys_mono|done]|];
      generalize dependent (if no_arrows then a else b)
  end.
  clear Hflow. intros kwargs2 H Hk.
  step H as wg eg ax Hg. clear Hg.
  step H as wh eh uh Hh. clear Hh.
  step H as wi ei compact Hi. clear Hi.
  step H as wj ej ax' Hj. clear Hj.
  step H as wk ek uk Hk'. clear Hk'.
  step H as wl el biphasic Hl. clear Hl.
  step H as wm em ir Hbi.
  destruct biphasic.
  - step Hbi as wx ex kwargsDr Hx. step Hbi as wy ey axr Hy.
    step Hbi as wz ez res Hz.
    eapply call_with_differencemap_unknown in Hz; [done| |exact Hk|exact Hd].
    do 2 apply list_elem_of_further. apply list_elem_of_here.
  - clear Hbi.
    step H as wn en axd Hn. step H as wo eo items Ho.
    step H as wp ep res Hp.
    eapply call_with_differencemap_unknown in Hp; [done| |exact Hk|exact Hd].
    do 2 apply list_elem_of_further. apply list_elem_of_here.
Qed.

(** ** What a call of the difference map draws *)

(** The blocks whose events are of the kinds a test lets through: the side
    conditions are closed by computation. *)
#[global] Hint Extern 2 (emits _ (draw _ _ _)) =>
  apply draw_emits; first [assumption | intros; reflexivity] : emits.
#[global] Hint Extern 2 (emits _ (colorbar_text _ _ _ _)) =>
  apply colorbar_text_emits; first [assumption | intros; reflexivity] : emits.
#[global] Hint Extern 2 (emits _ (in_optimal_ranges _ _ _)) =>
  apply in_optimal_ranges_emits; first [assumption | intros; reflexivity] : emits.
#[global] Hint Extern 2 (emits _ (compare_illustration _ _ _ _ _)) =>
  apply compare_illustration_emits; first [assumption | intros; reflexivity] : emits.
#[global] Hint Extern 2 (emits _ (compare_total_error _ _ _ _ _ _ _)) =>
  apply compare_total_error_emits; first [assumption | intros; reflexivity] : emits.
#[global] Hint Extern 2 (emits _ (manyviews_new_axes _ _ _)) =>
  apply manyviews_new_axes_emits; first [assumption | intros; reflexivity] : emits.
#[global] Hint Extern 2 (emits _ (call_get_3d_vectors _ _ _ _ _ _ _)) =>
  apply call_get_3d_vectors_emits; first [assumption | intros; reflexivity] : emits.
#[global] Hint Extern 2 (emits _ (call_field_error _ _ _ _ _ _)) =>
  apply call_field_error_emits; first [assumption | intros; reflexivity] : emits.
#[global] Hint Extern 2 (emits _ (plot_3d_vectormap _ _ _)) =>
  apply plot_3d_vectormap_emits; first [assumption | intros; reflexivity] : emits.
#[global] Hint Extern 2 (emits _ (differencemap_eye _ _ _ _ _ _ _ _ _)) =>
  apply differencemap_eye_emits; first [assumption | intros; reflexivity] : emits.
#[global] Hint Extern 2 (emits _ (emit _)) =>
  apply emits_emit; first [reflexivity | auto] : emits.

Section ColorbarEmits.
Variable q : event → bool.
Hypothesis q_draw : ∀ f a args, q (Draw f a args) = true.
Hypothesis q_colorbar : ∀ a c, q (colorbar_call a c) = true.

Lemma differencemap_colorbar_block_emits ax p :
  emits q (differencemap_colorbar_block ax p).
Proof. unfold differencemap_colorbar_block. emits_tac. Qed.
End ColorbarEmits.
#[global] Hint Extern 2 (emits _ (differencemap_colorbar_block _ _)) =>
  apply differencemap_colorbar_block_emits;
  first [assumption | intros; reflexivity] : emits.

#[global] Instance same_eyes_preorder : PreOrder same_eyes.
Proof.
  split; [by intros w a|]. intros w1 w2 w3 H12 H23 a. by rewrite H23, H12.
Qed.
#[global] Instance same_eyes_axes : AxesBlind same_eyes.
Proof. by intros w f a. Qed.
#[global] Instance same_eyes_lists : ListsBlind same_eyes.
Proof. intros w r l a. by destruct r. Qed.
#[global] Instance same_eyes_dicts : DictsBlind same_eyes.
Proof. intros w r d a. by destruct r. Qed.
#[global] Instance same_eyes_vector_rotation :
  AnalysersBlindTo same_eyes set_vector_rotation.
Proof.
  intros w a v a'. cbn [analysers with_analysers].
  destruct (decide (a = a')) as [->|Hne];
    [by rewrite fn_lookup_insert|by rewrite fn_lookup_insert_ne].
Qed.
#[global] Instance same_eyes_pitch_rot : AnalysersBlindTo same_eyes set_pitch_rot.
Proof.
  intros w a v a'. cbn [analysers with_analysers].
  destruct (decide (a = a')) as [->|Hne];
    [by rewrite fn_lookup_insert|by rewrite fn_lookup_insert_ne].
Qed.
#[global] Instance same_eyes_yaw_rot : AnalysersBlindTo same_eyes set_yaw_rot.
Proof.
  intros w a v a'. cbn [analysers with_analysers].
  destruct (decide (a = a')) as [->|Hne];
    [by rewrite fn_lookup_insert|by rewrite fn_lookup_insert_ne].
Qed.
#[global] Instance same_eyes_roll_rot : AnalysersBlindTo same_eyes set_roll_rot.
Proof.
  intros w a v a'. cbn [analysers with_analysers].
  destruct (decide (a = a')) as [->|Hne];
    [by rewrite fn_lookup_insert|by rewrite fn_lookup_insert_ne].
Qed.
#[global] Instance same_eyes_constant_points :
  AnalysersBlindTo same_eyes set_constant_points.
Proof.
  intros w a v a'. cbn [analysers with_analysers].
  destruct (decide (a = a')) as [->|Hne];
    [by rewrite fn_lookup_insert|by rewrite fn_lookup_insert_ne].
Qed.

(** A step of a run that returned: the relation [R] it keeps, and nothing
    of it shows through [view]. *)
Ltac quiet_step R view H :=
  let w1 := fresh "w" in
  let e1 := fresh "evs" in
  let a := fresh "a" in
  let H1 := fresh "Hstep" in
  let H2 := fresh "Hquiet" in
  step H as w1 e1 a H1;
  pose proof H1 as H2; kept R H1;
  apply (emits_run (hidden view)) in H2; [|solve [emits_tac]];
  apply project_hidden in H2;
  rewrite ?project_app, ?H2, ?app_nil_l; clear H2.

Section Eyes.
Context (get_3d_vectors : aid → analyser → string → pyval → pyval → pyval → pyval
                          → option vectorfield)
  (field_error : list vec3 → list vec3 → list vec3 → list vec3 → pyval
                 → option (list float)).

Lemma for_each_surfaces_run ax (points : list vec3) errors l w w' evs u :
  for_each l (λ phi_points,
    let* a := as_axes ax in emit (surface_plot_call a points errors phi_points)) w
  = Run w' evs (Return u) →
  project surface_of evs = (λ phi_points, (errors, phi_points)) <$> l.
Proof.
  revert w evs. induction l as [|phi l IH]; intros w evs H; simpl in H.
  - by injection H as _ <- _.
  - step H as wa ea ua Ha. apply IH in H. rewrite project_app, H.
    step Ha as wb eb a Hb. destruct ax; try discriminate Hb.
    injection Hb as _ <- _. by injection Ha as _ <- _.
Qed.

Lemma differencemap_eye_run m1 m2 ax colinear reverse_errors acc eye w w' evs
    all_errors :
  differencemap_eye get_3d_vectors field_error m1 m2 ax colinear reverse_errors
    acc eye w = Run w' evs (Return all_errors) →
  ∃ field, all_errors = acc ++ [field]
    ∧ project surface_of evs
      = (λ phi_points, (field, phi_points)) <$> all_phi_points eye.
Proof.
  unfold differencemap_eye. intros H.
  quiet_step (@eq world) surface_of H.
  destruct a as [|[p0 v0] [|[p1 v1] [|]]]; try discriminate.
  quiet_step (@eq world) surface_of H.
  quiet_step (@eq world) surface_of H.
  step H as wa ea ua Ha. injection H as _ <- <-.
  apply for_each_surfaces_run in Ha. rewrite app_nil_r.
  eexists. split; [reflexivity|]. exact Ha.
Qed.
End Eyes.

Section Eyes2.
Context (get_3d_vectors : aid → analyser → string → pyval → pyval → pyval → pyval
                          → option vectorfield)
  (field_error : list vec3 → list vec3 → list vec3 → list vec3 → pyval
                 → option (list float)).

Lemma differencemap_eyes_run m1 m2 ax colinear reverse_errors eyes_ :
  ∀ acc w w' evs all_errors,
  fold_each eyes_ acc
    (differencemap_eye get_3d_vectors field_error m1 m2 ax colinear reverse_errors) w
  = Run w' evs (Return all_errors) →
  ∃ fields, all_errors = acc ++ fields ∧ length fields = length eyes_
    ∧ project surface_of evs = eye_surfaces eyes_ fields.
Proof.
  induction eyes_ as [|eye eyes_ IH]; intros acc w w' evs all_errors H; simpl in H.
  - injection H as _ <- <-. exists []. by rewrite app_nil_r.
  - step H as wa ea acc' Ha.
    apply differencemap_eye_run in Ha as (field & -> & Hfield).
    apply IH in H as (fields & -> & Hlen & Hfields).
    exists (field :: fields). rewrite <- app_assoc. split_and!; [done|by simpl; f_equal|].
    rewrite project_app, Hfield, Hfields. reflexivity.
Qed.

Lemma plot_3d_differencemap_run m1 m2 given w w' evs ax errors :
  plot_3d_differencemap get_3d_vectors field_error m1 m2 given w
  = Run w' evs (Return (ax, errors)) →
  ∃ fields, errors = concat fields
    ∧ length fields = length (eyes (analysers w m1))
    ∧ project surface_of evs = eye_surfaces (eyes (analysers w m1)) fields.
Proof.
  unfold plot_3d_differencemap.
  destruct (bind_params _ _ _ _ _) as [[p rest]|]; [|discriminate].
  intros H.
  do 7 quiet_step same_eyes surface_of H.
  step H as wa ea self1 Hself. injection Hself as <- <- <-.
  step H as wb eb all_errors Heyes.
  apply differencemap_eyes_run in Heyes as (fields & -> & Hlen & Hfields).
  step H as wc ec errors' Hconcat.
  destruct fields as [|field fields]; [discriminate|].
  injection Hconcat as <- <- <-.
  pose proof H as Hquiet.
  apply (emits_run (hidden surface_of)) in Hquiet; [|solve [emits_tac]].
  apply project_hidden in Hquiet.
  do 8 inv_kept same_eyes H.
  step H as wd ed a' Haxes. injection H as _ _ _ <-.
  exists (field :: fields).
  assert (eyes (analysers w6 m1) = eyes (analysers w m1)) as <-.
  { transitivity (eyes (analysers w5 m1)); [apply Hstep5|].
    transitivity (eyes (analysers w4 m1)); [apply Hstep4|].
    transitivity (eyes (analysers w3 m1)); [apply Hstep3|].
    transitivity (eyes (analysers w2 m1)); [apply Hstep2|].
    transitivity (eyes (analysers w1 m1)); [apply Hstep1|].
    transitivity (eyes (analysers w0 m1)); [apply Hstep0|apply Hstep]. }
  split_and!; [done..|].
  cbn [app]. by rewrite project_app, Hquiet, Hfields, app_nil_r.
Qed.
End Eyes2.

(** ** [plot_1d_magnitude] *)

Section Magnitude.
Import magnitude.
Context (eyes : list string)
  (get_magnitude_traces : option string → option string → bool → bool
                          → option (list (string * list (list float))))
  (np_mean np_std : list (list float) → option (list float))
  (o : options).

Lemma bind_inr {A B} (m : W A) (k : A → W B) evs r :
  bind m k = (evs, inr r) →
  ∃ e1 a e2, m = (e1, inr a) ∧ k a = (e2, inr r) ∧ evs = e1 ++ e2.
Proof.
  unfold bind. destruct m as [e1 [x|a]]; [discriminate|].
  destruct (k a) as [e2 r2] eqn:Hk. simpl. intros [= <- ->]. by exists e1, a, e2.
Qed.

Lemma repeats_counted_cons folder folders :
  repeats_counted (folder :: folders)
  = (length folder.2 + repeats_counted folders)%nat.
Proof. reflexivity. Qed.
Lemma repeats_counted_app folders1 folders2 :
  repeats_counted (folders1 ++ folders2)
  = (repeats_counted folders1 + repeats_counted folders2)%nat.
Proof. apply sum_list_with_app. Qed.
Lemma traces_shown_cons folder folders :
  traces_shown o (folder :: folders)
  = (scaled o <$> repeats_shown o 0 folder.2) ++ traces_shown o folders.
Proof. reflexivity. Qed.
Lemma traces_shown_app folders1 folders2 :
  traces_shown o (folders1 ++ folders2)
  = traces_shown o folders1 ++ traces_shown o folders2.
Proof. unfold traces_shown. by rewrite bind_app. Qed.

Lemma plot_repeat_run eye angle k mag s evs s' :
  scale_set o s →
  plot_repeat eyes o eye angle s (k, mag) = (evs, inr s') →
  scale_set o s' ∧ X s' = X s
  ∧ N_repeats s' = S (N_repeats s)
  ∧ traces s' = traces s ++ (scaled o <$> if repeat_shown o k then [mag] else [])
  ∧ Forall (trace_fits (X s))
      (scaled o <$> if repeat_shown o k then [mag] else []).
Proof.
  intros [Hy HX] H. unfold plot_repeat in H. unfold repeat_shown.
  destruct (i_repeat o) as [z|]; [destruct (Z.eqb (Z.of_nat k) z)|];
    cbn [negb] in H.
  2: { injection H as _ <-. cbn [traces N_repeats X yscaler]. rewrite app_nil_r.
       by split_and!. }
  all: apply bind_inr in H as (e1 & [] & e2 & Hplot & H & _);
    injection H as _ <-; cbn [traces N_repeats X yscaler] in *;
    unfold plot in Hplot; rewrite Hy in *; unfold scaled; cbn [default fmap list_fmap];
    destruct (fits (X s) _) eqn:Hfits; [|discriminate];
    split_and!; try done; repeat constructor;
    destruct HX as [x HX]; exists x; split; [done|];
    rewrite HX in Hfits; by apply Nat.eqb_eq in Hfits.
Qed.

Lemma plot_repeats_run eye angle repeat_mags : ∀ k s evs s',
  scale_set o s →
  fold_each (imap (λ i, pair (k + i)%nat) repeat_mags) s (plot_repeat eyes o eye angle)
  = (evs, inr s') →
  scale_set o s' ∧ X s' = X s
  ∧ N_repeats s' = (N_repeats s + length repeat_mags)%nat
  ∧ traces s' = traces s ++ (scaled o <$> repeats_shown o k repeat_mags)
  ∧ Forall (trace_fits (X s)) (scaled o <$> repeats_shown o k repeat_mags).
Proof.
  induction repeat_mags as [|mag rest IH]; intros k s evs s' Hs H.
  - injection H as _ <-. rewrite app_nil_r. split_and!; [done..|simpl; lia|done|done].
  - cbn [imap fold_each] in H. rewrite Nat.add_0_r in H.
    apply bind_inr in H as (e1 & s1 & e2 & Hrepeat & Hrest & _).
    apply plot_repeat_run in Hrepeat as (Hs1 & HX1 & HN1 & Ht1 & Hf1); [|done].
    erewrite imap_ext in Hrest;
      [apply (IH (S k)) in Hrest as (Hs2 & HX2 & HN2 & Ht2 & Hf2)|]; [| |].
    + split_and!; [done|congruence|simpl; lia| |].
      * rewrite Ht2, Ht1. cbn [repeats_shown]. by rewrite fmap_app, app_assoc.
      * cbn [repeats_shown]. rewrite fmap_app. apply Forall_app. split; [done|].
        by rewrite <- HX1.
    + done.
    + intros i x _. simpl. f_equal. lia.
Qed.

Lemma plot_angle_run eye s folder evs s' :
  scale_unset_or_set o s →
  plot_angle eyes o eye s folder = (evs, inr s') →
  scale_set o s'
  ∧ X s' = (if X s is Some _ then X s else first_axis o [folder])
  ∧ N_repeats s' = (N_repeats s + length folder.2)%nat
  ∧ traces s' = traces s ++ (scaled o <$> repeats_shown o 0 folder.2)
  ∧ Forall (trace_fits (X s')) (scaled o <$> repeats_shown o 0 folder.2).
Proof.
  intros Hs H. destruct folder as [angle repeat_mags]. unfold plot_angle in H.
  apply bind_inr in H as (e1 & s1 & e2 & Hinit & Hfold & _).
  assert (scale_set o s1 ∧ N_repeats s1 = N_repeats s ∧ traces s1 = traces s
          ∧ X s1 = (if X s is Some _ then X s else first_axis o [(angle, repeat_mags)]))
    as (Hs1 & HN1 & Ht1 & HX1).
  { destruct Hs as [[HX Hy]|[Hy [x HX]]].
    - rewrite HX in Hinit. destruct repeat_mags as [|first rest]; [discriminate|].
      injection Hinit as _ <-. rewrite HX. split_and!; [|done..].
      split; [done|by eexists].
    - rewrite HX, Hy in Hinit. injection Hinit as _ <-. rewrite HX.
      split_and!; [|done..]. split; [done|by eexists]. }
  apply (plot_repeats_run eye angle repeat_mags 0) in Hfold
    as (Hs2 & HX2 & HN2 & Ht2 & Hf2); [|done].
  cbn [snd]. rewrite HN2, Ht2, HN1, Ht1, HX2. by split_and!.
Qed.

Lemma plot_angles_run eye folders : ∀ s evs s',
  scale_unset_or_set o s →
  fold_each folders s (plot_angle eyes o eye) = (evs, inr s') →
  scale_unset_or_set o s'
  ∧ X s' = (if X s is Some _ then X s else first_axis o folders)
  ∧ N_repeats s' = (N_repeats s + repeats_counted folders)%nat
  ∧ traces s' = traces s ++ traces_shown o folders
  ∧ Forall (trace_fits (X s')) (traces_shown o folders)
  ∧ (folders ≠ [] → scale_set o s').
Proof.
  induction folders as [|folder folders IH]; intros s evs s' Hs H.
  - injection H as _ <-. change (repeats_counted []) with 0%nat.
    change (traces_shown o []) with (@nil (list float)).
    rewrite app_nil_r. split_and!; [done| |lia|done|done|done].
    by destruct (X s).
  - cbn [fold_each] in H.
    apply bind_inr in H as (e1 & s1 & e2 & Hangle & Hrest & _).
    apply plot_angle_run in Hangle as (Hs1 & HX1 & HN1 & Ht1 & Hf1); [|done].
    apply IH in Hrest as (Hs2 & HX2 & HN2 & Ht2 & Hf2 & _); [|by right].
    pose proof Hs1 as [Hy1 [x1 Hx1]]. rewrite Hx1 in HX2.
    split_and!; [done| | | | |].
    + rewrite HX2, <- Hx1, HX1. destruct (X s); [done|].
      by destruct folder as [angle [|first rest]].
    + rewrite HN2, HN1, repeats_counted_cons. lia.
    + by rewrite Ht2, Ht1, traces_shown_cons, app_assoc.
    + rewrite traces_shown_cons. apply Forall_app. split; [|done].
      by rewrite HX2, <- Hx1.
    + intros _. destruct Hs2 as [[HX _]|Hs2]; [congruence|done].
Qed.

Lemma plot_eyes_run eyes_ : ∀ s evs s',
  scale_unset_or_set o s →
  fold_each eyes_ s (plot_eye eyes get_magnitude_traces o) = (evs, inr s') →
  ∃ data, answers get_magnitude_traces o eyes_ = Some data
    ∧ scale_unset_or_set o s'
    ∧ N_repeats s' = (N_repeats s + repeats_counted (concat data))%nat
    ∧ traces s' = traces s ++ traces_shown o (concat data)
    ∧ Forall (trace_fits (X s')) (traces_shown o (concat data))
    ∧ (∀ x, X s = Some x → X s' = Some x)
    ∧ (X s = None → X s' = first_axis o (concat data)).
Proof.
  induction eyes_ as [|eye eyes_ IH]; intros s evs s' Hs H.
  - injection H as _ <-. exists []. change (repeats_counted (concat [])) with 0%nat.
    change (traces_shown o (concat [])) with (@nil (list float)).
    rewrite app_nil_r. split_and!; [done..|lia|done|done|done|done].
  - cbn [fold_each] in H.
    apply bind_inr in H as (e1 & s1 & e2 & Heye & Hrest & _).
    unfold plot_eye in Heye.
    apply bind_inr in Heye as (e0 & [] & e0' & _ & Heye & _).
    destruct (get_magnitude_traces eye _ _ _) as [magtraces|] eqn:Hget;
      [|discriminate].
    apply plot_angles_run in Heye as (Hs1 & HX1 & HN1 & Ht1 & Hf1 & Hset1); [|done].
    apply IH in Hrest as (data & Hdata & Hs2 & HN2 & Ht2 & Hf2 & HX2 & Hfirst);
      [|done].
    exists (magtraces :: data). unfold answers in *. cbn [mapM]. rewrite Hget.
    cbn [mbind option_bind]. rewrite Hdata. cbn [mbind option_bind mret option_ret].
    split_and!; [done..| | | | |].
    + rewrite HN2, HN1. cbn [concat]. rewrite repeats_counted_app. lia.
    + rewrite Ht2, Ht1. cbn [concat]. by rewrite traces_shown_app, app_assoc.
    + cbn [concat]. rewrite traces_shown_app. apply Forall_app. split; [|done].
      eapply Forall_impl; [|exact Hf1]. intros Y (x & Hx & HY).
      exists x. split; [by apply HX2|done].
    + intros x Hx. rewrite Hx in HX1. destruct Hs1 as [[HX Hy]|[_ [x1 HX]]].
      * congruence.
      * apply HX2. congruence.
    + intros HX. rewrite HX in HX1. cbn [concat].
      destruct magtraces as [|folder folders].
      * apply Hfirst. by rewrite HX1.
      * destruct Hset1 as [_ [x1 Hx1]]; [done|].
        rewrite (HX2 _ Hx1), <- Hx1, HX1.
        destruct folder as [angle [|first rest]]; [|done].
        rewrite HX1 in Hx1. discriminate.
Qed.

Lemma plot_1d_magnitude_run evs shown counted :
  plot_1d_magnitude eyes get_magnitude_traces np_mean np_std o
  = (evs, inr (shown, counted)) →
  ∃ data, answers get_magnitude_traces o (eyes_asked o eyes) = Some data
    ∧ shown = traces_shown o (concat data)
    ∧ counted = repeats_counted (concat data)
    ∧ Forall (trace_fits (first_axis o (concat data))) shown.
Proof.
  unfold plot_1d_magnitude. intros H.
  apply bind_inr in H as (e0 & [] & e0' & _ & H & _).
  apply bind_inr in H as (e1 & s1 & e1' & Heyes & H & _).
  apply plot_eyes_run in Heyes as (data & Hdata & _ & HN & Ht & Hf & _ & HX);
    [|left; split; reflexivity].
  exists data. split; [exact Hdata|].
  destruct (np_mean _); [|discriminate].
  do 7 (apply bind_inr in H as (? & [] & ? & _ & H & _)).
  injection H as _ <- <-. rewrite Ht, HN. split_and!; [done..|].
  by rewrite <- HX.
Qed.
End Magnitude.

Lemma repeats_shown_length o k repeat_mags :
  (length (repeats_shown o k repeat_mags) ≤ length repeat_mags)%nat
  ∧ (magnitude.i_repeat o = None →
     length (repeats_shown o k repeat_mags) = length repeat_mags).
Proof.
  revert k. induction repeat_mags as [|mag rest IH]; intros k; [done|].
  destruct (IH (S k)) as [Hle Heq]. cbn [repeats_shown]. rewrite length_app.
  split.
  - destruct (repeat_shown o k); simpl; lia.
  - intros Hnone. unfold repeat_shown. rewrite Hnone. simpl. by rewrite Heq.
Qed.

Lemma traces_shown_length o folders :
  (length (traces_shown o folders) ≤ repeats_counted folders)%nat
  ∧ (magnitude.i_repeat o = None →
     length (traces_shown o folders) = repeats_counted folders).
Proof.
  induction folders as [|folder folders [Hle Heq]]; [done|].
  change (traces_shown o (folder :: folders))
    with ((scaled o <$> repeats_shown o 0 folder.2) ++ traces_shown o folders).
  change (repeats_counted (folder :: folders))
    with (length folder.2 + repeats_counted folders)%nat.
  rewrite length_app, length_fmap.
  destruct (repeats_shown_length o 0 folder.2) as [Hle' Heq'].
  split; [lia|]. intros Hnone. by rewrite Heq', Heq.
Qed.

Lemma answers_with_i_repeat get_magnitude_traces i o eyes_ :
  answers get_magnitude_traces (with_i_repeat i o) eyes_
  = answers get_magnitude_traces o eyes_.
Proof. reflexivity. Qed.

Lemma plot_1d_magnitude_empty_folder eyes get_magnitude_traces np_mean np_std o
    eye rest angle folders :
  eyes_asked o eyes = eye :: rest →
  get_magnitude_traces eye (magnitude.image_folder o) (magnitude.mean_repeats o)
    (magnitude.mean_imagefolders o) = Some ((angle, []) :: folders) →
  magnitude.plot_1d_magnitude eyes get_magnitude_traces np_mean np_std o
  = ((if magnitude.ax o then [] else [magnitude.subplots_call])
     ++ [magnitude.get_magnitude_traces_call eye], inl magnitude.IndexError).
Proof.
  intros Heyes Hget. unfold magnitude.plot_1d_magnitude.
  unfold eyes_asked in Heyes. rewrite Heyes.
  cbn [magnitude.fold_each]. unfold magnitude.plot_eye. rewrite Hget.
  by destruct (magnitude.ax o).
Qed.

(** ** One colorbar for an axes *)

Lemma invariant_bind {A B} P q (m : M A) (k : A → M B) :
  invariant P q m → (∀ a, invariant P q (k a)) → invariant P q (bind m k).
Proof.
  intros Hm Hk w HP. unfold bind. destruct (Hm w HP) as [HP1 Hq1].
  destruct (m w) as [w1 e1 [a|e]]; simpl in *; [|done].
  destruct (Hk a w1 HP1) as [HP2 Hq2]. by rewrite forallb_app, Hq1, Hq2.
Qed.

Lemma invariant_stable {A} (R : relation world) P q (m : M A) :
  (∀ w w', R w w' → P w → P w') → stable R m → emits q m → invariant P q m.
Proof. intros HR Hs He w HP. split; [by eapply HR|apply He]. Qed.

Lemma stable_bind_ret {A B} R (a : A) (k : A → M B) :
  stable R (k a) → stable R (bind (ret a) k).
Proof. intros H w. apply H. Qed.

Lemma emits_bind_ret {A B} q (a : A) (k : A → M B) :
  emits q (k a) → emits q (bind (ret a) k).
Proof. intros H w. apply H. Qed.

#[global] Instance same_colorbar_preorder a : PreOrder (same_colorbar a).
Proof.
  split; [by intros w|]. intros w1 w2 w3 H12 H23. unfold same_colorbar in *.
  by rewrite H23, H12.
Qed.
#[global] Instance same_colorbar_analysers a : AnalysersBlind (same_colorbar a).
Proof. by intros w f. Qed.
#[global] Instance same_colorbar_lists a : ListsBlind (same_colorbar a).
Proof. intros w r l. by destruct r. Qed.
#[global] Instance same_colorbar_dicts a : DictsBlind (same_colorbar a).
Proof. intros w r d. by destruct r. Qed.
#[global] Instance same_colorbar_alloc a : AxesAlloc (same_colorbar a).
Proof.
  intros w. unfold same_colorbar, ax_obj. cbn [axes with_axes].
  destruct (decide (fresh (dom (axes w)) = a)) as [<-|Hne].
  - rewrite lookup_insert_eq.
    by rewrite (not_elem_of_dom_1 (axes w) (fresh (dom (axes w)))) by apply is_fresh.
  - by rewrite lookup_insert_ne.
Qed.

(** A write to another axes. *)
Lemma update_axes_other a a' f : a' ≠ a → stable (same_colorbar a) (update_axes a' f).
Proof.
  intros Hne w. unfold same_colorbar, ax_obj. cbn.
  by rewrite lookup_insert_ne.
Qed.

Lemma truthy_run v w : ∃ b, truthy v w = Run w [] (Return b).
Proof. destruct v; by eexists. Qed.

(** Line 418: the condition of the colorbar. *)
Lemma colorbar_wanted_run v ax w :
  ∃ o, and_then' (truthy v)
         (let* a := as_axes ax in
          let* o := axes_of a in
          ret (if differencemap_colorbar o is None then true else false)) w
       = Run w [] o
    ∧ (o = Return true →
       ∃ a, ax = PAx a ∧ differencemap_colorbar (ax_obj w a) = None)
    ∧ (∀ a, ax = PAx a → differencemap_colorbar (ax_obj w a) = None →
       truthy v w = Run w [] (Return true) → o = Return true).
Proof.
  unfold and_then'. destruct (truthy_run v w) as [b Hb].
  unfold bind at 1. rewrite Hb. destruct b; cbn [and_then].
  - destruct ax; try (eexists; split_and!; [reflexivity|done|done]).
    cbn. destruct (differencemap_colorbar (ax_obj w a)) eqn:Hmarker.
    + eexists. split_and!; [reflexivity|done|]. intros a' [= <-]. congruence.
    + eexists. split_and!; [reflexivity| |done]. intros _. by exists a.
  - eexists. split_and!; [reflexivity|done|]. intros a _ _. done.
Qed.

Lemma colorbar_call_hidden a a' c :
  a' ≠ a → hidden (colorbar_of a) (colorbar_call a' c) = true.
Proof.
  intros Hne. unfold hidden, colorbar_of.
  by rewrite (proj2 (Nat.eqb_neq a' a)).
Qed.

Lemma bind_run {A B} (m : M A) (k : A → M B) w w1 e1 o :
  m w = Run w1 e1 o →
  bind m k w = match o with
               | Return a =>
                   Run (final (k a w1)) (e1 ++ emitted (k a w1)) (result (k a w1))
               | Raise e => Run w1 e1 (Raise e)
               end.
Proof. unfold bind. by intros ->. Qed.

(** On an axes that carries the marker, the colorbar block does nothing;
    on another axes it leaves the marker of the first alone. *)
Lemma differencemap_colorbar_block_marked a c ax p :
  invariant (marked a c) (hidden (colorbar_of a)) (differencemap_colorbar_block ax p).
Proof.
  intros w HP. unfold differencemap_colorbar_block.
  destruct (colorbar_wanted_run (arg p "colorbar") ax w) as (o & Hrun & Htrue & _).
  rewrite (bind_run _ _ _ _ _ _ Hrun).
  destruct o as [[|]|e]; [|done..].
  destruct Htrue as (a2 & -> & Hnone); [done|].
  assert (a2 ≠ a) as Hne by (intros ->; unfold marked in HP; congruence).
  cbn [final emitted result app].
  match goal with
  | |- context [final (?body w)] =>
      assert (invariant (marked a c) (hidden (colorbar_of a)) body) as Hbody
  end.
  { apply (invariant_stable (same_colorbar a)).
    - unfold marked, same_colorbar. intros w1 w2 H12 H1. by rewrite H12.
    - apply stable_bind; [apply _|stable_tac|intros cax].
      change (as_axes (PAx a2)) with (@ret axid a2). apply stable_bind_ret.
      apply stable_bind; [apply _|stable_tac|intros c0].
      apply stable_bind; [apply _|stable_tac|intros _].
      apply stable_bind; [apply _|by apply update_axes_other|intros _].
      stable_tac.
    - apply emits_bind; [emits_tac|intros cax].
      change (as_axes (PAx a2)) with (@ret axid a2). apply emits_bind_ret.
      apply emits_bind; [emits_tac|intros c0].
      apply emits_bind; [apply emits_emit; by apply colorbar_call_hidden|intros _].
      emits_tac. }
  destruct (Hbody w HP) as [HP' Hq]. split; [exact HP'|exact Hq].
Qed.

Section OneColorbar.
Context (get_3d_vectors : aid → analyser → string → pyval → pyval → pyval → pyval
                          → option vectorfield)
  (field_error : list vec3 → list vec3 → list vec3 → list vec3 → pyval
                 → option (list float)).

(** A call on whatever axes keeps the marker of [a] and attaches no
    colorbar to [a], when [a] carries the marker. *)
Lemma plot_3d_differencemap_marked a c m1 m2 given :
  invariant (marked a c) (hidden (colorbar_of a))
    (plot_3d_differencemap get_3d_vectors field_error m1 m2 given).
Proof.
  assert (∀ w w', same_colorbar a w w' → marked a c w → marked a c w') as Hcompat.
  { unfold marked, same_colorbar. intros w1 w2 H12 H1. by rewrite H12. }
  unfold plot_3d_differencemap.
  destruct (bind_params _ _ _ _ _) as [[p rest]|];
    [|by apply (invariant_stable (same_colorbar a)); [|stable_tac|emits_tac]].
  repeat first
    [ apply differencemap_colorbar_block_marked
    | apply (invariant_stable (same_colorbar a));
        [exact Hcompat|solve [stable_tac]|solve [emits_tac]]
    | apply invariant_bind; [|intros] ].
Qed.
End OneColorbar.

(** A quiet step whose value is named. *)
Tactic Notation "named_quiet_step" constr(R) constr(view) hyp(H) "as" ident(w1) ident(a) :=
  let e1 := fresh "evs" in
  let H1 := fresh "Hstep" in
  let H2 := fresh "Hquiet" in
  step H as w1 e1 a H1;
  pose proof H1 as H2; kept R H1;
  apply (emits_run (hidden view)) in H2; [|solve [emits_tac]];
  apply project_hidden in H2;
  rewrite ?project_app, ?H2, ?app_nil_l; clear H2.

Lemma differencemap_colorbar_block_unmarked a p w w' evs u :
  differencemap_colorbar (ax_obj w a) = None →
  truthy (arg p "colorbar") w = Run w [] (Return true) →
  differencemap_colorbar_block (PAx a) p w = Run w' evs (Return u) →
  ∃ c, project (colorbar_of a) evs = [c] ∧ marked a c w'.
Proof.
  intros Hnone Htruthy H. unfold differencemap_colorbar_block in H.
  destruct (colorbar_wanted_run (arg p "colorbar") (PAx a) w)
    as (o & Hrun & _ & Hwanted).
  rewrite (bind_run _ _ _ _ _ _ Hrun) in H.
  rewrite (Hwanted a eq_refl Hnone Htruthy) in H. cbn [app] in H.
  rewrite <- run_eta in H.
  named_quiet_step (same_colorbar a) (colorbar_of a) H as wx cax.
  step H as wa ea xa Ha. injection Ha as <- <- <-.
  step H as wb eb c Hb. assert (wb = wx ∧ eb = []) as [-> ->].
  { destruct cax; try discriminate. by injection Hb as <- <- _. }
  step H as wc ec uc Hc. injection Hc as <- <- _.
  step H as wd ed ud Hd. injection Hd as <- <- _.
  pose proof H as Hquiet.
  apply (emits_run (hidden (colorbar_of a))) in Hquiet; [|solve [emits_tac]].
  apply project_hidden in Hquiet.
  kept (same_colorbar a) H.
  exists c. split.
  - cbn [app]. change (colorbar_call a c :: rest) with ([colorbar_call a c] ++ rest).
    rewrite project_app, Hquiet. cbn. by rewrite Nat.eqb_refl.
  - unfold marked. rewrite H. unfold ax_obj. cbn. by rewrite lookup_insert_eq.
Qed.

Section OneColorbar2.
Context (get_3d_vectors : aid → analyser → string → pyval → pyval → pyval → pyval
                          → option vectorfield)
  (field_error : list vec3 → list vec3 → list vec3 → list vec3 → pyval
                 → option (list float)).

(** The first call on an axes without the marker attaches one colorbar and
    sets the marker. *)
Lemma plot_3d_differencemap_unmarked a m1 m2 given p rest w w' evs r :
  bind_params ["manalyser1"; "manalyser2"] plot_3d_differencemap_params []
    false given = Some (p, rest) →
  arg p "ax" = PAx a → arg p "colorbar" = PBool true →
  differencemap_colorbar (ax_obj w a) = None →
  plot_3d_differencemap get_3d_vectors field_error m1 m2 given w
  = Run w' evs (Return r) →
  ∃ c, project (colorbar_of a) evs = [c] ∧ marked a c w'.
Proof.
  unfold plot_3d_differencemap. intros -> Hax Hcolorbar Hnone H.
  rewrite Hax in H. cbn [is_None] in H.
  quiet_step (same_colorbar a) (colorbar_of a) H.
  step H as wa ea xa Ha. injection Ha as <- <- <-.
  do 9 quiet_step (same_colorbar a) (colorbar_of a) H.
  step H as wb eb ub Hblock.
  apply differencemap_colorbar_block_unmarked in Hblock as (c & Hc & Hmarked).
  - pose proof H as Hquiet.
    apply (emits_run (hidden (colorbar_of a))) in Hquiet; [|solve [emits_tac]].
    apply project_hidden in Hquiet.
    kept (same_colorbar a) H.
    exists c. split.
    + cbn [app]. by rewrite project_app, Hc, Hquiet.
    + unfold marked, same_colorbar in *. by rewrite H.
  - unfold same_colorbar in *.
    repeat match goal with Hs : differencemap_colorbar _ = differencemap_colorbar _ |- _ =>
             rewrite Hs; clear Hs end.
    exact Hnone.
  - by rewrite Hcolorbar.
Qed.
End OneColorbar2.

(** ** The dict passed as [kwargsD] *)

#[global] Instance same_dicts_preorder : PreOrder same_dicts.
Proof.
  split; [by intros w r|]. intros w1 w2 w3 H12 H23 r. by rewrite H23, H12.
Qed.
#[global] Instance same_dicts_analysers : AnalysersBlind same_dicts.
Proof. by intros w f r. Qed.
#[global] Instance same_dicts_axes : AxesBlind same_dicts.
Proof. by intros w f r. Qed.
#[global] Instance same_dicts_lists : ListsBlind same_dicts.
Proof. intros w r l r'. by destruct r. Qed.

Lemma dict_obj_set_dict r d w : dict_obj (set_dict r d w) r = d.
Proof. destruct r; cbn; by rewrite lookup_insert_eq. Qed.

Lemma compare_axes_returns given_axes p w :
  ∃ w1 e1 v, (if is_None given_axes then compare_new_axes p else ret given_axes) w
             = Run w1 e1 (Return v).
Proof.
  destruct (is_None given_axes); [|by do 3 eexists].
  unfold compare_new_axes.
  destruct (truthy_run (arg p "compact") w) as [compact Hc].
  destruct (truthy_run (arg p "total_error") w) as [total_error Ht].
  destruct (truthy_run (arg p "illustrate") w) as [illustrate Hi].
  rewrite (bind_run _ _ _ _ _ _ Hc), (bind_run _ _ _ _ _ _ Ht),
    (bind_run _ _ _ _ _ _ Hi).
  match goal with
  | |- context [fold_each ?l ?s ?body] =>
      assert (∀ l' s' w', ∃ w1 e1 v, fold_each l' s' body w' = Run w1 e1 (Return v))
        as Hfold
  end.
  { induction l' as [|x l' IH]; intros s' w'; [by do 3 eexists|].
    cbn [fold_each]. unfold bind at 1. cbn.
    destruct (IH (s' ++ [PAx (fresh (dom (axes w')))])
                (with_axes (<[fresh (dom (axes w')) := new_axes_obj]> (axes w')) w'))
      as (w1 & e1 & v & ->). by do 3 eexists. }
  match goal with
  | |- context [fold_each ?l ?s ?body] =>
      destruct (Hfold l s w) as (w1 & e1 & v & Hrun)
  end.
  cbn [final emitted result]. rewrite (bind_run _ _ _ _ _ _ Hrun).
  cbn. by do 3 eexists.
Qed.

Section KwargsD.
Context (get_3d_vectors : aid → analyser → string → pyval → pyval → pyval → pyval
                          → option vectorfield)
  (field_error : list vec3 → list vec3 → list vec3 → list vec3 → pyval
                 → option (list float))
  (np_mean : list float → float).

Lemma compare_3d_vectormaps_writes_kwargsD m1 m2 given p kwargs r t w :
  bind_params ["manalyser1"; "manalyser2"] compare_3d_vectormaps_params []
    true given = Some (p, kwargs) →
  arg p "kwargsD" = PDict r →
  arg p "animation_type" = PStr t →
  t ∈ ["pitch_rot"; "roll_rot"; "yaw_rot"] →
  dict_get "colinear"
    (dict_obj (final (compare_3d_vectormaps get_3d_vectors field_error np_mean
                        m1 m2 given w)) r)
  = Some (PBool false).
Proof.
  intros Hp HD Htype Ht. unfold compare_3d_vectormaps. rewrite Hp, HD, Htype.
  rewrite emit_bind_run. cbn [final].
  destruct (compare_axes_returns (arg p "axes") p w) as (w1 & e1 & axes_ & Haxes).
  rewrite (bind_run _ _ _ _ _ _ Haxes). cbn [final].
  assert (eq_str (PStr t) "rotate_arrows" = false
          ∧ eq_str (PStr t) "pitch_rot" || eq_str (PStr t) "roll_rot"
            || eq_str (PStr t) "yaw_rot" = true) as [-> ->].
  { rewrite !elem_of_cons, elem_of_nil in Ht.
    destruct Ht as [->|[->|[->|[]]]]; by split. }
  match goal with
  | |- context [bind (bind (setitem ?d ?k ?v) ?f) ?rest] =>
      assert (bind (setitem d k v) f w1
              = Run (set_dict r (dict_set k v (dict_obj w1 r)) w1) []
                  (Return (dict_copy kwargs, dict_set t (arg p "animation_variable")
                                               (dict_copy kwargs)))) as Hset
        by reflexivity;
      rewrite (bind_run _ rest _ _ _ _ Hset)
  end.
  cbn [final].
  match goal with
  | |- context [final (?rest ?w2)] =>
      assert (stable same_dicts rest) as Hrest by stable_tac;
      rewrite (Hrest w2 r)
  end.
  rewrite dict_obj_set_dict, dict_get_set. reflexivity.
Qed.
End KwargsD.

(** ** The running error series *)

#[global] Instance same_series_preorder : PreOrder same_series.
Proof.
  split; [by intros w a|]. intros w1 w2 w3 H12 H23 a.
  destruct (H12 a) as (? & ? & ?), (H23 a) as (? & ? & ?).
  split_and!; congruence.
Qed.
#[global] Instance same_series_analysers : AnalysersBlind same_series.
Proof. by intros w f a. Qed.
#[global] Instance same_series_lists : ListsBlind same_series.
Proof. intros w r l a. by destruct r. Qed.
#[global] Instance same_series_dicts : DictsBlind same_series.
Proof. intros w r d a. by destruct r. Qed.
#[global] Instance same_series_alloc : AxesAlloc same_series.
Proof.
  intros w a. unfold ax_obj. cbn [axes with_axes].
  destruct (decide (fresh (dom (axes w)) = a)) as [<-|Hne].
  - rewrite lookup_insert_eq.
    by rewrite (not_elem_of_dom_1 (axes w) (fresh (dom (axes w)))) by apply is_fresh.
  - by rewrite lookup_insert_ne.
Qed.

Lemma same_series_setter {V} (set : V → axes_obj → axes_obj) :
  (∀ v o, pupil_compare_errors (set v o) = pupil_compare_errors o
          ∧ pupil_compare_rotations (set v o) = pupil_compare_rotations o
          ∧ pupil_compare_reverse_errors (set v o) = pupil_compare_reverse_errors o) →
  AxesBlindTo same_series set.
Proof.
  intros Hset w a v a'. generalize (Hset v (ax_obj w a)).
  generalize (set v (ax_obj w a)). intros o Ho.
  unfold ax_obj in *. cbn [axes with_axes].
  destruct (decide (a = a')) as [<-|Hne].
  - by rewrite lookup_insert_eq.
  - by rewrite lookup_insert_ne.
Qed.
#[global] Instance same_series_colorbar :
  AxesBlindTo same_series set_differencemap_colorbar.
Proof. by apply same_series_setter. Qed.
#[global] Instance same_series_extra :
  AxesBlindTo same_series set_extra_illustrate_ax.
Proof. by apply same_series_setter. Qed.
#[global] Instance same_series_illustrate : AxesBlindTo same_series set_illustrate_ax.
Proof. by apply same_series_setter. Qed.
#[global] Instance same_series_error_ax : AxesBlindTo same_series set_error_ax.
Proof. by apply same_series_setter. Qed.
#[global] Instance same_series_colorbar_ax : AxesBlindTo same_series set_colorbar_ax.
Proof. by apply same_series_setter. Qed.
#[global] Instance same_series_cbox : AxesBlindTo same_series set_cbox.
Proof. by apply same_series_setter. Qed.

Lemma bind_params_untouched positional varkw k given :
  ∀ params rest p kwargs,
  bind_params positional params rest varkw given = Some (p, kwargs) →
  k ∉ dict_keys given →
  arg p k = arg params k.
Proof.
  induction given as [|[k' v] given IH]; intros params rest p kwargs H Hk.
  - by injection H as <- _.
  - simpl in H. destruct (existsb _ positional); [done|].
    unfold dict_keys in Hk. rewrite fmap_cons in Hk. cbn [fst] in Hk.
    apply not_elem_of_cons in Hk as [Hne Hk].
    destruct (dict_has k' params).
    + rewrite (IH _ _ _ _ H Hk). apply arg_set_ne. by apply String.eqb_neq.
    + destruct varkw; [|done]. by apply (IH _ _ _ _ H Hk).
Qed.

Section Series.
Context (get_3d_vectors : aid → analyser → string → pyval → pyval → pyval → pyval
                          → option vectorfield)
  (field_error : list vec3 → list vec3 → list vec3 → list vec3 → pyval
                 → option (list float))
  (np_mean : list float → float).

(** Without [total_error], [compare_3d_vectormaps] leaves the series. *)
Lemma compare_3d_vectormaps_keeps_series m1 m2 given p kwargs :
  bind_params ["manalyser1"; "manalyser2"] compare_3d_vectormaps_params []
    true given = Some (p, kwargs) →
  arg p "total_error" = PBool false →
  stable same_series
    (compare_3d_vectormaps get_3d_vectors field_error np_mean m1 m2 given).
Proof.
  intros Hp Htotal. unfold compare_3d_vectormaps. rewrite Hp, Htotal.
  repeat first
    [ match goal with
      | |- stable _ (bind (truthy (PBool ?b)) _) =>
          change (truthy (PBool b)) with (@ret bool b);
          apply stable_bind_ret; cbv beta iota
      | |- stable _ (match ?x with _ => _ end) => destruct x
      end
    | apply stable_bind; [apply _|solve [stable_tac]|intros] ].
  stable_tac.
Qed.

Lemma compare_3d_vectormaps_compact_keeps_series m1 m2 kwargs :
  stable same_series
    (compare_3d_vectormaps_compact get_3d_vectors field_error np_mean m1 m2 kwargs).
Proof.
  unfold compare_3d_vectormaps_compact, call_with.
  change (join_kwargs [?d; kwargs])
    with (match join_kwargs [kwargs] with
          | Some rest =>
              if forallb (λ k, negb (dict_has k rest)) (dict_keys d)
              then Some (d ++ rest) else None
          | None => None
          end).
  rewrite join_kwargs_single, app_nil_r.
  destruct (forallb _ _) eqn:Hfresh; [|stable_tac].
  destruct (bind_params ["manalyser1"; "manalyser2"] compare_3d_vectormaps_params []
              true ([("compact", PBool true); ("total_error", PBool false);
                     ("illustrate", PBool false)] ++ kwargs))
    as [[p kw]|] eqn:Hp.
  - eapply compare_3d_vectormaps_keeps_series; [exact Hp|].
    rewrite bind_params_app in Hp. cbn in Hp.
    rewrite (bind_params_untouched _ _ "total_error" _ _ _ _ _ Hp); [done|].
    rewrite forallb_forall in Hfresh.
    intros Hin%dict_has_elem_of.
    assert (In "total_error" (dict_keys [("compact", PBool true);
              ("total_error", PBool false); ("illustrate", PBool false)])) as Hin'
      by (right; by left).
    apply Hfresh in Hin'. by rewrite Hin in Hin'.
  - unfold compare_3d_vectormaps. rewrite Hp. stable_tac.
Qed.
End Series.

Lemma ax_obj_update w a o a' :
  ax_obj (with_axes (<[a := o]> (axes w)) w) a'
  = if decide (a' = a) then o else ax_obj w a'.
Proof.
  unfold ax_obj. cbn [axes with_axes]. destruct (decide (a' = a)) as [->|Hne].
  - by rewrite lookup_insert_eq.
  - by rewrite lookup_insert_ne.
Qed.

Lemma update_axes_run a f w w' evs u :
  update_axes a f w = Run w' evs (Return u) →
  w' = with_axes (<[a := f (ax_obj w a)]> (axes w)) w.
Proof. by intros [= <- _]. Qed.

Lemma point_added_same_series a mean variable w0 w1 w2 w3 :
  same_series w0 w1 → point_added a mean variable w1 w2 → same_series w2 w3 →
  point_added a mean variable w0 w3.
Proof.
  intros H01 (He & Hr & Hother) H23. unfold point_added, series_start in *.
  destruct (H01 a) as (E1 & R1 & _), (H23 a) as (E3 & R3 & _).
  rewrite E3, R3, He, Hr, E1, R1. split_and!; [done..|]. intros a' Hne.
  destruct (H01 a') as (<- & <- & <-), (H23 a') as (-> & -> & ->).
  by apply Hother.
Qed.

Lemma series_aligned_same_series a w w' :
  same_series w w' → series_aligned a w → series_aligned a w'.
Proof. unfold series_aligned. intros H. by destruct (H a) as (-> & -> & _). Qed.

#[global] Instance series_tail_preorder a : PreOrder (series_tail a).
Proof.
  split; [by intros w|]. intros w1 w2 w3 [H12 H12'] [H23 H23']. split.
  - intros a'. destruct (H12 a') as [<- <-], (H23 a') as [-> ->]. done.
  - intros a' Hne. by rewrite (H23' a' Hne), (H12' a' Hne).
Qed.
#[global] Instance series_tail_analysers a : AnalysersBlind (series_tail a).
Proof. by intros w f. Qed.
#[global] Instance series_tail_lists a : ListsBlind (series_tail a).
Proof. intros w r l. by destruct r. Qed.
#[global] Instance series_tail_dicts a : DictsBlind (series_tail a).
Proof. intros w r d. by destruct r. Qed.

(** A write to the slower series of [a]. *)
Lemma update_reverse_errors_tail a v :
  stable (series_tail a) (update_axes a (set_pupil_compare_reverse_errors v)).
Proof.
  intros w. cbn [update_axes modify final]. split.
  - intros a'. rewrite ax_obj_update. by destruct (decide _) as [->|].
  - intros a' Hne. by rewrite ax_obj_update, decide_False.
Qed.
#[global] Hint Resolve update_reverse_errors_tail : stable.

Lemma point_added_tail a mean variable w0 w1 w2 :
  point_added a mean variable w0 w1 → series_tail a w1 w2 →
  point_added a mean variable w0 w2.
Proof.
  intros (He & Hr & Hother) [H12 H12']. unfold point_added.
  destruct (H12 a) as [-> ->]. split_and!; [done..|]. intros a' Hne.
  destruct (H12 a') as [-> ->]. rewrite (H12' a' Hne). by apply Hother.
Qed.

Lemma series_aligned_tail a w w' :
  series_tail a w w' → series_aligned a w → series_aligned a w'.
Proof. unfold series_aligned. intros [H _]. by destruct (H a) as [-> ->]. Qed.
Section Points.
Context (np_mean : list float → float).

Lemma axes_of_run a w w' evs o :
  axes_of a w = Run w' evs (Return o) → w' = w ∧ o = ax_obj w a.
Proof. by intros [= <- _ <-]. Qed.

Lemma compare_total_error_run axes_ iax p optimal errors reverse_errors w w' evs u :
  compare_total_error np_mean axes_ iax p optimal errors reverse_errors w
  = Run w' evs (Return u) →
  ∃ a, point_added a (np_mean errors) (arg p "animation_variable") w w'
       ∧ series_aligned a w'.
Proof.
  unfold compare_total_error. intros H.
  step H as w1 e1 ax Hax. kept (@eq world) Hax. subst w1.
  step H as w1 e2 a' Ha. destruct ax; try discriminate Ha. injection Ha as <- _ <-.
  match goal with x : axid |- _ => rename x into a end. exists a.
  step H as w1 e3 o Ho. apply axes_of_run in Ho as [-> ->].
  step H as w1 e4 u1 Hinit.
  step H as w2 e5 o Ho. apply axes_of_run in Ho as [-> ->].
  step H as w2 e6 u2 Herr. apply update_axes_run in Herr.
  step H as w3 e7 o Ho. apply axes_of_run in Ho as [-> ->].
  step H as w3 e8 u3 Hrot.
  step H as w4 e9 o Ho. apply axes_of_run in Ho as [-> ->].
  step H as w4 e10 u4 Hplot.
  assert (w4 = w3 ∧ series_aligned a w3) as [-> Haligned].
  { unfold series_aligned. destruct (Nat.eqb _ _) eqn:Hlen; [|discriminate Hplot].
    apply Nat.eqb_eq in Hlen. split; [|exact Hlen].
    by injection Hplot as <- _. }
  assert (point_added a (np_mean errors) (arg p "animation_variable") w w3) as Hadded.
  { clear H Haligned Hplot.
    destruct (pupil_compare_rotations (ax_obj w2 a)) as [rotations|] eqn:Hrotations;
      [|discriminate Hrot].
    apply update_axes_run in Hrot. subst w3 w2.
    rewrite !ax_obj_update in *. rewrite !decide_True in * by done.
    unfold point_added, series_start.
    destruct (pupil_compare_errors (ax_obj w a)) as [recorded|] eqn:Hrecorded.
    - injection Hinit as <- _. rewrite Hrecorded in *. cbn in Hrotations.
      split_and!; [rewrite !ax_obj_update, !decide_True by done; cbn;
                   by rewrite ?Hrotations..|]. intros a' Hne.
      rewrite !ax_obj_update, !decide_False by done. done.
    - step Hinit as w5 e11 u5 Hinit1.
      apply update_axes_run in Hinit1, Hinit. subst w1 w5.
      rewrite !ax_obj_update in *. rewrite !decide_True in * by done.
      cbn in Hrotations. injection Hrotations as <-.
      split_and!; [by rewrite ?ax_obj_update, ?decide_True by done..|].
      intros a' Hne.
      rewrite ?ax_obj_update, ?decide_False by done. done. }
  clear Herr Hrot Hinit Hplot.
  kept (series_tail a) H.
  split; [by eapply point_added_tail|by eapply series_aligned_tail].
Qed.
End Points.

Section Mean.
Context (get_3d_vectors : aid → analyser → string → pyval → pyval → pyval → pyval
                          → option vectorfield)
  (field_error : list vec3 → list vec3 → list vec3 → list vec3 → pyval
                 → option (list float))
  (np_mean : list float → float).

(** The point added is the mean of the field of the last difference map:
    the one whose surfaces are the last drawn. *)
Lemma compare_3d_vectormaps_adds_the_mean m1 m2 given p kwargs w w' evs v :
  bind_params ["manalyser1"; "manalyser2"] compare_3d_vectormaps_params []
    true given = Some (p, kwargs) →
  arg p "total_error" = PBool true →
  compare_3d_vectormaps get_3d_vectors field_error np_mean m1 m2 given w
  = Run w' evs (Return v) →
  ∃ a fields earlier,
    length fields = length (eyes (analysers w m1))
    ∧ project surface_of evs = earlier ++ eye_surfaces (eyes (analysers w m1)) fields
    ∧ point_added a (np_mean (concat fields)) (arg p "animation_variable") w w'
    ∧ series_aligned a w'.
Proof.
  intros Hp Htotal H. unfold compare_3d_vectormaps in H. rewrite Hp, Htotal in H.
  assert (same_series w w) as Hsame by reflexivity.
  assert (same_eyes w w) as Heyes by reflexivity.
  repeat (let w1 := fresh "w" in let e1 := fresh "evs" in let a := fresh "a" in
          let H1 := fresh "H" in step H as w1 e1 a H1;
          lazymatch type of H1 with
          | compare_total_error _ _ _ _ _ _ _ _ = _ => fail
          | truthy (PBool true) _ = _ => injection H1 as <- <- <-
          | _ =>
              let Hs := fresh "Hs" in
              let He := fresh "He" in
              pose proof H1 as Hs; pose proof H1 as He;
              kept same_series Hs; kept same_eyes He;
              lazymatch type of H1 with
              | call_with (plot_3d_differencemap _ _ _ _) _ _ = _ =>
                  let fields := fresh "fields" in
                  let Hlen := fresh "Hlen" in
                  let Hsurf := fresh "Hsurf" in
                  unfold call_with in H1;
                  destruct (join_kwargs _) as [?|]; [|discriminate H1];
                  apply plot_3d_differencemap_run in H1
                    as (fields & -> & Hlen & Hsurf);
                  rewrite (Heyes m1) in Hlen, Hsurf
              | _ =>
                  first [ apply (emits_run (hidden surface_of)) in H1;
                          [|solve [emits_tac]];
                          apply project_hidden in H1
                        | idtac ]
              end;
              apply (PreOrder_Transitive _ _ _ Hsame) in Hs; clear Hsame;
              rename Hs into Hsame;
              apply (PreOrder_Transitive _ _ _ Heyes) in He; clear Heyes;
              rename He into Heyes
          end).
  step H as wt et ut Htotal_error. pose proof Htotal_error as Hquiet.
  apply (emits_run (hidden surface_of)) in Hquiet; [|solve [emits_tac]].
  apply project_hidden in Hquiet.
  apply compare_total_error_run in Htotal_error as (target & Hadded & Haligned).
  step H as wl el r Hlist. pose proof Hlist as Hquiet'.
  apply (emits_run (hidden surface_of)) in Hquiet'; [|solve [emits_tac]].
  apply project_hidden in Hquiet'.
  kept same_series Hlist. injection H as <- <- _.
  match goal with
  | Hblock : (if _ then _ else _) _ = Run _ ?e _ |- _ =>
      exists target, fields, (project surface_of e); clear Hblock
  end.
  split_and!.
  - exact Hlen.
  - rewrite ?project_app.
    repeat match goal with
           | Hq : project surface_of _ = _ |- _ => rewrite Hq; clear Hq
           end.
    cbn [app project]. by rewrite ?app_nil_r.
  - eapply point_added_same_series; [exact Hsame|exact Hadded|exact Hlist].
  - by eapply series_aligned_same_series.
Qed.
End Mean.

Section TotalError.
Context (get_3d_vectors : aid → analyser → string → pyval → pyval → pyval → pyval
                          → option vectorfield)
  (field_error : list vec3 → list vec3 → list vec3 → list vec3 → pyval
                 → option (list float))
  (np_mean : list float → float).

(** Without [animation], the panel of the total error ends at line 762. *)
Lemma compare_total_error_needs_animation axes_ iax p optimal errors
    reverse_errors w :
  arg p "animation" = PNone →
  ∃ e, result (compare_total_error np_mean axes_ iax p optimal errors
                 reverse_errors w) = Raise e.
Proof.
  intros Hanimation.
  destruct (compare_total_error _ _ _ _ _ _ _ w) as [w' evs [u|e]] eqn:H;
    [exfalso|by exists e].
  unfold compare_total_error in H. rewrite Hanimation in H.
  cbn [is_None negb] in H.
  do 3 (let w1 := fresh "w" in let e1 := fresh "evs" in let a := fresh "a" in
        let H1 := fresh "H" in step H as w1 e1 a H1; clear H1).
  repeat (let w1 := fresh "w" in let e1 := fresh "evs" in let a := fresh "a" in
          let H1 := fresh "H" in step H as w1 e1 a H1; clear H1;
          try discriminate H).
Qed.

Lemma compare_3d_vectormaps_needs_animation m1 m2 given p kwargs w :
  bind_params ["manalyser1"; "manalyser2"] compare_3d_vectormaps_params []
    true given = Some (p, kwargs) →
  arg p "total_error" = PBool true →
  arg p "animation" = PNone →
  ∃ e, result (compare_3d_vectormaps get_3d_vectors field_error np_mean m1 m2
                 given w) = Raise e.
Proof.
  intros Hp Htotal Hanimation.
  destruct (compare_3d_vectormaps _ _ _ _ _ _ w) as [w' evs [u|e]] eqn:H;
    [exfalso|by exists e].
  unfold compare_3d_vectormaps in H. rewrite Hp, Htotal in H.
  repeat (let w1 := fresh "w" in let e1 := fresh "evs" in let a := fresh "a" in
          let H1 := fresh "H" in step H as w1 e1 a H1;
          lazymatch type of H1 with
          | compare_total_error _ ?axes_ ?iax _ ?optimal ?errors ?reversed ?w0 = _ =>
              destruct (compare_total_error_needs_animation axes_ iax p optimal
                          errors reversed w0 Hanimation) as [e He];
              rewrite H1 in He; discriminate He
          | truthy (PBool true) _ = _ => injection H1 as <- <- <-
          | _ => clear H1
          end).
Qed.
End TotalError.

(** ** The calls of [compare_3d_vectormaps] *)

Lemma dict_set_keys_inv k k' v d :
  k' ∈ dict_keys (dict_set k v d) → k' ≠ k → k' ∈ dict_keys d.
Proof.
  unfold dict_keys. intros Hin Hne. induction d as [|[k2 v2] d IH]; simpl in *.
  - apply list_elem_of_singleton in Hin. congruence.
  - destruct (String.eqb k k2); simpl in *.
    + apply elem_of_cons in Hin as [Hin|Hin]; [congruence|].
      by apply list_elem_of_further.
    + apply elem_of_cons in Hin as [->|Hin]; [apply list_elem_of_here|].
      apply list_elem_of_further. by apply IH.
Qed.

Lemma dict_set_nodup k v d : NoDup (dict_keys d) → NoDup (dict_keys (dict_set k v d)).
Proof.
  unfold dict_keys. induction d as [|[k1 v1] d IH]; simpl.
  - intros _. apply NoDup_singleton.
  - intros Hnodup. pose proof (NoDup_cons_1_1 _ _ Hnodup) as Hk1.
    pose proof (NoDup_cons_1_2 _ _ Hnodup) as Hd.
    destruct (String.eqb_spec k k1) as [->|Hne]; simpl; apply NoDup_cons_2.
    + done.
    + done.
    + intros Hin. apply Hk1. apply (dict_set_keys_inv k k1 v d Hin). congruence.
    + by apply IH.
Qed.

Lemma bind_params_rest_nodup positional varkw given :
  ∀ params rest p kwargs,
  bind_params positional params rest varkw given = Some (p, kwargs) →
  NoDup (dict_keys rest) → NoDup (dict_keys kwargs).
Proof.
  induction given as [|[k v] given IH]; intros params rest p kwargs H Hrest.
  - by injection H as _ <-.
  - simpl in H. destruct (existsb _ positional); [done|].
    destruct (dict_has k params); [by eapply IH|].
    destruct varkw; [|done]. eapply IH; [exact H|]. by apply dict_set_nodup.
Qed.

Lemma dict_get_not_elem_of k d : k ∉ dict_keys d → dict_get k d = None.
Proof.
  intros H%dict_has_not_elem_of. unfold dict_has in H. by destruct (dict_get k d).
Qed.

(** A keyword that is no parameter reaches the catch-all. *)
Lemma bind_params_rest_get positional k given :
  NoDup (dict_keys given) →
  ∀ params rest p kwargs,
  bind_params positional params rest true given = Some (p, kwargs) →
  dict_has k params = false →
  dict_get k kwargs
  = match dict_get k given with Some v => Some v | None => dict_get k rest end.
Proof.
  induction given as [|[k' v] given IH]; intros Hnodup params rest p kwargs H Hk.
  - by injection H as _ <-.
  - unfold dict_keys in Hnodup. rewrite fmap_cons in Hnodup. cbn [fst] in Hnodup.
    pose proof (NoDup_cons_1_1 _ _ Hnodup) as Hk'.
    apply NoDup_cons_1_2 in Hnodup.
    simpl in H. destruct (existsb _ positional); [done|]. cbn [dict_get].
    destruct (dict_has k' params) eqn:Hk'p.
    + destruct (String.eqb_spec k k') as [->|Hne]; [congruence|].
      apply (IH Hnodup _ _ _ _ H). unfold dict_has in *.
      rewrite dict_get_set. by rewrite (proj2 (String.eqb_neq k k')).
    + rewrite (IH Hnodup _ _ _ _ H Hk). rewrite dict_get_set.
      destruct (String.eqb_spec k k') as [->|Hne].
      * by rewrite (dict_get_not_elem_of k' given).
      * done.
Qed.

Lemma deepcopy_fold_keys l :
  ∀ memo acc w w' evs memo' copied,
  fold_each l (memo, acc) (λ '(memo, copied) '(k, v),
    let* (memo, v') := deepcopy_value memo v in
    ret (memo, copied ++ [(k, v')])) w
  = Run w' evs (Return (memo', copied)) →
  dict_keys copied = dict_keys acc ++ dict_keys l.
Proof.
  induction l as [|[k v] l IH]; intros memo acc w w' evs memo' copied H.
  - injection H as _ _ _ <-. by rewrite app_nil_r.
  - cbn [fold_each] in H. step H as w1 e1 s Hs. destruct s as [memo1 acc1].
    apply IH in H. rewrite H.
    step Hs as w2 e2 mv Hv. injection Hs as _ _ _ <-.
    unfold dict_keys. rewrite fmap_app, <- app_assoc. done.
Qed.

Lemma deepcopy_keys kwargs w w' evs copied :
  deepcopy kwargs w = Run w' evs (Return copied) →
  dict_keys copied = dict_keys kwargs.
Proof.
  unfold deepcopy. intros H. step H as w1 e1 s Hs.
  injection H as _ _ <-. by apply deepcopy_fold_keys in Hs.
Qed.

(** The keywords [compare_3d_vectormaps] is called with for a view. *)
Lemma view_call_run axes_ biphasic naxes i view kwargs w w' evs given :
  NoDup (dict_keys kwargs) →
  view_call axes_ biphasic naxes i view kwargs w = Run w' evs (Return given) →
  ∃ view_axes kwargsD viewargs,
    given = ("axes", view_axes) :: ("biphasic", PBool biphasic)
            :: ((if Nat.eqb i 0
                 then [("kwargsD", kwargsD); ("illustrate", PBool true);
                       ("total_error", PBool true)]
                 else [("illustrate", PBool false); ("total_error", PBool false);
                       ("kwargsD", kwargsD)]) ++ viewargs)
    ∧ NoDup (dict_keys viewargs)
    ∧ dict_get "elev" viewargs = Some (PInt view.1)
    ∧ dict_get "azim" viewargs = Some (PInt view.2)
    ∧ ("illustrate" ∉ dict_keys viewargs)
    ∧ ("total_error" ∉ dict_keys viewargs)
    ∧ ∀ k, k ∈ dict_keys viewargs → k = "azim" ∨ k = "elev" ∨ k ∈ dict_keys kwargs.
Proof.
  intros Hnodup H. unfold view_call in H.
  step H as w1 e1 copied Hcopied. apply deepcopy_keys in Hcopied.
  step H as w2 e2 all_axes Hall. clear Hall.
  step H as w3 e3 illustrate_panel Hi. clear Hi.
  step H as w4 e4 error_panel He. clear He.
  step H as w5 e5 view_axes Hv. clear Hv.
  step H as w6 e6 explicit Hexplicit.
  set (viewargs := dict_set "azim" (PInt view.2)
                     (dict_set "elev" (PInt view.1) copied)) in *.
  change (join_kwargs [explicit; viewargs])
    with (match join_kwargs [viewargs] with
          | Some rest =>
              if forallb (λ k, negb (dict_has k rest)) (dict_keys explicit)
              then Some (explicit ++ rest) else None
          | None => None
          end) in H.
  rewrite join_kwargs_single, app_nil_r in H.
  destruct (forallb _ _) eqn:Hfresh; [|discriminate H]. injection H as _ _ <-.
  rewrite forallb_forall in Hfresh.
  assert (In "illustrate" (dict_keys explicit) ∧ In "total_error" (dict_keys explicit)
          ∧ ∃ kwargsD, explicit
              = ("axes", PList view_axes) :: ("biphasic", PBool biphasic)
                :: (if Nat.eqb i 0
                    then [("kwargsD", kwargsD); ("illustrate", PBool true);
                          ("total_error", PBool true)]
                    else [("illustrate", PBool false); ("total_error", PBool false);
                          ("kwargsD", kwargsD)])) as (Hin1 & Hin2 & kwargsD & ->).
  { destruct (Nat.eqb i 0).
    - step Hexplicit as w7 e7 panel Hp. step Hexplicit as w8 e8 d Hd.
      injection Hexplicit as _ _ <-. split_and!; [simpl; tauto..|by eexists].
    - step Hexplicit as w8 e8 d Hd.
      injection Hexplicit as _ _ <-. split_and!; [simpl; tauto..|by eexists]. }
  exists (PList view_axes), kwargsD, viewargs. split_and!.
  - done.
  - unfold viewargs. do 2 apply dict_set_nodup. by rewrite Hcopied.
  - unfold viewargs. by rewrite !dict_get_set.
  - unfold viewargs. by rewrite dict_get_set.
  - intros Hin%dict_has_elem_of. apply Hfresh in Hin1. by rewrite Hin in Hin1.
  - intros Hin%dict_has_elem_of. apply Hfresh in Hin2. by rewrite Hin in Hin2.
  - intros k Hk. unfold viewargs in Hk.
    destruct (decide (k = "azim")) as [->|Hazim]; [by left|].
    destruct (decide (k = "elev")) as [->|Helev]; [by right; left|].
    right; right. rewrite <- Hcopied.
    by do 2 (apply dict_set_keys_inv in Hk; [|done]).
Qed.

Section Views.
Context (get_3d_vectors : aid → analyser → string → pyval → pyval → pyval → pyval
                          → option vectorfield)
  (field_error : list vec3 → list vec3 → list vec3 → list vec3 → pyval
                 → option (list float))
  (np_mean : list float → float).

Lemma plot_3d_differencemap_hides_comparisons m1 m2 given :
  emits (hidden comparison_of)
    (plot_3d_differencemap get_3d_vectors field_error m1 m2 given).
Proof. unfold plot_3d_differencemap. emits_tac. Qed.

(** A call of [compare_3d_vectormaps] shows as itself, once. *)
Lemma compare_3d_vectormaps_shows m1 m2 given p kwargs w :
  bind_params ["manalyser1"; "manalyser2"] compare_3d_vectormaps_params []
    true given = Some (p, kwargs) →
  project comparison_of
    (emitted (compare_3d_vectormaps get_3d_vectors field_error np_mean m1 m2
                given w))
  = [(p, kwargs)].
Proof.
  intros Hp. unfold compare_3d_vectormaps. rewrite Hp, emit_bind_run.
  cbn [emitted]. change (project comparison_of (?e :: ?l))
    with (comparison_of e ++ project comparison_of l).
  cbn [comparison_of String.eqb Ascii.eqb Bool.eqb].
  match goal with
  | |- context [emitted (?rest w)] =>
      assert (emits (hidden comparison_of) rest) as Hrest
  end.
  { pose proof plot_3d_differencemap_hides_comparisons.
    emits_tac. }
  by rewrite (project_hidden _ _ (Hrest w)).
Qed.
End Views.

(** What the call for the view [i] shows. *)
Lemma view_binding i view_axes biphasic kwargsD viewargs (view : Z * Z) p kwargs :
  bind_params ["manalyser1"; "manalyser2"] compare_3d_vectormaps_params [] true
    (("axes", view_axes) :: ("biphasic", PBool biphasic)
     :: ((if Nat.eqb i 0
          then [("kwargsD", kwargsD); ("illustrate", PBool true);
                ("total_error", PBool true)]
          else [("illustrate", PBool false); ("total_error", PBool false);
                ("kwargsD", kwargsD)]) ++ viewargs))
  = Some (p, kwargs) →
  NoDup (dict_keys viewargs) →
  dict_get "elev" viewargs = Some (PInt view.1) →
  dict_get "azim" viewargs = Some (PInt view.2) →
  ("illustrate" ∉ dict_keys viewargs) →
  ("total_error" ∉ dict_keys viewargs) →
  view_of (p, kwargs)
  = (PInt view.1, PInt view.2, PBool (Nat.eqb i 0), PBool (Nat.eqb i 0)).
Proof.
  intros H Hnodup Helev Hazim Hillustrate Htotal. unfold view_of. cbn [fst snd].
  destruct (Nat.eqb i 0); cbn in H.
  all: rewrite (bind_params_untouched _ _ "illustrate" _ _ _ _ _ H Hillustrate).
  all: rewrite (bind_params_untouched _ _ "total_error" _ _ _ _ _ H Htotal).
  all: unfold dict_get_default.
  all: rewrite (bind_params_rest_get _ "elev" _ Hnodup _ _ _ _ H eq_refl), Helev.
  all: rewrite (bind_params_rest_get _ "azim" _ Hnodup _ _ _ _ H eq_refl), Hazim.
  all: reflexivity.
Qed.

(** A step that shows no call of [compare_3d_vectormaps]. *)
Ltac no_comparison H :=
  let w1 := fresh "w" in
  let e1 := fresh "evs" in
  let a := fresh "a" in
  let H1 := fresh "Hstep" in
  step H as w1 e1 a H1;
  apply (emits_run (hidden comparison_of)) in H1; [|solve [emits_tac]];
  apply project_hidden in H1;
  rewrite ?project_app, ?H1, ?app_nil_l; clear H1.

Section ManyViews.
Context (get_3d_vectors : aid → analyser → string → pyval → pyval → pyval → pyval
                          → option vectorfield)
  (field_error : list vec3 → list vec3 → list vec3 → list vec3 → pyval
                 → option (list float))
  (np_mean : list float → float).

(** The call for the view [i] of the loop of lines 919-934. *)
Lemma manyviews_view_run args axes_ biphasic naxes i view kwargs w w' evs u :
  NoDup (dict_keys kwargs) →
  (let* given := view_call axes_ biphasic naxes i view kwargs in
   match args with
   | [manalyser1; manalyser2] =>
       compare_3d_vectormaps get_3d_vectors field_error np_mean
         manalyser1 manalyser2 given;; ret tt
   | _ => raise TypeError
   end) w = Run w' evs (Return u) →
  view_of <$> project comparison_of evs
  = [(PInt view.1, PInt view.2, PBool (Nat.eqb i 0), PBool (Nat.eqb i 0))].
Proof.
  intros Hnodup H. step H as w1 e1 given Hview.
  pose proof Hview as Hquiet.
  apply (emits_run (hidden comparison_of)) in Hquiet; [|solve [emits_tac]].
  apply project_hidden in Hquiet. rewrite project_app, Hquiet, app_nil_l.
  apply (view_call_run _ _ _ _ _ _ _ _ _ _ Hnodup) in Hview
    as (view_axes & kwargsD & viewargs & -> & Hv & Helev & Hazim & Hi & Ht & _).
  destruct args as [|m1 [|m2 [|]]]; try discriminate H.
  step H as w2 e2 r Hcompare. injection H as _ <- _. rewrite app_nil_r.
  match type of Hcompare with
  | compare_3d_vectormaps _ _ _ _ _ ?given _ = _ =>
      destruct (bind_params ["manalyser1"; "manalyser2"]
                  compare_3d_vectormaps_params [] true given)
        as [[p kw]|] eqn:Hp;
      [|unfold compare_3d_vectormaps in Hcompare; rewrite Hp in Hcompare;
        discriminate Hcompare]
  end.
  pose proof (compare_3d_vectormaps_shows get_3d_vectors field_error np_mean
                m1 m2 _ p kw w1 Hp) as Hshows.
  rewrite Hcompare in Hshows. cbn [emitted] in Hshows. rewrite Hshows.
  cbn [fmap list_fmap]. f_equal. by eapply view_binding.
Qed.

Lemma compare_3d_vectormaps_manyviews_run args given w w' evs v :
  compare_3d_vectormaps_manyviews get_3d_vectors field_error np_mean args given w
  = Run w' evs (Return v) →
  view_of <$> project comparison_of evs
  = [(PInt 50, PInt 90, PBool true, PBool true);
     (PInt 0, PInt 90, PBool false, PBool false);
     (PInt (-50), PInt 90, PBool false, PBool false)].
Proof.
  unfold compare_3d_vectormaps_manyviews. intros H.
  destruct (bind_params [] manyviews_params [] true given) as [[p kwargs]|] eqn:Hp;
    [|discriminate H].
  assert (NoDup (dict_keys kwargs)) as Hnodup.
  { eapply bind_params_rest_nodup; [exact Hp|]. apply NoDup_nil_2. }
  repeat (lazymatch type of H with
          | bind (for_each (enumerate views) _) _ _ = _ => fail
          | _ => no_comparison H
          end).
  step H as wl el ul Hloop.
  change (enumerate views)
    with [(0%nat, (50, 90)); (1%nat, (0, 90)); (2%nat, (-50, 90))] in Hloop.
  cbn [for_each] in Hloop.
  step Hloop as wa ea ua Hview1. step Hloop as wb eb ub Hview2.
  step Hloop as wc ec uc Hview3. injection Hloop as _ <- _.
  apply (manyviews_view_run _ _ _ _ _ _ _ _ _ _ _ Hnodup) in Hview1, Hview2, Hview3.
  repeat no_comparison H. injection H as _ <- _.
  rewrite ?app_nil_r, ?project_app, ?fmap_app, ?Hview1, ?Hview2, ?Hview3.
  reflexivity.
Qed.
End ManyViews.

Lemma bind_params_rest_subset positional varkw k given :
  ∀ params rest p kwargs,
  bind_params positional params rest varkw given = Some (p, kwargs) →
  k ∈ dict_keys kwargs → k ∈ dict_keys given ∨ k ∈ dict_keys rest.
Proof.
  induction given as [|[k' v] given IH]; intros params rest p kwargs H Hk.
  - injection H as _ <-. by right.
  - simpl in H. destruct (existsb _ positional); [done|].
    unfold dict_keys at 1. rewrite fmap_cons. cbn [fst].
    destruct (dict_has k' params).
    + destruct (IH _ _ _ _ H Hk) as [Hin|Hin]; [|by right].
      left. by apply list_elem_of_further.
    + destruct varkw; [|done].
      destruct (IH _ _ _ _ H Hk) as [Hin|Hin];
        [left; by apply list_elem_of_further|].
      destruct (decide (k = k')) as [->|Hne]; [left; apply list_elem_of_here|].
      right. by apply dict_set_keys_inv in Hin.
Qed.

Section ManyViewsAnimation.
Context (get_3d_vectors : aid → analyser → string → pyval → pyval → pyval → pyval
                          → option vectorfield)
  (field_error : list vec3 → list vec3 → list vec3 → list vec3 → pyval
                 → option (list float))
  (np_mean : list float → float).

Lemma compare_3d_vectormaps_manyviews_needs_animation args given w :
  "animation" ∉ dict_keys given →
  ∃ e, result (compare_3d_vectormaps_manyviews get_3d_vectors field_error np_mean
                 args given w) = Raise e.
Proof.
  intros Hanimation.
  destruct (compare_3d_vectormaps_manyviews _ _ _ _ _ w) as [w' evs [v|e]] eqn:H;
    [exfalso|by exists e].
  unfold compare_3d_vectormaps_manyviews in H.
  destruct (bind_params [] manyviews_params [] true given) as [[p kwargs]|] eqn:Hp;
    [|discriminate H].
  assert (NoDup (dict_keys kwargs)) as Hnodup.
  { eapply bind_params_rest_nodup; [exact Hp|]. apply NoDup_nil_2. }
  assert ("animation" ∉ dict_keys kwargs) as Hkwargs.
  { intros Hin.
    destruct (bind_params_rest_subset _ _ _ _ _ _ _ _ Hp Hin) as [Hin'|Hin'];
      [done|by apply elem_of_nil in Hin']. }
  repeat (lazymatch type of H with
          | bind (for_each (enumerate views) _) _ _ = _ => fail
          | _ => let w1 := fresh "w" in let e1 := fresh "evs" in
                 let a := fresh "a" in let H1 := fresh "H" in
                 step H as w1 e1 a H1; clear H1
          end).
  step H as wl el ul Hloop. clear H.
  change (enumerate views)
    with [(0%nat, (50, 90)); (1%nat, (0, 90)); (2%nat, (-50, 90))] in Hloop.
  cbn [for_each] in Hloop.
  step Hloop as wa ea ua H. clear Hloop.
  step H as wb eb given' Hview.
  apply (view_call_run _ _ _ _ _ _ _ _ _ _ Hnodup) in Hview
    as (view_axes & kwargsD & viewargs & -> & _ & _ & _ & _ & Htotal & Hkeys).
  assert ("animation" ∉ dict_keys viewargs) as Hviewargs.
  { intros [Heq|[Heq|Hin]]%Hkeys; [discriminate Heq..|done]. }
  destruct args as [|m1 [|m2 [|]]]; try discriminate H.
  step H as wc ec r Hcompare. clear H.
  match type of Hcompare with
  | compare_3d_vectormaps _ _ _ _ _ ?given _ = _ =>
      destruct (bind_params ["manalyser1"; "manalyser2"]
                  compare_3d_vectormaps_params [] true given)
        as [[p' kw]|] eqn:Hb;
      [|unfold compare_3d_vectormaps in Hcompare; rewrite Hb in Hcompare;
        discriminate Hcompare]
  end.
  destruct (compare_3d_vectormaps_needs_animation get_3d_vectors field_error
              np_mean m1 m2 _ p' kw wb Hb) as [e He].
  - cbn in Hb. by rewrite (bind_params_untouched _ _ "total_error" _ _ _ _ _ Hb Htotal).
  - cbn in Hb. by rewrite (bind_params_untouched _ _ "animation" _ _ _ _ _ Hb Hviewargs).
  - rewrite Hcompare in He. discriminate He.
Qed.
End ManyViewsAnimation.
(** * The claims *)

(** C1: the call of the Comparison Orchestrator with
    [animation_type = "pitch_rot"] and the animation variable 45, on two
    averagers without tilt, returns; all the extractions that Panel 2 (the
    call of [plot_3d_vectormap] on entity 2) makes find [pitch_rot] of
    entity 2 at None, not at 45: line 231 hands the dict of the tilts to
    [_set_analyser_attributes] as the analyser and no keyword, so nothing
    is set. *)
Theorem panel_2_extracts_without_the_tilt :
  let r := compare_3d_vectormaps example_get_3d_vectors example_field_error
             example_np_mean 1 2
             [("axes", five_axes); ("animation_type", PStr "pitch_rot");
              ("animation_variable", PInt 45);
              ("animation", PTuple [PInt (-45); PInt 0; PInt 45])]
             example_world in
  (∃ axes, result r = Return axes)
  ∧ pitch_rot <$> vectormap_extractions 2 (emitted r)
    = [PNone; PNone; PNone; PNone; PNone; PNone]
  ∧ pitch_rot (analysers (final r) 2) = PInt 45.
Proof. vm_compute. split; [by eexists|done]. Qed.

(** C2, as the claim states it: after [plot_3d_differencemap] with the
    override [pitch_rot = 45] returned, [pitch_rot] of entity B is 45 and no
    longer None, as it was before the call. *)
Lemma tilt_override_is_not_restored :
  let r := plot_3d_differencemap example_get_3d_vectors example_field_error 1 2
             [("ax", PAx 0); ("pitch_rot", PInt 45)] example_world in
  (∃ v, result r = Return v)
  ∧ pitch_rot (analysers example_world 2) = PNone
  ∧ pitch_rot (analysers (final r) 2) = PInt 45.
Proof. vm_compute. split; [by eexists|done]. Qed.

(** C2, amended: after [plot_3d_differencemap] returned, [vector_rotation]
    of entity B is what it was before the call; each of [pitch_rot],
    [yaw_rot] and [roll_rot] for which an override other than None was
    given holds the override (it is not restored), and each other one is
    what it was before the call. *)
Theorem differencemap_transform_state get_3d_vectors field_error m1 m2 given p rest
    w w' evs r :
  bind_params ["manalyser1"; "manalyser2"] plot_3d_differencemap_params []
    false given = Some (p, rest) →
  plot_3d_differencemap get_3d_vectors field_error m1 m2 given w
  = Run w' evs (Return r) →
  vector_rotation (analysers w' m2) = vector_rotation (analysers w m2)
  ∧ pitch_rot (analysers w' m2)
    = (if is_None (arg p "pitch_rot") then pitch_rot (analysers w m2)
       else arg p "pitch_rot")
  ∧ yaw_rot (analysers w' m2)
    = (if is_None (arg p "yaw_rot") then yaw_rot (analysers w m2)
       else arg p "yaw_rot")
  ∧ roll_rot (analysers w' m2)
    = (if is_None (arg p "roll_rot") then roll_rot (analysers w m2)
       else arg p "roll_rot").
Proof. apply plot_3d_differencemap_transform. Qed.

Lemma differencemap_transform_state_example :
  let r := plot_3d_differencemap example_get_3d_vectors example_field_error 1 2
             [("ax", PAx 0); ("arrow_rotations", PTuple [PInt 29]);
              ("pitch_rot", PInt 45)] example_world in
  vector_rotation (analysers (final r) 2) = PInt 10
  ∧ pitch_rot (analysers (final r) 2) = PInt 45
  ∧ yaw_rot (analysers (final r) 2) = PNone
  ∧ roll_rot (analysers (final r) 2) = PNone.
Proof.
  intros r.
  assert (∃ v, result r = Return v) as [v Hv] by (vm_compute; by eexists).
  pose proof (run_eta r) as Hr. rewrite Hv in Hr.
  exact (differencemap_transform_state _ _ 1 2
           [("ax", PAx 0); ("arrow_rotations", PTuple [PInt 29]);
            ("pitch_rot", PInt 45)] _ _ example_world _ _ _ eq_refl Hr).
Defined.

(** C3, as the claim states it: with [vector_rotation = 10] and
    [arrow_rotations = [29]], a plotting call in which the extraction raises
    ends with that exception and leaves [vector_rotation] at 29. *)
Lemma rotation_is_not_restored_on_raise :
  let w := with_lists {[ 0%nat := [PInt 29] ]} example_world in
  let given := [("arrow_rotations", PList (list_at 0)); ("ax", PAx 0)] in
  let r1 := plot_3d_vectormap failing_get_3d_vectors 1 given w in
  let r2 := plot_3d_differencemap failing_get_3d_vectors example_field_error 1 2
              given w in
  vector_rotation (analysers w 1) = PInt 10
  ∧ result r1 = Raise (CollaboratorError "get_3d_vectors")
  ∧ vector_rotation (analysers (final r1) 1) = PInt 29
  ∧ vector_rotation (analysers w 2) = PInt 10
  ∧ result r2 = Raise (CollaboratorError "get_3d_vectors")
  ∧ vector_rotation (analysers (final r2) 2) = PInt 29.
Proof. vm_compute. done. Qed.

(** C3, amended: for an entity with [vector_rotation = 10] before the call,
    after [plot_3d_vectormap] on it, or [plot_3d_differencemap] with it as
    the second entity, returned, [vector_rotation] is 10 again.  (A call
    that raises is not covered: nothing restores the attribute then.) *)
Theorem rotation_is_restored_on_return get_3d_vectors field_error m1 entity given
    w w' evs r1 r2 :
  vector_rotation (analysers w entity) = PInt 10 →
  plot_3d_vectormap get_3d_vectors entity given w = Run w' evs (Return r1)
  ∨ plot_3d_differencemap get_3d_vectors field_error m1 entity given w
    = Run w' evs (Return r2) →
  vector_rotation (analysers w' entity) = PInt 10.
Proof.
  intros H10 [H|H].
  - apply plot_3d_vectormap_restores in H. congruence.
  - unfold plot_3d_differencemap in H.
    destruct (bind_params _ _ _ _ given) as [[p rest]|] eqn:Hp; [|discriminate].
    eapply plot_3d_differencemap_transform in Hp as [Hp _].
    + rewrite <- H10. exact Hp.
    + unfold plot_3d_differencemap. rewrite Hp. exact H.
Qed.

Lemma rotation_is_restored_on_return_example :
  let w := with_lists {[ 0%nat := [PInt 29] ]} example_world in
  let r := plot_3d_vectormap example_get_3d_vectors 1
             [("arrow_rotations", PList (list_at 0)); ("ax", PAx 0)] w in
  vector_rotation (analysers w 1) = PInt 10
  ∧ vector_rotation (analysers (final r) 1) = PInt 10.
Proof.
  intros w r.
  assert (∃ v, result r = Return v) as [v Hv] by (vm_compute; by eexists).
  pose proof (run_eta r) as Hr. rewrite Hv in Hr.
  split; [reflexivity|].
  exact (rotation_is_restored_on_return _ example_field_error 1 1 _ w _ _ v
           (0%nat, []) eq_refl (or_introl Hr)).
Defined.

(** C9: [plot_3d_vectormap] on an analyser of the class OAnalyser, or on an
    averager of such analysers, with the list [[0]] as [arrow_rotations]
    (the list of the caller, or the default object) appends 29 to that
    list: after the call returned, the list is [[0, 29]]. *)
Theorem arrow_rotations_argument_is_extended get_3d_vectors manalyser given p kwargs
    r w w' evs res :
  bind_params ["manalyser"] plot_3d_vectormap_params [] true given
  = Some (p, kwargs) →
  arg p "arrow_rotations" = PList r →
  list_obj w r = [PInt 0] →
  class_name (analysers w manalyser) = "OAnalyser"
  ∨ (class_name (analysers w manalyser) = "MAverager"
     ∧ ∃ parts, manalysers (analysers w manalyser) = Some parts
                ∧ forallb (λ part, String.eqb (part_class part) "OAnalyser") parts
                  = true) →
  plot_3d_vectormap get_3d_vectors manalyser given w = Run w' evs (Return res) →
  list_obj w' r = [PInt 0; PInt 29].
Proof. apply plot_3d_vectormap_appends. Qed.

Lemma arrow_rotations_default_is_extended :
  let r := plot_3d_vectormap example_get_3d_vectors 2 [("ax", PAx 0)]
             example_world in
  default_arrow_rotations example_world = [PInt 0]
  ∧ default_arrow_rotations (final r) = [PInt 0; PInt 29].
Proof.
  intros r.
  assert (∃ v, result r = Return v) as [v Hv] by (vm_compute; by eexists).
  pose proof (run_eta r) as Hr. rewrite Hv in Hr.
  split; [reflexivity|].
  refine (arrow_rotations_argument_is_extended _ 2 [("ax", PAx 0)] _ _
            vectormap_default_rotations example_world _ _ _ eq_refl eq_refl eq_refl
            _ Hr).
  right. split; [reflexivity|]. by eexists.
Defined.

(** * Further properties of the plotting functions *)

(** X1: two calls of [compare_3d_vectormaps] from the same store that differ
    only in the values given for [kwargs1] and [kwargs2] end in the same
    store with the same outcome (the same value or the same exception), and
    emit the same events, but for the values of the two parameters in the
    mark of the entry of the function: lines 531-532 replace both by copies
    of the other keywords before either is read. *)
Theorem kwargs1_and_kwargs2_are_ignored get_3d_vectors field_error np_mean m1 m2
    k1 k2 k1' k2' given w :
  let r := compare_3d_vectormaps get_3d_vectors field_error np_mean m1 m2
             (("kwargs1", k1) :: ("kwargs2", k2) :: given) w in
  let r' := compare_3d_vectormaps get_3d_vectors field_error np_mean m1 m2
              (("kwargs1", k1') :: ("kwargs2", k2') :: given) w in
  final r = final r' ∧ result r = result r'
  ∧ (emitted r = [] ∧ emitted r' = []
     ∨ ∃ p p' kwargs rest,
         emitted r = Call "compare_3d_vectormaps" [m1; m2] p kwargs :: rest
         ∧ emitted r' = Call "compare_3d_vectormaps" [m1; m2] p' kwargs :: rest
         ∧ agree_off ["kwargs1"; "kwargs2"] p p').
Proof. apply compare_3d_vectormaps_agree. Qed.

(** X2: [plot_3d_differencemap] called with [reverse_errors=True] and with
    [reverse_errors=False], the other keywords and the store being the
    same, ends in the same store; either both calls raise the same
    exception, or both return, the same axes and error fields [e1] and [e0]
    with [e1 = 1 - e0] entry by entry (lines 400-401). *)
Theorem reverse_errors_is_one_minus get_3d_vectors field_error m1 m2 given w :
  let r1 := plot_3d_differencemap get_3d_vectors field_error m1 m2
              (given ++ [("reverse_errors", PBool true)]) w in
  let r0 := plot_3d_differencemap get_3d_vectors field_error m1 m2
              (given ++ [("reverse_errors", PBool false)]) w in
  final r1 = final r0
  ∧ match result r1, result r0 with
    | Return (a1, e1), Return (a0, e0) => a1 = a0 ∧ e1 = one_minus e0
    | Raise x1, Raise x0 => x1 = x0
    | _, _ => False
    end.
Proof.
  intros r1 r0.
  destruct (plot_3d_differencemap_reverse get_3d_vectors field_error m1 m2 given w)
    as [Hw Hr].
  split; [exact Hw|]. fold r1 r0 in Hr.
  by destruct (result r1) as [[a1 e1]|x1], (result r0) as [[a0 e0]|x0].
Qed.

(** * Properties of [directories.py] *)

(** X3: loading [directories.py] fails at the bindings of lines 11-37,
    before anything is printed or created, in two cases only: with the
    OSError of line 37 when [platform.system()] is neither "Linux" nor
    "Windows", and with the TypeError of [None + str] (line 14) on Linux
    when HOME is not set.  In every other case the directories are bound. *)
Theorem load_fails_before_any_effect platform_system HOME CODE_ROOTDIR os_path_join
    os_makedirs main m :
  match directories.bindings platform_system HOME CODE_ROOTDIR os_path_join with
  | inl e =>
      directories.load platform_system HOME CODE_ROOTDIR os_path_join os_makedirs
        main m = (m, inl e)
      ∧ (platform_system ≠ "Linux" ∧ platform_system ≠ "Windows"
         ∧ e = directories.OSError "Unkown platform (not Windows or Linux)"
         ∨ platform_system = "Linux" ∧ HOME = None ∧ e = directories.TypeError)
  | inr ns =>
      platform_system = "Windows" ∨ platform_system = "Linux" ∧ is_Some HOME
  end.
Proof.
  unfold directories.load, directories.bindings.
  destruct (String.eqb_spec platform_system "Linux") as [->|Hlinux].
  - destruct HOME as [home|]; [right; eauto|]. split; [done|]. by right.
  - destruct (String.eqb_spec platform_system "Windows") as [->|Hwindows].
    + by left.
    + split; [done|]. by left.
Qed.

(** X4: when loading [directories.py] returns, the four directories of
    [ALLDIRS] exist, and every path that existed before still does
    ([os.makedirs] being relied on to create the path it is given and to
    remove nothing). *)
Theorem load_leaves_the_directories platform_system HOME CODE_ROOTDIR os_path_join
    os_makedirs main m m' ns :
  (∀ path fs fs', os_makedirs path fs = Some fs' → path ∈ fs' ∧ fs ⊆ fs') →
  directories.load platform_system HOME CODE_ROOTDIR os_path_join os_makedirs main m
  = (m', inr ns) →
  directories.files m ⊆ directories.files m'
  ∧ directories.ANALYSES_SAVEDIR ns ∈ directories.files m'
  ∧ directories.PROCESSING_TEMPDIR ns ∈ directories.files m'
  ∧ directories.PROCESSING_TEMPDIR_BIGFILES ns ∈ directories.files m'
  ∧ directories.DROSO_DATADIR ns ∈ directories.files m'.
Proof.
  intros Hmakedirs. unfold directories.load.
  destruct (directories.bindings _ _ _ _) as [e|ns'] eqn:Hns; [done|].
  unfold directories.directoriesExist.
  destruct (directories.ensure _ _ _) as [m1 [e|]] eqn:Hensure; [done|].
  intros [= <- <-].
  pose proof (ensure_grows _ Hmakedirs _ _ _ _ Hensure) as Hgrows.
  pose proof (ensure_exist _ Hmakedirs _ _ _ Hensure) as Hexist.
  rewrite (bindings_all_dirs _ _ _ _ _ Hns) in Hexist.
  split.
  - etrans; [|exact Hgrows]. destruct main; [|done].
    by rewrite printDirectories_files.
  - split_and!;
      [apply (Hexist "ANALYSES_SAVEDIR") | apply (Hexist "PROCESSING_TEMPDIR")
      |apply (Hexist "PROCESSING_TEMPDIR_BIGFILES") | apply (Hexist "DROSO_DATADIR")];
      unfold directories.all_dirs;
      repeat first [apply list_elem_of_here | apply list_elem_of_further].
Qed.

Lemma load_leaves_the_directories_on_linux :
  let m := {| directories.files := {[ "/home/u/analyses/pupil" ]};
              directories.stdout := [] |} in
  let r := directories.load "Linux" (Some "/home/u") "/code" directories.simple_join
             directories.simple_makedirs false m in
  "/home/u/analyses/pupil" ∈ directories.files r.1
  ∧ "/home/u/analyses/pupil/tmp" ∈ directories.files r.1
  ∧ "/home/u/pupil/tmp" ∈ directories.files r.1
  ∧ "/home/u/smallbrains-nas1/array1/pseudopupil_joni" ∈ directories.files r.1.
Proof.
  intros m r.
  assert (∃ ns, r = (r.1, inr ns)
                ∧ directories.ANALYSES_SAVEDIR ns = "/home/u/analyses/pupil"
                ∧ directories.PROCESSING_TEMPDIR ns = "/home/u/analyses/pupil/tmp"
                ∧ directories.PROCESSING_TEMPDIR_BIGFILES ns = "/home/u/pupil/tmp"
                ∧ directories.DROSO_DATADIR ns
                  = "/home/u/smallbrains-nas1/array1/pseudopupil_joni")
    as (ns & Hr & <- & <- & <- & <-) by (vm_compute; eexists; done).
  exact (proj2 (load_leaves_the_directories "Linux" (Some "/home/u") "/code"
                  directories.simple_join directories.simple_makedirs false m r.1 ns
                  simple_makedirs_creates Hr)).
Defined.

(** X5: [directoriesExist] is idempotent: when a call returned, a second
    call returns too, prints nothing and leaves the paths as they are. *)
Theorem directoriesExist_twice os_makedirs ns m m' :
  (∀ path fs fs', os_makedirs path fs = Some fs' → path ∈ fs' ∧ fs ⊆ fs') →
  directories.directoriesExist os_makedirs ns m = (m', None) →
  directories.directoriesExist os_makedirs ns m' = (m', None).
Proof.
  intros Hmakedirs H. apply ensure_present. by eapply ensure_exist.
Qed.

Lemma directoriesExist_twice_on_linux :
  let m := {| directories.files := ∅; directories.stdout := [] |} in
  let ns := {| directories.ANALYSES_SAVEDIR := "/a"; directories.PROCESSING_TEMPDIR := "/a/tmp";
               directories.PROCESSING_TEMPDIR_BIGFILES := "/b";
               directories.DROSO_DATADIR := "/d"; directories.DROSO_DATADIRS := None;
               directories.ALLDIRS := directories.all_dirs "/a" "/a/tmp" "/b" "/d" |} in
  let r := directories.directoriesExist directories.simple_makedirs ns m in
  directories.directoriesExist directories.simple_makedirs ns r.1 = (r.1, None).
Proof.
  intros m ns r.
  assert (r = (r.1, None)) as Hr by (vm_compute; done).
  exact (directoriesExist_twice directories.simple_makedirs ns m r.1
           simple_makedirs_creates Hr).
Defined.

(** X6: whatever the outcome of [directoriesExist], what it prints is added
    after what was printed before, and every line added is the message of
    line 66 for an entry of [ALLDIRS] whose directory did not exist when
    the function was called: a directory that exists is never announced. *)
Theorem directoriesExist_announces_missing os_makedirs ns m m' e :
  (∀ path fs fs', os_makedirs path fs = Some fs' → path ∈ fs' ∧ fs ⊆ fs') →
  directories.directoriesExist os_makedirs ns m = (m', e) →
  ∃ lines,
    directories.stdout m' = directories.stdout m ++ lines
    ∧ Forall (λ line, ∃ key item,
                (key, item) ∈ directories.ALLDIRS ns
                ∧ (item ∉ directories.files m)
                ∧ line = directories.announcement key item) lines.
Proof. intros Hmakedirs. by apply ensure_announces. Qed.

Lemma directoriesExist_announces_missing_on_linux :
  let m := {| directories.files := {[ "/a" ]}; directories.stdout := ["hello"] |} in
  let ns := {| directories.ANALYSES_SAVEDIR := "/a"; directories.PROCESSING_TEMPDIR := "/a/tmp";
               directories.PROCESSING_TEMPDIR_BIGFILES := "/b";
               directories.DROSO_DATADIR := "/d"; directories.DROSO_DATADIRS := None;
               directories.ALLDIRS := directories.all_dirs "/a" "/a/tmp" "/b" "/d" |} in
  let r := directories.directoriesExist directories.simple_makedirs ns m in
  ∃ lines,
    directories.stdout r.1 = directories.stdout m ++ lines
    ∧ Forall (λ line, ∃ key item,
                (key, item) ∈ directories.ALLDIRS ns
                ∧ (item ∉ directories.files m)
                ∧ line = directories.announcement key item) lines.
Proof.
  intros m ns r.
  exact (directoriesExist_announces_missing directories.simple_makedirs ns m r.1 r.2
           simple_makedirs_creates (surjective_pairing r)).
Defined.

(** X7: [_set_analyser_attributes] sets nothing, whatever the analyser and
    the keywords: the store is left as it is.  The loop of line 183 runs
    over the names of the keywords and unpacks each into two; the call
    raises ValueError at the first name that is not two characters long,
    a NameError (the undefined [anlayser] of line 188) at a name of two
    characters when [raise_errors] is set, and returns otherwise. *)
Theorem _set_analyser_attributes_sets_nothing analyser skip_none raise_errors
    kwargs w :
  let r := _set_analyser_attributes analyser skip_none raise_errors kwargs w in
  final r = w ∧ emitted r = []
  ∧ result r
    = match list_find (λ key, stops_at raise_errors key = true) (dict_keys kwargs) with
      | None => Return tt
      | Some (_, key) =>
          if Nat.eqb (String.length key) 2 then Raise NameError else Raise ValueError
      end.
Proof. intros r. subst r. by rewrite _set_analyser_attributes_run. Qed.

(** X8: [plot_3d_vectormap] leaves [pitch_rot], [roll_rot] and [yaw_rot] of
    every analyser as they are, whether it returns or raises and whatever
    is passed for the three parameters. *)
Theorem plot_3d_vectormap_leaves_the_tilts get_3d_vectors manalyser given w a :
  let r := plot_3d_vectormap get_3d_vectors manalyser given w in
  pitch_rot (analysers (final r) a) = pitch_rot (analysers w a)
  ∧ roll_rot (analysers (final r) a) = roll_rot (analysers w a)
  ∧ yaw_rot (analysers (final r) a) = yaw_rot (analysers w a).
Proof. apply (plot_3d_vectormap_keeps_tilt get_3d_vectors manalyser given w a). Qed.

(** X9: [plot_3d_differencemap] has no [**kwargs]: a call with a keyword
    that is none of its fourteen named parameters raises TypeError before
    anything is drawn or set. *)
Theorem plot_3d_differencemap_takes_no_other_keyword get_3d_vectors field_error
    m1 m2 given k w :
  k ∈ dict_keys given →
  k ∉ dict_keys plot_3d_differencemap_params →
  plot_3d_differencemap get_3d_vectors field_error m1 m2 given w
  = Run w [] (Raise TypeError).
Proof. apply plot_3d_differencemap_unknown. Qed.

Lemma plot_3d_differencemap_takes_no_guidance :
  plot_3d_differencemap example_get_3d_vectors example_field_error 1 2
    [("ax", PAx 0); ("guidance", PBool true)] example_world
  = Run example_world [] (Raise TypeError).
Proof.
  apply (plot_3d_differencemap_takes_no_other_keyword _ _ 1 2
           [("ax", PAx 0); ("guidance", PBool true)] "guidance").
  - apply list_elem_of_further, list_elem_of_here.
  - apply (bool_decide_unpack _). vm_compute. exact I.
Defined.

(** X10: [compare_3d_vectormaps_compact] fixes [compact], [total_error] and
    [illustrate]: a call that passes one of the three as a keyword raises
    TypeError (the keyword is given twice at line 791) before
    [compare_3d_vectormaps] is entered. *)
Theorem compact_fixes_its_keywords get_3d_vectors field_error np_mean m1 m2 kwargs
    k w :
  k ∈ ["compact"; "total_error"; "illustrate"] →
  k ∈ dict_keys kwargs →
  compare_3d_vectormaps_compact get_3d_vectors field_error np_mean m1 m2 kwargs w
  = Run w [] (Raise TypeError).
Proof. apply compare_3d_vectormaps_compact_fixed. Qed.

Lemma compact_fixes_total_error :
  compare_3d_vectormaps_compact example_get_3d_vectors example_field_error
    example_np_mean 1 2 [("total_error", PBool true)] example_world
  = Run example_world [] (Raise TypeError).
Proof.
  apply (compact_fixes_its_keywords _ _ _ 1 2 [("total_error", PBool true)]
           "total_error").
  - apply list_elem_of_further, list_elem_of_here.
  - apply list_elem_of_here.
Defined.

(** X11: the keywords [compare_3d_vectormaps] does not name go to both
    [plot_3d_vectormap] calls and, with [kwargs2], to
    [plot_3d_differencemap] (lines 579 and 584), which takes no other
    keyword than its own parameters.  So a call with a keyword that is a
    parameter of neither [compare_3d_vectormaps] nor
    [plot_3d_differencemap] (one meant for [vector_plot], say) never
    returns: it ends with an exception. *)
Theorem compare_passes_its_keywords_on get_3d_vectors field_error np_mean m1 m2
    given k w :
  k ∈ dict_keys given →
  k ∉ dict_keys compare_3d_vectormaps_params →
  k ∉ dict_keys plot_3d_differencemap_params →
  ∃ e, result (compare_3d_vectormaps get_3d_vectors field_error np_mean m1 m2
                 given w) = Raise e.
Proof.
  intros Hin Hc Hd.
  destruct (result _) as [v|e] eqn:Hr; [|by eexists].
  exfalso. eapply compare_unknown_keyword; [exact Hin|exact Hc|exact Hd|].
  rewrite <- Hr. apply run_eta.
Qed.

Lemma compare_with_guidance_raises :
  ∃ e, result (compare_3d_vectormaps example_get_3d_vectors example_field_error
                 example_np_mean 1 2
                 [("axes", five_axes); ("guidance", PBool true)] example_world)
       = Raise e.
Proof.
  apply (compare_passes_its_keywords_on _ _ _ 1 2
           [("axes", five_axes); ("guidance", PBool true)] "guidance").
  - apply list_elem_of_further, list_elem_of_here.
  - apply (bool_decide_unpack _). vm_compute. exact I.
  - apply (bool_decide_unpack _). vm_compute. exact I.
Defined.

(** X12: when [plot_3d_differencemap] returns, the error field it returns
    is the concatenation of one field for each eye of [manalyser1], in the
    order of [manalyser1.eyes], and the surfaces it drew are those of the
    eyes in that order, each with the field of its eye: for the eye "left"
    one surface over the azimuths [np.linspace(pi/2, 3*pi/2, 50)], for any
    other eye two, over [np.linspace(0, pi/2, 25)] and
    [np.linspace(3*pi/2, 2*pi, 25)] (lines 383-413). *)
Theorem error_field_is_the_concatenation get_3d_vectors field_error m1 m2 given
    w w' evs ax errors :
  plot_3d_differencemap get_3d_vectors field_error m1 m2 given w
  = Run w' evs (Return (ax, errors)) →
  ∃ fields, errors = concat fields
    ∧ length fields = length (eyes (analysers w m1))
    ∧ project surface_of evs = eye_surfaces (eyes (analysers w m1)) fields.
Proof. apply plot_3d_differencemap_run. Qed.

Lemma error_field_of_two_eyes :
  let r := plot_3d_differencemap example_get_3d_vectors example_field_error 1 2
             [("ax", PAx 0)] example_world in
  eyes (analysers example_world 1) = ["left"; "right"]
  ∧ ∃ ax errors fields,
      result r = Return (ax, errors) ∧ errors = concat fields
      ∧ length fields = 2%nat
      ∧ project surface_of (emitted r) = eye_surfaces ["left"; "right"] fields.
Proof.
  intros r. split; [reflexivity|].
  assert (∃ ax errors, result r = Return (ax, errors)) as (ax & errors & Hr)
    by (vm_compute; by do 2 eexists).
  pose proof (run_eta r) as Heta. rewrite Hr in Heta.
  destruct (error_field_is_the_concatenation _ _ 1 2 [("ax", PAx 0)] example_world
              _ _ ax errors Heta) as (fields & Hfields).
  by exists ax, errors, fields.
Defined.

(** * Properties of [plot_1d_magnitude] *)

(** X13: when [plot_1d_magnitude] returns, [get_magnitude_traces]
    answered for every eye asked (the eyes of the analyser, or None alone
    with [mean_eyes]); the traces returned are, eye by eye and image
    folder by image folder, the repeats that pass [i_repeat], each
    multiplied by the scale (0.816 with [microns], else 1); and the count
    returned is the number of all the repeats of all the image folders. *)
Theorem plot_1d_magnitude_returns eyes get_magnitude_traces np_mean np_std o evs
    shown counted :
  magnitude.plot_1d_magnitude eyes get_magnitude_traces np_mean np_std o
  = (evs, inr (shown, counted)) →
  ∃ data, answers get_magnitude_traces o (eyes_asked o eyes) = Some data
    ∧ shown = traces_shown o (concat data)
    ∧ counted = repeats_counted (concat data).
Proof.
  intros H. apply plot_1d_magnitude_run in H as (data & Hdata & Hs & Hc & _).
  by exists data.
Qed.

Lemma plot_1d_magnitude_returns_example :
  let r := magnitude.plot_1d_magnitude ["left"; "right"] example_magnitude_traces
             example_mean example_mean example_options in
  ∃ shown counted data,
    r.2 = inr (shown, counted)
    ∧ answers example_magnitude_traces example_options
        (eyes_asked example_options ["left"; "right"]) = Some data
    ∧ shown = traces_shown example_options (concat data)
    ∧ counted = repeats_counted (concat data).
Proof.
  intros r.
  assert (∃ shown counted, r = (r.1, inr (shown, counted))) as (shown & counted & Hr)
    by (vm_compute; by do 2 eexists).
  destruct (plot_1d_magnitude_returns ["left"; "right"] example_magnitude_traces
              example_mean example_mean example_options r.1 shown counted Hr)
    as (data & Hdata).
  exists shown, counted, data. split; [by rewrite Hr|exact Hdata].
Defined.

(** X14: the time axis is made once, from the first repeat of the first
    image folder (line 115), and used for every line: when
    [plot_1d_magnitude] returns, every trace it returns has as many
    entries as that first repeat, plotted itself or not ([ax.plot] takes
    an [X] and a [Y] of one length only). *)
Theorem plotted_traces_are_as_long_as_the_first eyes get_magnitude_traces np_mean
    np_std o evs shown counted :
  magnitude.plot_1d_magnitude eyes get_magnitude_traces np_mean np_std o
  = (evs, inr (shown, counted)) →
  ∃ data, answers get_magnitude_traces o (eyes_asked o eyes) = Some data
    ∧ Forall (trace_fits (first_axis o (concat data))) shown.
Proof.
  intros H. apply plot_1d_magnitude_run in H as (data & Hdata & _ & _ & Hfits).
  by exists data.
Qed.

Lemma plotted_traces_are_as_long_as_the_first_example :
  let r := magnitude.plot_1d_magnitude ["left"; "right"] example_magnitude_traces
             example_mean example_mean example_options in
  ∃ shown counted data,
    r.2 = inr (shown, counted)
    ∧ answers example_magnitude_traces example_options
        (eyes_asked example_options ["left"; "right"]) = Some data
    ∧ Forall (trace_fits (first_axis example_options (concat data))) shown.
Proof.
  intros r.
  assert (∃ shown counted, r = (r.1, inr (shown, counted))) as (shown & counted & Hr)
    by (vm_compute; by do 2 eexists).
  destruct (plotted_traces_are_as_long_as_the_first ["left"; "right"]
              example_magnitude_traces example_mean example_mean example_options
              r.1 shown counted Hr) as (data & Hdata).
  exists shown, counted, data. split; [by rewrite Hr|exact Hdata].
Defined.

(** X15: the count [plot_1d_magnitude] returns does not depend on
    [i_repeat]: a call with [i_repeat=None] and a call with an index, on
    the same analyser and all else equal, return the same count when both
    return; the first returns as many traces as the count, the second at
    most as many. *)
Theorem N_repeats_counts_every_repeat eyes get_magnitude_traces np_mean np_std o i
    evs evs' shown shown' counted counted' :
  magnitude.i_repeat o = None →
  magnitude.plot_1d_magnitude eyes get_magnitude_traces np_mean np_std o
  = (evs, inr (shown, counted)) →
  magnitude.plot_1d_magnitude eyes get_magnitude_traces np_mean np_std
    (with_i_repeat (Some i) o) = (evs', inr (shown', counted')) →
  counted' = counted ∧ length shown = counted ∧ (length shown' ≤ counted')%nat.
Proof.
  intros Hnone H H'.
  apply plot_1d_magnitude_run in H as (data & Hdata & -> & -> & _).
  apply plot_1d_magnitude_run in H' as (data' & Hdata' & -> & -> & _).
  rewrite answers_with_i_repeat in Hdata'.
  change (eyes_asked (with_i_repeat (Some i) o) eyes) with (eyes_asked o eyes)
    in Hdata'.
  assert (data' = data) as -> by congruence.
  split_and!; [done|by apply traces_shown_length|apply traces_shown_length].
Qed.

Lemma N_repeats_counts_every_repeat_example :
  let r := magnitude.plot_1d_magnitude ["left"; "right"] example_magnitude_traces
             example_mean example_mean example_options in
  let r' := magnitude.plot_1d_magnitude ["left"; "right"] example_magnitude_traces
              example_mean example_mean (with_i_repeat (Some 1) example_options) in
  ∃ shown shown' counted counted',
    r.2 = inr (shown, counted) ∧ r'.2 = inr (shown', counted')
    ∧ counted' = counted ∧ length shown = counted
    ∧ (length shown' ≤ counted')%nat.
Proof.
  intros r r'.
  assert (∃ shown counted, r = (r.1, inr (shown, counted))) as (shown & counted & Hr)
    by (vm_compute; by do 2 eexists).
  assert (∃ shown counted, r' = (r'.1, inr (shown, counted)))
    as (shown' & counted' & Hr') by (vm_compute; by do 2 eexists).
  exists shown, shown', counted, counted'.
  split; [by rewrite Hr|]. split; [by rewrite Hr'|].
  exact (N_repeats_counts_every_repeat ["left"; "right"] example_magnitude_traces
           example_mean example_mean example_options 1 r.1 r'.1 shown shown'
           counted counted' eq_refl Hr Hr').
Defined.

(** X16: the time axis is taken from [repeat_mags[0]] of the first image
    folder of the first eye asked; when that image folder has no repeat,
    [plot_1d_magnitude] raises IndexError, having drawn nothing. *)
Theorem first_image_folder_needs_a_repeat eyes get_magnitude_traces np_mean np_std
    o eye rest angle folders :
  eyes_asked o eyes = eye :: rest →
  get_magnitude_traces eye (magnitude.image_folder o) (magnitude.mean_repeats o)
    (magnitude.mean_imagefolders o) = Some ((angle, []) :: folders) →
  magnitude.plot_1d_magnitude eyes get_magnitude_traces np_mean np_std o
  = ((if magnitude.ax o then [] else [magnitude.subplots_call])
     ++ [magnitude.get_magnitude_traces_call eye], inl magnitude.IndexError).
Proof. apply plot_1d_magnitude_empty_folder. Qed.

Lemma first_image_folder_needs_a_repeat_example :
  magnitude.plot_1d_magnitude ["left"; "right"]
    (λ _ _ _ _, Some [("pos(0, 0)", []); ("pos(10, 0)", [[5; 6; 7]%float])])
    example_mean example_mean example_options
  = ([magnitude.subplots_call; magnitude.get_magnitude_traces_call (Some "left")],
     inl magnitude.IndexError).
Proof.
  exact (first_image_folder_needs_a_repeat ["left"; "right"]
           (λ _ _ _ _, Some [("pos(0, 0)", []); ("pos(10, 0)", [[5; 6; 7]%float])])
           example_mean example_mean example_options (Some "left") [Some "right"]
           "pos(0, 0)" [("pos(10, 0)", [[5; 6; 7]%float])] eq_refl eq_refl).
Defined.

(** X17: one colorbar for an axes.  When [plot_3d_differencemap], called
    with [colorbar=True] on an axes that does not carry the marker
    [differencemap_colorbar], returns, it has attached exactly one
    colorbar to the axes and set the marker; any later call, on whatever
    axes and analysers and whether it returns or raises, attaches no
    further colorbar to that axes and leaves its marker as it is (lines
    418-429). *)
Theorem one_colorbar_for_an_axes get_3d_vectors field_error m1 m2 m1' m2' given
    given' p rest a w w1 evs1 r1 :
  bind_params ["manalyser1"; "manalyser2"] plot_3d_differencemap_params []
    false given = Some (p, rest) →
  arg p "ax" = PAx a → arg p "colorbar" = PBool true →
  differencemap_colorbar (ax_obj w a) = None →
  plot_3d_differencemap get_3d_vectors field_error m1 m2 given w
  = Run w1 evs1 (Return r1) →
  let r2 := plot_3d_differencemap get_3d_vectors field_error m1' m2' given' w1 in
  ∃ c, project (colorbar_of a) (evs1 ++ emitted r2) = [c]
    ∧ differencemap_colorbar (ax_obj w1 a) = Some c
    ∧ differencemap_colorbar (ax_obj (final r2) a) = Some c.
Proof.
  intros Hp Hax Hcolorbar Hnone H r2.
  destruct (plot_3d_differencemap_unmarked _ _ _ _ _ _ _ _ _ _ _ _ Hp Hax Hcolorbar
              Hnone H) as (c & Hc & Hmarked).
  destruct (plot_3d_differencemap_marked get_3d_vectors field_error a c m1' m2'
              given' w1 Hmarked) as [Hmarked' Hquiet].
  exists c. split_and!; [|done..].
  rewrite project_app, Hc. fold r2 in Hquiet. by rewrite (project_hidden _ _ Hquiet).
Qed.

Lemma one_colorbar_for_an_axes_example :
  let given := [("ax", PAx 0); ("colorbar_ax", PAx 7)] in
  let r1 := plot_3d_differencemap example_get_3d_vectors example_field_error 1 2
              given example_world in
  let r2 := plot_3d_differencemap example_get_3d_vectors example_field_error 1 2
              given (final r1) in
  ∃ c, project (colorbar_of 0) (emitted r1 ++ emitted r2) = [c]
    ∧ differencemap_colorbar (ax_obj (final r1) 0) = Some c
    ∧ differencemap_colorbar (ax_obj (final r2) 0) = Some c.
Proof.
  intros given r1 r2.
  assert (∃ v, result r1 = Return v) as [v Hv] by (vm_compute; by eexists).
  pose proof (run_eta r1) as Hr1. rewrite Hv in Hr1.
  exact (one_colorbar_for_an_axes example_get_3d_vectors example_field_error 1 2 1 2
           given given _ _ 0%nat example_world (final r1) (emitted r1) v
           eq_refl eq_refl eq_refl eq_refl Hr1).
Defined.

(** X18: with [animation_type] one of "pitch_rot", "roll_rot" and
    "yaw_rot", [compare_3d_vectormaps] writes [colinear = False] into the
    dict it has as [kwargsD] (line 545): the dict of the caller or, when
    none is passed, the default [{}] of the signature, which all calls
    share.  The entry is there when the call ends, whether it returns or
    raises. *)
Theorem tilt_animation_writes_into_kwargsD get_3d_vectors field_error np_mean m1 m2
    given p kwargs r t w :
  bind_params ["manalyser1"; "manalyser2"] compare_3d_vectormaps_params []
    true given = Some (p, kwargs) →
  arg p "kwargsD" = PDict r →
  arg p "animation_type" = PStr t →
  t ∈ ["pitch_rot"; "roll_rot"; "yaw_rot"] →
  dict_get "colinear"
    (dict_obj (final (compare_3d_vectormaps get_3d_vectors field_error np_mean
                        m1 m2 given w)) r)
  = Some (PBool false).
Proof. apply compare_3d_vectormaps_writes_kwargsD. Qed.

Lemma tilt_animation_writes_into_the_default :
  let given := [("axes", five_axes); ("animation_type", PStr "pitch_rot");
                ("animation_variable", PInt 45)] in
  dict_get "colinear" (dict_obj example_world (compare_default "kwargsD")) = None
  ∧ dict_get "colinear"
      (dict_obj (final (compare_3d_vectormaps example_get_3d_vectors
                          example_field_error example_np_mean 1 2 given
                          example_world)) (compare_default "kwargsD"))
    = Some (PBool false).
Proof.
  intros given. split; [reflexivity|].
  refine (tilt_animation_writes_into_kwargsD _ _ _ 1 2 given _ _
            (compare_default "kwargsD") "pitch_rot" example_world
            eq_refl eq_refl eq_refl _).
  apply list_elem_of_here.
Defined.

(** X19: [compare_3d_vectormaps_compact] never touches the running error
    series: whatever keywords it is given and however the call ends, the
    attributes [pupil_compare_errors], [pupil_compare_rotations] and
    [pupil_compare_reverse_errors] of every axes are what they were, as
    the wrapper fixes [total_error=False] (line 790) and a second
    [total_error] among the keywords is refused. *)
Theorem compact_never_accumulates get_3d_vectors field_error np_mean m1 m2 kwargs
    w a :
  let w' := final (compare_3d_vectormaps_compact get_3d_vectors field_error np_mean
                     m1 m2 kwargs w) in
  pupil_compare_errors (ax_obj w' a) = pupil_compare_errors (ax_obj w a)
  ∧ pupil_compare_rotations (ax_obj w' a) = pupil_compare_rotations (ax_obj w a)
  ∧ pupil_compare_reverse_errors (ax_obj w' a)
    = pupil_compare_reverse_errors (ax_obj w a).
Proof.
  exact (compare_3d_vectormaps_compact_keeps_series get_3d_vectors field_error
           np_mean m1 m2 kwargs w a).
Qed.

(** X20: a call of [compare_3d_vectormaps] with [total_error=True] and
    without [animation] (both are the defaults of the signature) does not
    return: the panel of the total error compares [np.min(animation)]
    with -100 (line 762), outside the test [animation is not None] that
    guards the limits of the x axis (line 741). *)
Theorem total_error_needs_animation get_3d_vectors field_error np_mean m1 m2 given
    p kwargs w :
  bind_params ["manalyser1"; "manalyser2"] compare_3d_vectormaps_params []
    true given = Some (p, kwargs) →
  arg p "total_error" = PBool true →
  arg p "animation" = PNone →
  ∃ e, result (compare_3d_vectormaps get_3d_vectors field_error np_mean m1 m2
                 given w) = Raise e.
Proof. apply compare_3d_vectormaps_needs_animation. Qed.

Lemma compare_with_the_defaults_raises :
  ∃ e, result (compare_3d_vectormaps example_get_3d_vectors example_field_error
                 example_np_mean 1 2 [("axes", five_axes)] example_world)
       = Raise e.
Proof.
  exact (total_error_needs_animation example_get_3d_vectors example_field_error
           example_np_mean 1 2 [("axes", five_axes)]
           (dict_set "axes" five_axes compare_3d_vectormaps_params) []
           example_world eq_refl eq_refl eq_refl).
Defined.

(** X21: when a call of [compare_3d_vectormaps] with [total_error=True]
    returns, one axes has gained one point.  Its [pupil_compare_errors] is
    the series it had (an empty one, if it had no such attribute) with one
    value appended: [np.mean] of the error field of the difference map of
    lines 583-584, that is of the concatenation of the fields of the eyes
    of [manalyser1], which are the fields of the last surfaces the call
    drew (one field for each eye, each on the surfaces of its eye).  Its
    [pupil_compare_rotations] is the rotations it had with
    [animation_variable] appended, and the two are equally long; the three
    series of every other axes are what they were (lines 711-728). *)
Theorem total_error_adds_one_point get_3d_vectors field_error np_mean m1 m2 given
    p kwargs w w' evs v :
  bind_params ["manalyser1"; "manalyser2"] compare_3d_vectormaps_params []
    true given = Some (p, kwargs) →
  arg p "total_error" = PBool true →
  compare_3d_vectormaps get_3d_vectors field_error np_mean m1 m2 given w
  = Run w' evs (Return v) →
  ∃ a fields earlier,
    length fields = length (eyes (analysers w m1))
    ∧ project surface_of evs = earlier ++ eye_surfaces (eyes (analysers w m1)) fields
    ∧ point_added a (np_mean (concat fields)) (arg p "animation_variable") w w'
    ∧ series_aligned a w'.
Proof. apply compare_3d_vectormaps_adds_the_mean. Qed.

Lemma a_point_at_45_degrees :
  let given := [("axes", five_axes); ("animation", PTuple [PInt (-45); PInt 45]);
                ("animation_variable", PInt 45)] in
  let r := compare_3d_vectormaps example_get_3d_vectors example_field_error
             example_np_mean 1 2 given example_world in
  eyes (analysers example_world 1) = ["left"; "right"]
  ∧ ∃ v a fields earlier,
      result r = Return v
      ∧ length fields = 2%nat
      ∧ project surface_of (emitted r)
        = earlier ++ eye_surfaces ["left"; "right"] fields
      ∧ point_added a (example_np_mean (concat fields)) (PInt 45) example_world
          (final r)
      ∧ series_aligned a (final r).
Proof.
  intros given r. split; [reflexivity|].
  assert (∃ v, result r = Return v) as [v Hr] by (vm_compute; by eexists).
  pose proof (run_eta r) as Heta. rewrite Hr in Heta.
  pose proof (total_error_adds_one_point example_get_3d_vectors example_field_error
              example_np_mean 1 2 given
              (dict_set "animation_variable" (PInt 45)
                 (dict_set "animation" (PTuple [PInt (-45); PInt 45])
                    (dict_set "axes" five_axes compare_3d_vectormaps_params))) []
              example_world (final r) (emitted r) v eq_refl eq_refl Heta)
    as (a & fields & earlier & Hadded).
  exists v, a, fields, earlier. split; [exact Hr|]. exact Hadded.
Defined.

(** X22: when [compare_3d_vectormaps_manyviews] returns, it has called
    [compare_3d_vectormaps] three times, and no more: with the cameras
    (elev, azim) = (50, 90), (0, 90) and (-50, 90), in this order, and with
    [illustrate] and [total_error] True in the first call and False in the
    other two (lines 806 and 919-934). *)
Theorem manyviews_compares_three_views get_3d_vectors field_error np_mean args given
    w w' evs v :
  compare_3d_vectormaps_manyviews get_3d_vectors field_error np_mean args given w
  = Run w' evs (Return v) →
  view_of <$> project comparison_of evs
  = [(PInt 50, PInt 90, PBool true, PBool true);
     (PInt 0, PInt 90, PBool false, PBool false);
     (PInt (-50), PInt 90, PBool false, PBool false)].
Proof. apply compare_3d_vectormaps_manyviews_run. Qed.

Lemma three_views_of_a_frame :
  let given := [("animation", PTuple [PInt (-45); PInt 45]);
                ("animation_type", PStr "pitch_rot");
                ("animation_variable", PInt 45)] in
  let r := compare_3d_vectormaps_manyviews example_get_3d_vectors
             example_field_error example_np_mean [1%nat; 2%nat] given
             example_world in
  (∃ v, result r = Return v)
  ∧ view_of <$> project comparison_of (emitted r)
    = [(PInt 50, PInt 90, PBool true, PBool true);
       (PInt 0, PInt 90, PBool false, PBool false);
       (PInt (-50), PInt 90, PBool false, PBool false)].
Proof.
  intros given r.
  assert (∃ v, result r = Return v) as [v Hr] by (vm_compute; by eexists).
  split; [by exists v|].
  pose proof (run_eta r) as Heta. rewrite Hr in Heta.
  exact (manyviews_compares_three_views example_get_3d_vectors example_field_error
           example_np_mean [1%nat; 2%nat] given example_world (final r) (emitted r)
           v Heta).
Defined.

(** X23: [compare_3d_vectormaps_manyviews] called without the keyword
    [animation] does not return: its first call of
    [compare_3d_vectormaps] asks for the total error (line 925) and hands
    on no [animation], which line 762 needs. *)
Theorem manyviews_needs_animation get_3d_vectors field_error np_mean args given w :
  "animation" ∉ dict_keys given →
  ∃ e, result (compare_3d_vectormaps_manyviews get_3d_vectors field_error np_mean
                 args given w) = Raise e.
Proof. apply compare_3d_vectormaps_manyviews_needs_animation. Qed.

Lemma manyviews_of_a_tilt_alone_raises :
  ∃ e, result (compare_3d_vectormaps_manyviews example_get_3d_vectors
                 example_field_error example_np_mean [1%nat; 2%nat]
                 [("animation_type", PStr "pitch_rot");
                  ("animation_variable", PInt 45)] example_world)
       = Raise e.
Proof.
  apply (manyviews_needs_animation example_get_3d_vectors example_field_error
           example_np_mean [1%nat; 2%nat]
           [("animation_type", PStr "pitch_rot"); ("animation_variable", PInt 45)]
           example_world).
  apply (bool_decide_unpack _). vm_compute. exact I.
Defined.
